(** * Chat Hub memory: proxy service, message history adapter, host helper

    A shallow embedding of

    - [packages/cli/src/modules/chat-hub/chat-hub-proxy.service.ts]
      (the proxy service and the facade it hands out),
    - [packages/@n8n/nodes-langchain/nodes/memory/MemoryChatHub/ChatHubMessageHistory.ts]
      (the LangChain message history adapter),
    - the host helper [getChatHubHelperFunctions],

    together with the JavaScript built-ins they rely on ([JSON.parse],
    [JSON.stringify], property access, [trim]) and the repositories and
    history utilities they import. *)

From Stdlib Require Import String Ascii List ZArith NArith Bool Lia.
From Stdlib Require Import Permutation Sorted OrdersEx.
From Stdlib Require Import Decimal DecimalString DecimalFacts DecimalPos DecimalN DecimalZ.
Import ListNotations.

Local Open Scope string_scope.
Local Open Scope list_scope.

Set Warnings "-register-all".

(* ================================================================= *)
(** ** JavaScript values and the JSON built-ins *)

(** The double quote character (code 34). *)
Definition dquote : ascii := ascii_of_nat 34.

(** [jtext] writes JSON text with single quotes standing for the double
    quotes of the real text, which keeps examples readable. *)
Fixpoint jtext (s : string) : string :=
  match s with
  | EmptyString => EmptyString
  | String c r => String (if (c =? "'")%char then dquote else c) (jtext r)
  end.

(** Values that [JSON.parse] can return.  Strings are byte strings
    (UTF-8).  Integers are exact; a number literal with a fraction or
    an exponent is carried as the text that denotes it.  An object is
    its member list in enumeration order. *)
Inductive json : Type :=
| JNull
| JBool (b : bool)
| JNum (z : Z)
| JReal (lexeme : string)
| JStr (s : string)
| JArr (items : list json)
| JObj (members : list (string * json)).

(** A JavaScript value as an expression yields it: [None] is
    [undefined]. *)
Definition jsval : Type := option json.

Module JSON.

(** *** Serialisation *)

Definition hex_digit (n : N) : ascii :=
  ascii_of_N (if (n <? 10)%N then 48 + n else 87 + n).

Definition escape_char (c : ascii) : string :=
  let n := N_of_ascii c in
  if (c =? dquote)%char then String "\" (String dquote EmptyString)
  else if (c =? "\")%char then "\\"
  else if (n =? 8)%N then "\b"
  else if (n =? 12)%N then "\f"
  else if (n =? 10)%N then "\n"
  else if (n =? 13)%N then "\r"
  else if (n =? 9)%N then "\t"
  else if (n <? 32)%N then
    String "\" (String "u" (String "0" (String "0"
      (String (hex_digit (n / 16)) (String (hex_digit (n mod 16)) EmptyString)))))
  else String c EmptyString.

Fixpoint escape_string (s : string) : string :=
  match s with
  | EmptyString => EmptyString
  | String c r => (escape_char c ++ escape_string r)%string
  end.

Definition quote (s : string) : string :=
  String dquote (escape_string s ++ String dquote EmptyString)%string.

Definition string_of_Z (z : Z) : string :=
  NilZero.string_of_int (Z.to_int z).

(** [JSON.stringify] of a value.  A number carried as text is written
    as that text; JavaScript writes the shortest text of the number,
    which is the same text only where the stored one is that shortest
    text. *)
Fixpoint stringify (v : json) : string :=
  match v with
  | JNull => "null"
  | JBool true => "true"
  | JBool false => "false"
  | JNum z => string_of_Z z
  | JReal l => l
  | JStr s => quote s
  | JArr items =>
      let fix elements (l : list json) : string :=
        match l with
        | [] => EmptyString
        | [x] => stringify x
        | x :: r => (stringify x ++ "," ++ elements r)%string
        end in
      ("[" ++ elements items ++ "]")%string
  | JObj members =>
      let fix pairs (l : list (string * json)) : string :=
        match l with
        | [] => EmptyString
        | [(k, x)] => (quote k ++ ":" ++ stringify x)%string
        | (k, x) :: r => (quote k ++ ":" ++ stringify x ++ "," ++ pairs r)%string
        end in
      ("{" ++ pairs members ++ "}")%string
  end.

(** [JSON.stringify(undefined)] is [undefined]. *)
Definition stringify_js (v : jsval) : option string :=
  match v with
  | None => None
  | Some j => Some (stringify j)
  end.

(** *** Objects as JavaScript orders them *)

(** An array index key: a canonical numeric string below 2^32 - 1. *)
Definition array_index (k : string) : option N :=
  match NilEmpty.uint_of_string k with
  | Some u =>
      let n := N.of_uint u in
      if String.eqb (NilZero.string_of_uint (N.to_uint n)) k
      then if (n <? 4294967295)%N then Some n else None
      else None
  | None => None
  end.

(** Setting a property: an existing key keeps its place. *)
Fixpoint obj_set (k : string) (v : json) (l : list (string * json))
  : list (string * json) :=
  match l with
  | [] => [(k, v)]
  | (k', v') :: r =>
      if String.eqb k' k then (k', v) :: r else (k', v') :: obj_set k v r
  end.

Fixpoint insert_index (n : N) (kv : string * json)
         (l : list (N * (string * json))) : list (N * (string * json)) :=
  match l with
  | [] => [(n, kv)]
  | (m, kv') :: r =>
      if (n <? m)%N then (n, kv) :: l else (m, kv') :: insert_index n kv r
  end.

(** Enumeration order: array indices ascending, then the other keys
    in insertion order. *)
Definition enumerate (l : list (string * json)) : list (string * json) :=
  let idx := fold_right
               (fun kv acc => match array_index (fst kv) with
                              | Some n => insert_index n kv acc
                              | None => acc
                              end) [] l in
  let rest := filter (fun kv => match array_index (fst kv) with
                                | Some _ => false
                                | None => true
                                end) l in
  map snd idx ++ rest.

Definition obj_of_members (l : list (string * json)) : list (string * json) :=
  enumerate (fold_left (fun acc kv => obj_set (fst kv) (snd kv) acc) l []).

(** *** Parsing *)

Definition is_ws (c : ascii) : bool :=
  let n := N_of_ascii c in
  ((n =? 32) || (n =? 9) || (n =? 10) || (n =? 13))%N.

Fixpoint skip_ws (s : string) : string :=
  match s with
  | String c r => if is_ws c then skip_ws r else s
  | EmptyString => s
  end.

Definition hex_val (c : ascii) : option N :=
  let n := N_of_ascii c in
  if ((48 <=? n) && (n <=? 57))%N then Some (n - 48)%N
  else if ((97 <=? n) && (n <=? 102))%N then Some (n - 87)%N
  else if ((65 <=? n) && (n <=? 70))%N then Some (n - 55)%N
  else None.

Definition hex4 (a b c d : ascii) : option N :=
  match hex_val a, hex_val b, hex_val c, hex_val d with
  | Some x, Some y, Some z, Some w => Some (((x * 16 + y) * 16 + z) * 16 + w)%N
  | _, _, _, _ => None
  end.

Definition simple_escape (e : ascii) : option ascii :=
  if (e =? dquote)%char then Some dquote
  else if (e =? "\")%char then Some "\"%char
  else if (e =? "/")%char then Some "/"%char
  else if (e =? "b")%char then Some (ascii_of_N 8)
  else if (e =? "f")%char then Some (ascii_of_N 12)
  else if (e =? "n")%char then Some (ascii_of_N 10)
  else if (e =? "r")%char then Some (ascii_of_N 13)
  else if (e =? "t")%char then Some (ascii_of_N 9)
  else None.

(** The characters of a string literal after its opening quote: a
    byte taken as it is, or the code unit of a [\u] escape. *)
Fixpoint string_units (s : string) : option (list (ascii + N) * string) :=
  match s with
  | EmptyString => None
  | String c r =>
      if (c =? dquote)%char then Some ([], r)
      else if (c =? "\")%char then
        match r with
        | String e r1 =>
            if (e =? "u")%char then
              match r1 with
              | String h1 (String h2 (String h3 (String h4 r2))) =>
                  match hex4 h1 h2 h3 h4 with
                  | Some n =>
                      match string_units r2 with
                      | Some (us, rest) => Some (inr n :: us, rest)
                      | None => None
                      end
                  | None => None
                  end
              | _ => None
              end
            else
              match simple_escape e with
              | Some ch =>
                  match string_units r1 with
                  | Some (us, rest) => Some (inl ch :: us, rest)
                  | None => None
                  end
              | None => None
              end
        | EmptyString => None
        end
      else if (N_of_ascii c <? 32)%N then None
      else
        match string_units r with
        | Some (us, rest) => Some (inl c :: us, rest)
        | None => None
        end
  end.

(** UTF-8 bytes of a code point. *)
Definition utf8 (cp : N) : string :=
  if (cp <? 128)%N then String (ascii_of_N cp) EmptyString
  else if (cp <? 2048)%N then
    String (ascii_of_N (192 + cp / 64))
      (String (ascii_of_N (128 + cp mod 64)) EmptyString)
  else if (cp <? 65536)%N then
    String (ascii_of_N (224 + cp / 4096))
      (String (ascii_of_N (128 + (cp / 64) mod 64))
         (String (ascii_of_N (128 + cp mod 64)) EmptyString))
  else
    String (ascii_of_N (240 + cp / 262144))
      (String (ascii_of_N (128 + (cp / 4096) mod 64))
         (String (ascii_of_N (128 + (cp / 64) mod 64))
            (String (ascii_of_N (128 + cp mod 64)) EmptyString))).

Definition high_surrogate (n : N) : bool := ((55296 <=? n) && (n <? 56320))%N.
Definition low_surrogate (n : N) : bool := ((56320 <=? n) && (n <? 57344))%N.

(** Bytes of the parsed string; a surrogate pair is one code point. *)
Fixpoint decode_units (l : list (ascii + N)) : string :=
  match l with
  | [] => EmptyString
  | inl c :: r => String c (decode_units r)
  | inr hi :: r =>
      match r with
      | inr lo :: r' =>
          if high_surrogate hi && low_surrogate lo
          then (utf8 (65536 + (hi - 55296) * 1024 + (lo - 56320)) ++ decode_units r')%string
          else (utf8 hi ++ decode_units r)%string
      | _ => (utf8 hi ++ decode_units r)%string
      end
  end.

Definition parse_string (s : string) : option (string * string) :=
  match string_units s with
  | Some (us, rest) => Some (decode_units us, rest)
  | None => None
  end.

Definition digit (c : ascii) : option (uint -> uint) :=
  let n := N_of_ascii c in
  if (n =? 48)%N then Some D0 else if (n =? 49)%N then Some D1
  else if (n =? 50)%N then Some D2 else if (n =? 51)%N then Some D3
  else if (n =? 52)%N then Some D4 else if (n =? 53)%N then Some D5
  else if (n =? 54)%N then Some D6 else if (n =? 55)%N then Some D7
  else if (n =? 56)%N then Some D8 else if (n =? 57)%N then Some D9
  else None.

Fixpoint take_digits (s : string) : uint * string :=
  match s with
  | EmptyString => (Nil, s)
  | String c r =>
      match digit c with
      | Some d => let (u, rest) := take_digits r in (d u, rest)
      | None => (Nil, s)
      end
  end.

Definition no_digits (u : uint) : bool :=
  match u with Nil => true | _ => false end.

(** A leading zero may only stand alone. *)
Definition leading_zero (u : uint) : bool :=
  match u with
  | D0 Nil => false
  | D0 _ => true
  | _ => false
  end.

Fixpoint take (n : nat) (s : string) : string :=
  match n, s with
  | S m, String c r => String c (take m r)
  | _, _ => EmptyString
  end.

Definition starts_with (c : ascii) (s : string) : bool :=
  match s with
  | String d _ => (d =? c)%char
  | EmptyString => false
  end.

Definition tail (s : string) : string :=
  match s with
  | String _ r => r
  | EmptyString => EmptyString
  end.

(** Scans the optional fraction; [None] when a dot has no digits. *)
Definition take_fraction (s : string) : option (bool * string) :=
  if starts_with "." s then
    let (f, r) := take_digits (tail s) in
    if no_digits f then None else Some (true, r)
  else Some (false, s).

Definition take_exponent (s : string) : option (bool * string) :=
  if starts_with "e" s || starts_with "E" s then
    let s1 := tail s in
    let s2 := if starts_with "+" s1 || starts_with "-" s1 then tail s1 else s1 in
    let (x, r) := take_digits s2 in
    if no_digits x then None else Some (true, r)
  else Some (false, s).

Definition parse_number (s : string) : option (json * string) :=
  let neg := starts_with "-" s in
  let (u, r) := take_digits (if neg then tail s else s) in
  if no_digits u || leading_zero u then None
  else
    match take_fraction r with
    | None => None
    | Some (frac, r1) =>
        match take_exponent r1 with
        | None => None
        | Some (exp, r2) =>
            if frac || exp
            then Some (JReal (take (String.length s - String.length r2) s), r2)
            else Some (JNum (Z.of_int (if neg then Neg u else Pos u)), r2)
        end
    end.

(** [expect w s]: [s] without its prefix [w]. *)
Fixpoint expect (w s : string) : option string :=
  match w, s with
  | EmptyString, _ => Some s
  | String a w', String b s' => if (a =? b)%char then expect w' s' else None
  | String _ _, EmptyString => None
  end.

Definition is_number_start (c : ascii) : bool :=
  (c =? "-")%char ||
  match digit c with Some _ => true | None => false end.

Fixpoint parse_value (fuel : nat) (s : string) {struct fuel}
  : option (json * string) :=
  match fuel with
  | O => None
  | S fuel' =>
      match skip_ws s with
      | EmptyString => None
      | String c r =>
          if (c =? "n")%char then
            match expect "ull" r with Some r' => Some (JNull, r') | None => None end
          else if (c =? "t")%char then
            match expect "rue" r with Some r' => Some (JBool true, r') | None => None end
          else if (c =? "f")%char then
            match expect "alse" r with Some r' => Some (JBool false, r') | None => None end
          else if (c =? dquote)%char then
            match parse_string r with
            | Some (str, r') => Some (JStr str, r')
            | None => None
            end
          else if (c =? "[")%char then
            if starts_with "]" (skip_ws r)
            then Some (JArr [], tail (skip_ws r))
            else
              match parse_elements fuel' r with
              | Some (items, r') => Some (JArr items, r')
              | None => None
              end
          else if (c =? "{")%char then
            if starts_with "}" (skip_ws r)
            then Some (JObj [], tail (skip_ws r))
            else
              match parse_members fuel' r with
              | Some (members, r') => Some (JObj (obj_of_members members), r')
              | None => None
              end
          else if is_number_start c then parse_number (String c r)
          else None
      end
  end

with parse_elements (fuel : nat) (s : string) {struct fuel}
  : option (list json * string) :=
  match fuel with
  | O => None
  | S fuel' =>
      match parse_value fuel' s with
      | None => None
      | Some (v, s1) =>
          match skip_ws s1 with
          | String c r =>
              if (c =? ",")%char then
                match parse_elements fuel' r with
                | Some (vs, s2) => Some (v :: vs, s2)
                | None => None
                end
              else if (c =? "]")%char then Some ([v], r)
              else None
          | EmptyString => None
          end
      end
  end

with parse_members (fuel : nat) (s : string) {struct fuel}
  : option (list (string * json) * string) :=
  match fuel with
  | O => None
  | S fuel' =>
      match skip_ws s with
      | String q s0 =>
          if (q =? dquote)%char then
            match parse_string s0 with
            | None => None
            | Some (k, s1) =>
                match skip_ws s1 with
                | String colon s2 =>
                    if (colon =? ":")%char then
                      match parse_value fuel' s2 with
                      | None => None
                      | Some (v, s3) =>
                          match skip_ws s3 with
                          | String c r =>
                              if (c =? ",")%char then
                                match parse_members fuel' r with
                                | Some (kvs, s4) => Some ((k, v) :: kvs, s4)
                                | None => None
                                end
                              else if (c =? "}")%char then Some ([(k, v)], r)
                              else None
                          | EmptyString => None
                          end
                      end
                    else None
                | EmptyString => None
                end
            end
          else None
      | EmptyString => None
      end
  end.

(** [JSON.parse]: [None] stands for the [SyntaxError] it throws.  The
    fuel covers every nesting the text can hold. *)
Definition parse (s : string) : option json :=
  match parse_value (2 * String.length s + 2) s with
  | Some (v, rest) =>
      match skip_ws rest with
      | EmptyString => Some v
      | String _ _ => None
      end
  | None => None
  end.

End JSON.

(* ================================================================= *)
(** ** Errors, property access, object literals, [trim] *)

(** What is thrown: an [Error] with its message, the [TypeError] of the
    language, or the failure of a query in a repository. *)
Inductive Error : Type :=
| JsError (message : string)
| TypeError (message : string)
| QueryFailedError (message : string).

(** An expression returns a value or throws. *)
Inductive Result (A : Type) : Type :=
| Ok (value : A)
| Threw (e : Error).
Arguments Ok {A} value.
Arguments Threw {A} e.

Fixpoint assoc {A : Type} (k : string) (l : list (string * A)) : option A :=
  match l with
  | [] => None
  | (k', v) :: r => if String.eqb k' k then Some v else assoc k r
  end.

(** Reading the property [k] of a parsed value.  On [null] this is a
    [TypeError]; an object has the property or gives [undefined]; a
    number, string, boolean or array has none of the properties read
    in this development. *)
Definition js_get (v : json) (k : string) : Result jsval :=
  match v with
  | JNull => Threw (TypeError "Cannot read properties of null")
  | JObj members => Ok (assoc k members)
  | _ => Ok None
  end.

(** An object literal: a property whose value is [undefined] is left
    out when the object is serialised. *)
Definition js_object (fields : list (string * jsval)) : json :=
  JObj ((fix keep (l : list (string * jsval)) : list (string * json) :=
           match l with
           | [] => []
           | (k, Some v) :: r => (k, v) :: keep r
           | (_, None) :: r => keep r
           end) fields).

(** [s.trim() !== ''] fails exactly when every character of [s] is
    white space or a line terminator; the ones outside ASCII are
    matched by their UTF-8 bytes. *)
Fixpoint is_blank (s : string) : bool :=
  match s with
  | EmptyString => true
  | String c r =>
      let n := N_of_ascii c in
      if ((n =? 32) || ((9 <=? n) && (n <=? 13)))%N then is_blank r
      else
        match r with
        | String c1 r1 =>
            let n1 := N_of_ascii c1 in
            if ((n =? 194) && (n1 =? 160))%N then is_blank r1
            else
              match r1 with
              | String c2 r2 =>
                  let n2 := N_of_ascii c2 in
                  if ((n =? 225) && (n1 =? 154) && (n2 =? 128))%N
                     || ((n =? 226) && (n1 =? 128)
                         && ((128 <=? n2) && (n2 <=? 138) || (n2 =? 168)
                             || (n2 =? 169) || (n2 =? 175)))%N
                     || ((n =? 226) && (n1 =? 129) && (n2 =? 159))%N
                     || ((n =? 227) && (n1 =? 128) && (n2 =? 128))%N
                     || ((n =? 239) && (n1 =? 187) && (n2 =? 191))%N
                  then is_blank r2
                  else false
              | EmptyString => false
              end
        | EmptyString => false
        end
  end.

(* ================================================================= *)
(** ** Stored records *)

Module ChatHubMessage.
(** Modelled from the spec: the chat message entity is not part of the
    sources.  A ChatMessage is a node of the conversation tree (id,
    sessionId, parentMessageId, role, createdAt) and an AI message
    carries the turn id of the execution that produced it.  The
    edit/retry marker plays no part in the chain and is left out. *)
Record t : Type := mk {
  id : string;
  sessionId : string;
  parentMessageId : option string;
  role : string;
  createdAt : Z;
  turnId : option string
}.
End ChatHubMessage.

Module ChatHubMemory.
(** A row of the memory entry store: the fields the service hands to
    [createMemoryEntry], and the creation time the store adds. *)
Record t : Type := mk {
  id : string;
  sessionId : string;
  memoryNodeId : string;
  turnId : option string;
  role : string;
  content : string;
  name : option string;
  createdAt : Z
}.
End ChatHubMemory.

Module ChatHubMemoryEntry.
(** The typed entry contract [getMemory] returns. *)
Record t : Type := mk {
  id : string;
  role : string;
  content : string;
  name : option string;
  createdAt : Z
}.
End ChatHubMemoryEntry.

Module ChatHubSession.
(** A chat session: the fields the service hands to
    [createChatSession]. *)
Record t : Type := mk {
  id : string;
  ownerId : string;
  title : string;
  lastMessageAt : Z;
  tools : list json;
  provider : string;
  credentialId : option string;
  model : option string;
  workflowId : option string;
  agentId : option string;
  agentName : string
}.
End ChatHubSession.

(** The row a caller hands to [createMemoryEntry]; the store stamps
    [createdAt]. *)
Record NewMemoryEntry : Type := {
  new_id : string;
  new_sessionId : string;
  new_memoryNodeId : string;
  new_turnId : option string;
  new_role : string;
  new_content : string;
  new_name : option string
}.

(* ================================================================= *)
(** ** The world the service runs in *)

(** Calls that reach a repository, in the order they are made. *)
Inductive StoreCall : Type :=
| GetManyBySessionId (sessionId : string)
| GetMemoryByTurnIds (sessionId memoryNodeId : string) (turnIds : list string)
| CreateMemoryEntry (entry : NewMemoryEntry)
| DeleteBySessionAndNode (sessionId memoryNodeId : string)
| ExistsById (sessionId ownerId : string)
| CreateChatSession (session : ChatHubSession.t).

(** The state the service works on: what the three repositories hold,
    the clock, the supply of fresh identifiers, and the trace of
    repository calls made so far.  Failures of the storage itself
    (connection lost and the like) are not part of it. *)
Record World : Type := {
  messages : list ChatHubMessage.t;
  memory : list ChatHubMemory.t;
  sessions : list ChatHubSession.t;
  now : Z;
  uuids : nat;
  calls : list StoreCall
}.

(** An asynchronous operation: run on a world, it resolves to a value or
    rejects with an error, and leaves a world behind. *)
Definition M (A : Type) : Type := World -> Result A * World.

Definition ret {A : Type} (a : A) : M A := fun w => (Ok a, w).

Definition throw {A : Type} (e : Error) : M A := fun w => (Threw e, w).

Definition bind {A B : Type} (m : M A) (k : A -> M B) : M B :=
  fun w =>
    match m w with
    | (Ok a, w') => k a w'
    | (Threw e, w') => (Threw e, w')
    end.

Notation "x <- m ;; k" := (bind m (fun x => k))
  (at level 61, m at next level, right associativity).
Notation "m ;;; k" := (bind m (fun _ => k))
  (at level 61, right associativity).

Definition lift {A : Type} (r : Result A) : M A := fun w => (r, w).

Definition record_call (c : StoreCall) : M unit :=
  fun w => (Ok tt,
            {| messages := messages w; memory := memory w; sessions := sessions w;
               now := now w; uuids := uuids w; calls := calls w ++ [c] |}).

Definition log_calls (cs : list StoreCall) (w : World) : World :=
  {| messages := messages w; memory := memory w; sessions := sessions w;
     now := now w; uuids := uuids w; calls := calls w ++ cs |}.

(** [uuid()]: version 4 identifiers are random; here a supply of names
    that never repeats. *)
Definition uuid : M string :=
  fun w => (Ok ("uuid-" ++ NilZero.string_of_uint (Nat.to_uint (uuids w)))%string,
            {| messages := messages w; memory := memory w; sessions := sessions w;
               now := now w; uuids := S (uuids w); calls := calls w |}).

(** [new Date()] *)
Definition new_Date : M Z := fun w => (Ok (now w), w).

(* ================================================================= *)
(** ** Repositories *)

Definition with_memory (l : list ChatHubMemory.t) (w : World) : World :=
  {| messages := messages w; memory := l; sessions := sessions w;
     now := now w; uuids := uuids w; calls := calls w |}.

Definition with_sessions (l : list ChatHubSession.t) (w : World) : World :=
  {| messages := messages w; memory := memory w; sessions := l;
     now := now w; uuids := uuids w; calls := calls w |}.

(** Modelled from the spec: [ChatHubMessageRepository.getManyBySessionId]
    is not part of the sources; [listMessages(sessionId)] of the store
    interface lists the messages stored for the session. *)
Definition getManyBySessionId (sessionId : string) : M (list ChatHubMessage.t) :=
  record_call (GetManyBySessionId sessionId) ;;;
  fun w => (Ok (filter (fun m => String.eqb (ChatHubMessage.sessionId m) sessionId)
                       (messages w)), w).

(** Modelled from the spec: the condition of [getMemoryByTurnIds], which
    is not part of the sources: an entry matches (sessionId,
    memoryNodeId, turnId in the given set). *)
Definition entry_matches (sessionId memoryNodeId : string) (turnIds : list string)
           (e : ChatHubMemory.t) : bool :=
  String.eqb (ChatHubMemory.sessionId e) sessionId
  && String.eqb (ChatHubMemory.memoryNodeId e) memoryNodeId
  && match ChatHubMemory.turnId e with
     | Some t => existsb (String.eqb t) turnIds
     | None => false
     end.

(** Modelled from the spec: the order of [getMemoryByTurnIds], which is
    not part of the sources: entries are ordered by creation time;
    entries created at the same time keep the order of insertion. *)
Fixpoint insert_by_createdAt (e : ChatHubMemory.t) (l : list ChatHubMemory.t)
  : list ChatHubMemory.t :=
  match l with
  | [] => [e]
  | x :: r =>
      if (ChatHubMemory.createdAt x <? ChatHubMemory.createdAt e)%Z
      then x :: insert_by_createdAt e r
      else e :: l
  end.

Definition order_by_createdAt (l : list ChatHubMemory.t) : list ChatHubMemory.t :=
  fold_right insert_by_createdAt [] l.

(** Modelled from the spec: [ChatHubMemoryRepository.getMemoryByTurnIds]
    is not part of the sources; the store is queried for the entries
    matching (sessionId, memoryNodeId, turnId in the given set), ordered
    by creation time.  An entry without a turn id matches no set. *)
Definition getMemoryByTurnIds (sessionId memoryNodeId : string) (turnIds : list string)
  : M (list ChatHubMemory.t) :=
  record_call (GetMemoryByTurnIds sessionId memoryNodeId turnIds) ;;;
  fun w => (Ok (order_by_createdAt
                  (filter (entry_matches sessionId memoryNodeId turnIds) (memory w))), w).

(** Modelled from the spec: [ChatHubMemoryRepository.createMemoryEntry]
    is not part of the sources; [appendMemoryEntry(entry)] appends one
    immutable entry to the log, stamped with its creation time.  This
    store accepts every write; what the writers do with a repository
    that rejects one is stated over [Injected]. *)
Definition createMemoryEntry (e : NewMemoryEntry) : M unit :=
  record_call (CreateMemoryEntry e) ;;;
  fun w => (Ok tt,
            with_memory
              (memory w ++
               [ChatHubMemory.mk (new_id e) (new_sessionId e) (new_memoryNodeId e)
                  (new_turnId e) (new_role e) (new_content e) (new_name e) (now w)])
              w).

(** Modelled from the spec: [ChatHubMemoryRepository.deleteBySessionAndNode]
    is not part of the sources; clearing deletes all entries of the
    (sessionId, memoryNodeId) pair, never partially. *)
Definition deleteBySessionAndNode (sessionId memoryNodeId : string) : M unit :=
  record_call (DeleteBySessionAndNode sessionId memoryNodeId) ;;;
  fun w => (Ok tt,
            with_memory
              (filter (fun e => negb (String.eqb (ChatHubMemory.sessionId e) sessionId
                                      && String.eqb (ChatHubMemory.memoryNodeId e) memoryNodeId))
                      (memory w))
              w).

(** Modelled from the spec: [ChatHubSessionRepository.existsById] is not
    part of the sources; [sessionExists(id, ownerId)] tells whether a
    session with this id exists for this owner. *)
Definition existsById (sessionId ownerId : string) : M bool :=
  record_call (ExistsById sessionId ownerId) ;;;
  fun w => (Ok (existsb (fun s => String.eqb (ChatHubSession.id s) sessionId
                                  && String.eqb (ChatHubSession.ownerId s) ownerId)
                        (sessions w)), w).

(** Modelled from the spec: [ChatHubSessionRepository.createChatSession]
    is not part of the sources; [createSession(record)] stores the
    record under repository-level uniqueness enforcement: a session is
    created at most once per id, and a duplicate create fails. *)
Definition createChatSession (s : ChatHubSession.t) : M unit :=
  record_call (CreateChatSession s) ;;;
  fun w =>
    if existsb (fun s' => String.eqb (ChatHubSession.id s') (ChatHubSession.id s))
               (sessions w)
    then (Threw (QueryFailedError "duplicate key value violates unique constraint"), w)
    else (Ok tt, with_sessions (sessions w ++ [s]) w).

(* ================================================================= *)
(** ** History utilities *)

(** Modelled from the spec: parts of the Message Chain Builder, which is
    not part of the sources: the root has no parent, and the children of
    a message are the messages that name it as their parent. *)
Definition is_root (m : ChatHubMessage.t) : bool :=
  match ChatHubMessage.parentMessageId m with
  | None => true
  | Some _ => false
  end.

Definition children (parent : string) (msgs : list ChatHubMessage.t)
  : list ChatHubMessage.t :=
  filter (fun m => match ChatHubMessage.parentMessageId m with
                   | Some p => String.eqb p parent
                   | None => false
                   end) msgs.

(** Modelled from the spec: ties are broken by id; the order on ids
    compares strings character by character. *)
Definition id_lt (a b : string) : bool :=
  match String_as_OT.compare a b with
  | Lt => true
  | _ => false
  end.

(** Modelled from the spec: [supersedes a b] when [a] was created after
    [b]; on equal times the greater id decides.  [latest] is the child
    that no other supersedes. *)
Definition supersedes (a b : ChatHubMessage.t) : bool :=
  (ChatHubMessage.createdAt b <? ChatHubMessage.createdAt a)%Z
  || ((ChatHubMessage.createdAt b =? ChatHubMessage.createdAt a)%Z
      && id_lt (ChatHubMessage.id b) (ChatHubMessage.id a)).

Fixpoint latest (l : list ChatHubMessage.t) : option ChatHubMessage.t :=
  match l with
  | [] => None
  | x :: r =>
      match latest r with
      | None => Some x
      | Some y => if supersedes y x then Some y else Some x
      end
  end.

(** Modelled from the spec: the walk of the Message Chain Builder.  From
    a node, follow the latest child until a node has no children.  The
    fuel bounds the length of a path; running out of it means the
    parent links go round in a cycle. *)
Fixpoint active_path (fuel : nat) (msgs : list ChatHubMessage.t)
         (node : ChatHubMessage.t) : Result (list ChatHubMessage.t) :=
  match fuel with
  | O => Threw (JsError "Message tree contains a cycle")
  | S fuel' =>
      match latest (children (ChatHubMessage.id node) msgs) with
      | None => Ok [node]
      | Some child =>
          match active_path fuel' msgs child with
          | Ok rest => Ok (node :: rest)
          | Threw e => Threw e
          end
      end
  end.

(** Modelled from the spec: [buildMessageHistory] of
    [chat-hub-history.utils] is not part of the sources.  The Message
    Chain Builder starts from the root (parentMessageId = null), selects
    at each node the child with the latest createdAt among the children
    of that parent (ties broken by id) and recurses until a node has no
    children.  An empty message set gives an empty chain; a tree without
    a root, with several roots or with a cycle is reported. *)
Definition buildMessageHistory (msgs : list ChatHubMessage.t)
  : Result (list ChatHubMessage.t) :=
  match msgs with
  | [] => Ok []
  | _ :: _ =>
      match filter is_root msgs with
      | [] => Threw (JsError "Message tree has no root")
      | [root] => active_path (S (List.length msgs)) msgs root
      | _ :: _ :: _ => Threw (JsError "Message tree has multiple roots")
      end
  end.

(** Modelled from the spec: de-duplication of the Turn ID Extractor;
    the first occurrence of a turn id keeps its place. *)
Fixpoint dedupe (l : list string) : list string :=
  match l with
  | [] => []
  | x :: r => x :: filter (fun y => negb (String.eqb y x)) (dedupe r)
  end.

(** Modelled from the spec: [extractTurnIds] of [chat-hub-history.utils]
    is not part of the sources.  The Turn ID Extractor yields the
    ordered, de-duplicated turn identifiers found on the assistant
    (ai-role) messages of the chain. *)
Definition extractTurnIds (chain : list ChatHubMessage.t) : list string :=
  dedupe
    (flat_map (fun m => if String.eqb (ChatHubMessage.role m) "ai"
                        then match ChatHubMessage.turnId m with
                             | Some t => [t]
                             | None => []
                             end
                        else []) chain).

(* ================================================================= *)
(** ** chat-hub-proxy.service.ts *)

Module INode.
(** What the service reads of a node: its type and its parameters. *)
Record t : Type := mk {
  type : string;
  parameters : list (string * json)
}.
End INode.

Module Workflow.
(** [nodes] are the workflow's nodes by name, in the order
    [Object.values] lists them. *)
Record t : Type := mk {
  id : option string;
  name : option string;
  nodes : list (string * INode.t)
}.
End Workflow.

(** The facade a memory node works with. *)
Record IChatHubMemoryService : Type := {
  getOwnerId : string;
  getMemory : M (list ChatHubMemoryEntry.t);
  addHumanMessage : string -> M unit;
  addAIMessage : string -> M unit;
  addToolMessage : string -> string -> jsval -> jsval -> M unit;
  clearMemory : M unit;
  ensureSession : option string -> M unit
}.

Definition ALLOWED_NODES : list string := ["@n8n/n8n-nodes-langchain.memoryChatHub"].
Definition NAME_FALLBACK : string := "Workflow Chat".

Definition isAllowedNode (s : string) : bool :=
  existsb (String.eqb s) ALLOWED_NODES.

(** [validateRequest] throws for a node outside [ALLOWED_NODES]. *)
Definition validateRequest (node : INode.t) : M unit :=
  if negb (isAllowedNode (INode.type node))
  then throw (JsError "This proxy is only available for Chat Hub Memory nodes")
  else ret tt.

(** Extract agent name from the chat trigger node's agentName parameter,
    falling back to workflow name if not set. *)
Definition extractAgentName (workflow : Workflow.t) : string :=
  let chatTriggerNode :=
    find (fun n => String.eqb (INode.type n) "@n8n/n8n-nodes-langchain.chatTrigger")
         (map snd (Workflow.nodes workflow)) in
  let agentName :=
    match chatTriggerNode with
    | Some n => assoc "agentName" (INode.parameters n)
    | None => None
    end in
  let fallback :=
    match Workflow.name workflow with
    | Some n => if negb (String.eqb n EmptyString) && negb (is_blank n)
                then n else NAME_FALLBACK
    | None => NAME_FALLBACK
    end in
  match agentName with
  | Some (JStr a) => if negb (is_blank a) then a else fallback
  | _ => fallback
  end.

(** The projection [getMemory] applies to each row it returns. *)
Definition toEntry (entry : ChatHubMemory.t) : ChatHubMemoryEntry.t :=
  ChatHubMemoryEntry.mk (ChatHubMemory.id entry) (ChatHubMemory.role entry)
    (ChatHubMemory.content entry) (ChatHubMemory.name entry)
    (ChatHubMemory.createdAt entry).

Section Operations.

(** What the closures of [makeChatHubOperations] capture.  The calls
    to [logger.debug] write to the log output only and are left out. *)
Variables (sessionId memoryNodeId : string) (executionTurnId : option string)
          (ownerId : string) (workflowId : option string) (agentName : string).

Definition ops_getMemory : M (list ChatHubMemoryEntry.t) :=
  chatMessages <- getManyBySessionId sessionId ;;
  if Nat.eqb (List.length chatMessages) 0 then ret []
  else
    messageChain <- lift (buildMessageHistory chatMessages) ;;
    let turnIds := extractTurnIds messageChain in
    if Nat.eqb (List.length turnIds) 0 then ret []
    else
      memoryEntries <- getMemoryByTurnIds sessionId memoryNodeId turnIds ;;
      ret (map toEntry memoryEntries).

Definition ops_addHumanMessage (content : string) : M unit :=
  id <- uuid ;;
  createMemoryEntry
    {| new_id := id; new_sessionId := sessionId; new_memoryNodeId := memoryNodeId;
       new_turnId := executionTurnId; new_role := "human"; new_content := content;
       new_name := Some "User" |}.

Definition ops_addAIMessage (content : string) : M unit :=
  id <- uuid ;;
  createMemoryEntry
    {| new_id := id; new_sessionId := sessionId; new_memoryNodeId := memoryNodeId;
       new_turnId := executionTurnId; new_role := "ai"; new_content := content;
       new_name := Some "AI" |}.

Definition ops_addToolMessage (toolCallId toolName : string)
           (toolInput toolOutput : jsval) : M unit :=
  id <- uuid ;;
  let content :=
    JSON.stringify
      (js_object [("toolCallId", Some (JStr toolCallId));
                  ("toolName", Some (JStr toolName));
                  ("toolInput", toolInput);
                  ("toolOutput", toolOutput)]) in
  createMemoryEntry
    {| new_id := id; new_sessionId := sessionId; new_memoryNodeId := memoryNodeId;
       new_turnId := executionTurnId; new_role := "tool"; new_content := content;
       new_name := Some toolName |}.

Definition ops_clearMemory : M unit :=
  deleteBySessionAndNode sessionId memoryNodeId.

(** [ensureSession] after its existence check has answered: what runs
    once [await sessionRepository.existsById(...)] resumes. *)
Definition ensureSession_resume (title : option string) (exists_ : bool) : M unit :=
  if negb exists_ then
    let sessionTitle :=
      match title with
      | Some t => if String.eqb t EmptyString then agentName else t
      | None => agentName
      end in
    lastMessageAt <- new_Date ;;
    createChatSession
      (ChatHubSession.mk sessionId ownerId sessionTitle lastMessageAt []
         "n8n" None None workflowId None agentName)
  else ret tt.

Definition ops_ensureSession (title : option string) : M unit :=
  exists_ <- existsById sessionId ownerId ;;
  ensureSession_resume title exists_.

Definition makeChatHubOperations : IChatHubMemoryService :=
  {| getOwnerId := ownerId;
     getMemory := ops_getMemory;
     addHumanMessage := ops_addHumanMessage;
     addAIMessage := ops_addAIMessage;
     addToolMessage := ops_addToolMessage;
     clearMemory := ops_clearMemory;
     ensureSession := ops_ensureSession |}.

End Operations.

(** [getChatHubProxy]: the two checks, then the facade.  [!ownerId]
    holds for a missing owner id and for the empty string. *)
Definition getChatHubProxy (workflow : Workflow.t) (node : INode.t)
           (sessionId memoryNodeId : string) (turnId : option string)
           (ownerId : option string) : M IChatHubMemoryService :=
  validateRequest node ;;;
  match ownerId with
  | None =>
      throw (JsError "Owner ID is required for Chat Hub Memory. For manual executions, ensure the user context is available.")
  | Some owner =>
      if String.eqb owner EmptyString then
        throw (JsError "Owner ID is required for Chat Hub Memory. For manual executions, ensure the user context is available.")
      else
        let workflowId := Workflow.id workflow in
        let agentName := extractAgentName workflow in
        ret (makeChatHubOperations sessionId memoryNodeId turnId owner workflowId agentName)
  end.

(** The facade over any memory repository.  The service is handed its
    repositories by its constructor; here [createMemoryEntry] is any
    operation, one that rejects included, and the writers are the text
    of [makeChatHubOperations] again. *)
Module Injected.

Section Operations.

Variable createMemoryEntry : NewMemoryEntry -> M unit.

Variables (sessionId memoryNodeId : string) (executionTurnId : option string)
          (ownerId : string) (workflowId : option string) (agentName : string).

Definition ops_addHumanMessage (content : string) : M unit :=
  id <- uuid ;;
  createMemoryEntry
    {| new_id := id; new_sessionId := sessionId; new_memoryNodeId := memoryNodeId;
       new_turnId := executionTurnId; new_role := "human"; new_content := content;
       new_name := Some "User" |}.

Definition ops_addAIMessage (content : string) : M unit :=
  id <- uuid ;;
  createMemoryEntry
    {| new_id := id; new_sessionId := sessionId; new_memoryNodeId := memoryNodeId;
       new_turnId := executionTurnId; new_role := "ai"; new_content := content;
       new_name := Some "AI" |}.

Definition ops_addToolMessage (toolCallId toolName : string)
           (toolInput toolOutput : jsval) : M unit :=
  id <- uuid ;;
  let content :=
    JSON.stringify
      (js_object [("toolCallId", Some (JStr toolCallId));
                  ("toolName", Some (JStr toolName));
                  ("toolInput", toolInput);
                  ("toolOutput", toolOutput)]) in
  createMemoryEntry
    {| new_id := id; new_sessionId := sessionId; new_memoryNodeId := memoryNodeId;
       new_turnId := executionTurnId; new_role := "tool"; new_content := content;
       new_name := Some toolName |}.

Definition makeChatHubOperations : IChatHubMemoryService :=
  {| getOwnerId := ownerId;
     getMemory := ops_getMemory sessionId memoryNodeId;
     addHumanMessage := ops_addHumanMessage;
     addAIMessage := ops_addAIMessage;
     addToolMessage := ops_addToolMessage;
     clearMemory := ops_clearMemory sessionId memoryNodeId;
     ensureSession := ops_ensureSession sessionId ownerId workflowId agentName |}.

End Operations.

End Injected.

(* ================================================================= *)
(** ** The host helper *)





(* ================================================================= *)
(** ** LangChain messages *)

(** [content] of a message: a string, or an array of content blocks. *)
Inductive MessageContent : Type :=
| Text (s : string)
| Complex (blocks : list json).

(** The messages a caller hands to the adapter, by class, with the
    fields the adapter reads. *)
Inductive BaseMessage : Type :=
| HumanMessage (content : MessageContent) (name : option string)
| AIMessage (content : MessageContent) (name : option string)
            (tool_calls : option (list json))
| SystemMessage (content : MessageContent)
| ToolMessage (content : MessageContent) (tool_call_id : string)
              (name : option string)
| ChatMessage (content : MessageContent) (role : string)
| FunctionMessage (content : MessageContent) (name : string)
| RemoveMessage (id : string).

(** [message._getType()], which [message.type] returns as well. *)
Definition _getType (m : BaseMessage) : string :=
  match m with
  | HumanMessage _ _ => "human"
  | AIMessage _ _ _ => "ai"
  | SystemMessage _ => "system"
  | ToolMessage _ _ _ => "tool"
  | ChatMessage _ _ => "generic"
  | FunctionMessage _ _ => "function"
  | RemoveMessage _ => "remove"
  end.

Definition message_content (m : BaseMessage) : MessageContent :=
  match m with
  | HumanMessage c _ | AIMessage c _ _ | SystemMessage c | ToolMessage c _ _
  | ChatMessage c _ | FunctionMessage c _ => c
  | RemoveMessage _ => Text EmptyString
  end.

(** [typeof message.content === 'string' ? message.content
     : JSON.stringify(message.content)] *)
Definition content_string (m : BaseMessage) : string :=
  match message_content m with
  | Text s => s
  | Complex blocks => JSON.stringify (JArr blocks)
  end.

(** The content of a message as a value to serialise. *)
Definition content_value (c : MessageContent) : json :=
  match c with
  | Text s => JStr s
  | Complex blocks => JArr blocks
  end.

(** [message instanceof HumanMessage] and its like. *)
Definition instanceof_HumanMessage (m : BaseMessage) : bool :=
  match m with HumanMessage _ _ => true | _ => false end.

Definition instanceof_AIMessage (m : BaseMessage) : bool :=
  match m with AIMessage _ _ _ => true | _ => false end.

Definition instanceof_ToolMessage (m : BaseMessage) : bool :=
  match m with ToolMessage _ _ _ => true | _ => false end.

(** What the read direction builds: the constructor called and the
    fields it is given.  The parsed content is cast, not checked, so a
    field holds whatever the stored text held; [None] is [undefined]. *)
Inductive Constructed : Type :=
| new_HumanMessage (content : option string) (name : option string)
| new_AIMessage (content : option string) (name : option string) (tool_calls : json)
| new_SystemMessage (content : string)
| new_ToolMessage (content : option string) (tool_call_id : jsval) (name : jsval).

(** [l.map(f)] for an [f] that may throw. *)
Fixpoint traverse {A B : Type} (f : A -> Result B) (l : list A) : Result (list B) :=
  match l with
  | [] => Ok []
  | x :: r =>
      match f x with
      | Threw e => Threw e
      | Ok y =>
          match traverse f r with
          | Threw e => Threw e
          | Ok ys => Ok (y :: ys)
          end
      end
  end.

(* ================================================================= *)
(** ** ChatHubMessageHistory.ts *)

Module ChatHubMessageHistory.

(** Parse human message content stored as JSON: { content: "..." } *)
Definition parseHumanMessageContent (content : string) : option string :=
  match JSON.parse content with
  | None => Some content
  | Some parsed =>
      match js_get parsed "content" with
      | Threw _ => Some content
      | Ok (Some (JStr c)) => Some c
      | Ok other => JSON.stringify_js other
      end
  end.

(** Parse AI message content stored as JSON:
    { content: "...", toolCalls: [...] } *)
Definition parseAIMessageContent (content : string) : option string * json :=
  match JSON.parse content with
  | None => (Some content, JArr [])
  | Some parsed =>
      match js_get parsed "content", js_get parsed "toolCalls" with
      | Ok c, Ok t =>
          (match c with
           | Some (JStr c') => Some c'
           | other => JSON.stringify_js other
           end,
           match t with
           | None | Some JNull => JArr []
           | Some toolCalls => toolCalls
           end)
      | _, _ => (Some content, JArr [])
      end
  end.

(** Parse tool message content stored as JSON. *)
Definition parseToolMessageContent (content : string) : json :=
  match JSON.parse content with
  | Some parsed => parsed
  | None =>
      JObj [("toolCallId", JStr "unknown"); ("toolName", JStr "unknown");
            ("toolInput", JObj []); ("toolOutput", JStr content)]
  end.

(** The [switch] on [entry.role].  For a tool entry the properties of
    the parsed content are read here, outside the [try] of
    [parseToolMessageContent]. *)
Definition convertToLangChainMessage (entry : ChatHubMemoryEntry.t)
  : Result Constructed :=
  let role := ChatHubMemoryEntry.role entry in
  let content := ChatHubMemoryEntry.content entry in
  if String.eqb role "human" then
    let humanData := parseHumanMessageContent content in
    Ok (new_HumanMessage humanData (ChatHubMemoryEntry.name entry))
  else if String.eqb role "ai" then
    let aiData := parseAIMessageContent content in
    Ok (new_AIMessage (fst aiData) (ChatHubMemoryEntry.name entry) (snd aiData))
  else if String.eqb role "system" then
    Ok (new_SystemMessage content)
  else if String.eqb role "tool" then
    let toolData := parseToolMessageContent content in
    match js_get toolData "toolOutput" with
    | Threw e => Threw e
    | Ok toolOutput =>
        match js_get toolData "toolCallId" with
        | Threw e => Threw e
        | Ok toolCallId =>
            match js_get toolData "toolName" with
            | Threw e => Threw e
            | Ok toolName =>
                Ok (new_ToolMessage (JSON.stringify_js toolOutput) toolCallId toolName)
            end
        end
    end
  else
    Ok (new_SystemMessage content).

Section Adapter.

Variable memoryService : IChatHubMemoryService.

(** [entries.map(...)]: the first entry whose conversion throws makes
    the whole call reject. *)
Definition getMessages : M (list Constructed) :=
  entries <- getMemory memoryService ;;
  lift (traverse convertToLangChainMessage entries).

(** The [if] chain on [message._getType()]; it has no final [else]. *)
Definition addMessage (message : BaseMessage) : M unit :=
  let messageType := _getType message in
  let content := content_string message in
  if String.eqb messageType "human" then
    addHumanMessage memoryService
      (JSON.stringify (js_object [("content", Some (JStr content))]))
  else if String.eqb messageType "ai" then
    let toolCalls :=
      match message with
      | AIMessage _ _ (Some tool_calls) => tool_calls
      | _ => []
      end in
    addAIMessage memoryService
      (JSON.stringify (js_object [("content", Some (JStr content));
                                  ("toolCalls", Some (JArr toolCalls))]))
  else if String.eqb messageType "tool" then
    match message with
    | ToolMessage c tool_call_id name =>
        addToolMessage memoryService tool_call_id
          (match name with Some n => n | None => "unknown" end)
          (Some (JObj [])) (Some (content_value c))
    | _ => ret tt
    end
  else ret tt.

Fixpoint addMessages (messages : list BaseMessage) : M unit :=
  match messages with
  | [] => ret tt
  | message :: rest => addMessage message ;;; addMessages rest
  end.

Definition addUserMessage (message : string) : M unit :=
  addMessage (HumanMessage (Text message) None).

Definition addAIMessage (message : string) : M unit :=
  addMessage (AIMessage (Text message) None (Some [])).

Definition clear : M unit := clearMemory memoryService.

End Adapter.

End ChatHubMessageHistory.

(** The write direction of the adapter as the text that follows the
    service in [chat-hub-proxy.service.ts] has it: the memory service
    takes the message text and the tool calls as they are. *)
Module ChatHubMessageHistoryB.

Record IChatHubMemoryService : Type := {
  addHumanMessage : string -> M unit;
  addAIMessage : string -> list json -> M unit;
  addToolMessage : string -> string -> jsval -> jsval -> M unit
}.

Section Adapter.

Variable memoryService : IChatHubMemoryService.

(** The [if] chain on [message.type] and the class of the message; it
    has no final [else]. *)
Definition addMessage (message : BaseMessage) : M unit :=
  let content := content_string message in
  if String.eqb (_getType message) "human" && instanceof_HumanMessage message then
    addHumanMessage memoryService content
  else if String.eqb (_getType message) "ai" && instanceof_AIMessage message then
    let toolCalls :=
      match message with
      | AIMessage _ _ (Some tool_calls) => tool_calls
      | _ => []
      end in
    addAIMessage memoryService content toolCalls
  else if String.eqb (_getType message) "tool" && instanceof_ToolMessage message then
    match message with
    | ToolMessage c tool_call_id name =>
        addToolMessage memoryService tool_call_id
          (match name with Some n => n | None => "unknown" end)
          (Some (JObj [])) (Some (content_value c))
    | _ => ret tt
    end
  else ret tt.

End Adapter.

End ChatHubMessageHistoryB.

(* ================================================================= *)
(** ** Vocabulary of the properties *)

(** The messages a session holds, as [getManyBySessionId] lists them. *)
Definition session_messages (sessionId : string) (w : World) : list ChatHubMessage.t :=
  filter (fun m => String.eqb (ChatHubMessage.sessionId m) sessionId) (messages w).

(** Ordered by creation time. *)
Definition createdAt_le (a b : ChatHubMemory.t) : Prop :=
  (ChatHubMemory.createdAt a <= ChatHubMemory.createdAt b)%Z.

(** The chat trigger node [extractAgentName] looks at, and the
    [agentName] parameter it carries. *)
Definition chatTriggerNode (workflow : Workflow.t) : option INode.t :=
  find (fun n => String.eqb (INode.type n) "@n8n/n8n-nodes-langchain.chatTrigger")
       (map snd (Workflow.nodes workflow)).

Definition chatTrigger_agentName (workflow : Workflow.t) : jsval :=
  match chatTriggerNode workflow with
  | Some n => assoc "agentName" (INode.parameters n)
  | None => None
  end.

(** The session record [ensureSession] hands to [createChatSession]. *)
Definition session_record (sessionId ownerId : string) (workflowId : option string)
           (agentName : string) (title : option string) (w : World) : ChatHubSession.t :=
  ChatHubSession.mk sessionId ownerId
    (match title with
     | Some t => if String.eqb t EmptyString then agentName else t
     | None => agentName
     end)
    (now w) [] "n8n" None None workflowId None agentName.

(** Two executions bootstrap a session: the first makes its existence
    check, the second runs [ensureSession] to its end, then the first
    resumes with the answer its check gave. *)
Definition ensureSession_race (first second : string * string * option string * string)
           (title1 title2 : option string) (w : World) : Result unit * World :=
  let '(sid1, owner1, wf1, agent1) := first in
  let '(sid2, owner2, wf2, agent2) := second in
  match existsById sid1 owner1 w with
  | (Threw e, w1) => (Threw e, w1)
  | (Ok exists_, w1) =>
      let w2 := snd (ops_ensureSession sid2 owner2 wf2 agent2 title2 w1) in
      ensureSession_resume sid1 owner1 wf1 agent1 title1 exists_ w2
  end.

(** A world with nothing stored. *)
Definition empty_world : World :=
  {| messages := []; memory := []; sessions := []; now := 1700000000000%Z;
     uuids := 0; calls := [] |}.

(** *** Message trees *)

(** The stored message with a given id. *)
Definition find_message (id : string) (msgs : list ChatHubMessage.t)
  : option ChatHubMessage.t :=
  find (fun m => String.eqb (ChatHubMessage.id m) id) msgs.

(** The number of parent links from a message up to the root. *)
Fixpoint depth_of (fuel : nat) (msgs : list ChatHubMessage.t) (m : ChatHubMessage.t)
         {struct fuel} : option nat :=
  match ChatHubMessage.parentMessageId m with
  | None => Some 0
  | Some p =>
      match fuel with
      | O => None
      | S fuel' =>
          match find_message p msgs with
          | None => None
          | Some parent => option_map S (depth_of fuel' msgs parent)
          end
      end
  end.

(** The stored messages form a tree: ids are unique, one message is the
    root, and the parent links of every message lead up to it. *)
Definition forms_tree (msgs : list ChatHubMessage.t) : Prop :=
  NoDup (map ChatHubMessage.id msgs)
  /\ (exists root, filter is_root msgs = [root])
  /\ forall m, In m msgs -> depth_of (List.length msgs) msgs m <> None.

(** [descendant msgs d a]: parent links lead from [d] up to [a]. *)
Inductive descendant (msgs : list ChatHubMessage.t)
  : ChatHubMessage.t -> ChatHubMessage.t -> Prop :=
| descendant_child d a :
    ChatHubMessage.parentMessageId d = Some (ChatHubMessage.id a) ->
    descendant msgs d a
| descendant_below d x a :
    In x msgs ->
    ChatHubMessage.parentMessageId d = Some (ChatHubMessage.id x) ->
    descendant msgs x a ->
    descendant msgs d a.

(** A path that takes, at each node, the child that no other child of
    that node supersedes (none was created later, and none created at
    the same time has a greater id), and ends at a node without
    children. *)
Inductive active_chain (msgs : list ChatHubMessage.t)
  : list ChatHubMessage.t -> Prop :=
| active_leaf m :
    (forall x, In x msgs ->
               ChatHubMessage.parentMessageId x <> Some (ChatHubMessage.id m)) ->
    active_chain msgs [m]
| active_step m c rest :
    In c msgs ->
    ChatHubMessage.parentMessageId c = Some (ChatHubMessage.id m) ->
    (forall y, In y msgs ->
               ChatHubMessage.parentMessageId y = Some (ChatHubMessage.id m) ->
               (ChatHubMessage.createdAt y <= ChatHubMessage.createdAt c)%Z
               /\ (ChatHubMessage.createdAt y = ChatHubMessage.createdAt c ->
                   id_lt (ChatHubMessage.id c) (ChatHubMessage.id y) = false)) ->
    active_chain msgs (c :: rest) ->
    active_chain msgs (m :: c :: rest).

(** *** A session with a retried answer

    [m_root] has two answers, [m_a] and the later retry [m_b]; below
    the superseded [m_a] hang [m_c1] and the later [m_c2]. *)
Definition msg (id : string) (parent : option string) (role : string)
           (createdAt : Z) (turnId : option string) : ChatHubMessage.t :=
  ChatHubMessage.mk id "s1" parent role createdAt turnId.

Definition m_root : ChatHubMessage.t := msg "r" None "human" 0 None.
Definition m_a : ChatHubMessage.t := msg "a" (Some "r") "ai" 1 (Some "T1").
Definition m_b : ChatHubMessage.t := msg "b" (Some "r") "ai" 2 (Some "T2").
Definition m_c1 : ChatHubMessage.t := msg "c1" (Some "a") "human" 3 None.
Definition m_c2 : ChatHubMessage.t := msg "c2" (Some "a") "human" 4 None.

Definition retried_session : list ChatHubMessage.t :=
  [m_root; m_a; m_c1; m_c2; m_b].

(** *** JSON texts and the values they denote *)

(** What may follow a value inside a text: the end, a comma, or a
    closing bracket or brace. *)
Definition delimited (rest : string) : bool :=
  match rest with
  | EmptyString => true
  | String c _ => ((c =? ",") || (c =? "]") || (c =? "}"))%char
  end.

(** The unit [JSON.string_units] reads back for a character that
    [JSON.escape_char] wrote. *)
Definition unit_of (c : ascii) : ascii + N :=
  let n := N_of_ascii c in
  if ((n <? 32) && negb ((n =? 8) || (n =? 9) || (n =? 10) || (n =? 12) || (n =? 13)))%N
  then inr n else inl c.

Fixpoint units_of (s : string) : list (ascii + N) :=
  match s with
  | EmptyString => []
  | String c r => unit_of c :: units_of r
  end.

(** The elements of an array and the members of an object as
    [JSON.stringify] writes them. *)
Fixpoint elements (l : list json) : string :=
  match l with
  | [] => EmptyString
  | [x] => JSON.stringify x
  | x :: r => (JSON.stringify x ++ "," ++ elements r)%string
  end.

Fixpoint pairs (l : list (string * json)) : string :=
  match l with
  | [] => EmptyString
  | [(k, x)] => (JSON.quote k ++ ":" ++ JSON.stringify x)%string
  | (k, x) :: r => (JSON.quote k ++ ":" ++ JSON.stringify x ++ "," ++ pairs r)%string
  end.

(** Fuel that parsing a value back takes. *)
Fixpoint json_size (v : json) : nat :=
  match v with
  | JArr items =>
      S ((fix go (l : list json) : nat :=
            match l with
            | [] => 0
            | x :: r => S (json_size x + go r)
            end) items)
  | JObj members =>
      S ((fix go (l : list (string * json)) : nat :=
            match l with
            | [] => 0
            | (_, x) :: r => S (json_size x + go r)
            end) members)
  | _ => 1
  end.

(** The values JavaScript can hold: the members of an object are in
    its enumeration order, and a number carried as text is the text of
    a number with a fraction or an exponent. *)
Fixpoint json_wf (v : json) : Prop :=
  match v with
  | JReal l => JSON.parse_number l = Some (JReal l, EmptyString)
  | JArr items =>
      (fix all (l : list json) : Prop :=
         match l with
         | [] => True
         | x :: r => json_wf x /\ all r
         end) items
  | JObj members =>
      JSON.obj_of_members members = members
      /\ (fix all (l : list (string * json)) : Prop :=
            match l with
            | [] => True
            | (_, x) :: r => json_wf x /\ all r
            end) members
  | _ => True
  end.

(** Induction over a value and the values nested in it. *)
Section json_induction.
Variable P : json -> Prop.
Hypothesis Hnull : P JNull.
Hypothesis Hbool : forall b, P (JBool b).
Hypothesis Hnum : forall z, P (JNum z).
Hypothesis Hreal : forall l, P (JReal l).
Hypothesis Hstr : forall s, P (JStr s).
Hypothesis Harr : forall items, Forall P items -> P (JArr items).
Hypothesis Hobj : forall members, Forall (fun kv => P (snd kv)) members -> P (JObj members).

Fixpoint json_induction (v : json) : P v :=
  match v with
  | JNull => Hnull
  | JBool b => Hbool b
  | JNum z => Hnum z
  | JReal l => Hreal l
  | JStr s => Hstr s
  | JArr items =>
      Harr items
        ((fix go (l : list json) : Forall P l :=
            match l with
            | [] => Forall_nil P
            | x :: r => Forall_cons x (json_induction x) (go r)
            end) items)
  | JObj members =>
      Hobj members
        ((fix go (l : list (string * json)) : Forall (fun kv => P (snd kv)) l :=
            match l with
            | [] => Forall_nil _
            | kv :: r => Forall_cons kv (json_induction (snd kv)) (go r)
            end) members)
  end.
End json_induction.

Fixpoint size_items (l : list json) : nat :=
  match l with
  | [] => 0
  | x :: r => S (json_size x + size_items r)
  end.

Fixpoint size_members (l : list (string * json)) : nat :=
  match l with
  | [] => 0
  | (_, x) :: r => S (json_size x + size_members r)
  end.

(** A value that parses back from its text, whatever delimiter follows. *)
Definition parses_back (v : json) : Prop :=
  json_wf v ->
  forall fuel rest,
    json_size v <= fuel -> delimited rest = true ->
    JSON.parse_value fuel (JSON.stringify v ++ rest) = Some (v, rest).

Definition size_bounded (v : json) : Prop :=
  json_wf v -> json_size v <= 2 * String.length (JSON.stringify v).

(** *** Example worlds *)

Definition allowed_node : INode.t :=
  INode.mk "@n8n/n8n-nodes-langchain.memoryChatHub" [].

Definition agent_node : INode.t :=
  INode.mk "@n8n/n8n-nodes-langchain.agent" [].

Definition support_workflow : Workflow.t :=
  Workflow.mk (Some "wf1") (Some "Support desk")
    [("When chat message received",
      INode.mk "@n8n/n8n-nodes-langchain.chatTrigger" [("agentName", JStr "Helper")]);
     ("Memory", allowed_node)].

Definition e_t1 : ChatHubMemory.t :=
  ChatHubMemory.mk "e1" "s1" "n1" (Some "T1") "ai"
    (jtext "{'content':'hello','toolCalls':[]}") (Some "AI") 10.

Definition e_t2 : ChatHubMemory.t :=
  ChatHubMemory.mk "e2" "s1" "n1" (Some "T2") "ai"
    (jtext "{'content':'hey','toolCalls':[]}") (Some "AI") 20.

Definition e_other_node : ChatHubMemory.t :=
  ChatHubMemory.mk "e3" "s1" "n2" (Some "T2") "human"
    (jtext "{'content':'hi'}") (Some "User") 21.

Definition e_manual : ChatHubMemory.t :=
  ChatHubMemory.mk "e4" "s1" "n1" None "human"
    (jtext "{'content':'test'}") (Some "User") 22.

Definition e_tool_null : ChatHubMemory.t :=
  ChatHubMemory.mk "e5" "s1" "n1" (Some "T2") "tool" "null" (Some "search") 23.

(** The session of [retried_session] with what two memory nodes and a
    manual run have stored. *)
Definition chat_world : World :=
  {| messages := retried_session;
     memory := [e_t1; e_t2; e_other_node; e_manual];
     sessions := []; now := 1700000000000%Z; uuids := 4; calls := [] |}.

(** A fresh conversation: one human message, no answer yet. *)
Definition fresh_world : World :=
  {| messages := [m_root]; memory := [e_manual];
     sessions := []; now := 1700000000000%Z; uuids := 1; calls := [] |}.

(** [chat_world] with a tool entry whose content is the text [null]. *)
Definition null_tool_world : World :=
  {| messages := retried_session;
     memory := [e_t1; e_t2; e_other_node; e_manual; e_tool_null];
     sessions := []; now := 1700000000000%Z; uuids := 5; calls := [] |}.

Definition weather_call : json :=
  JObj [("name", JStr "get_weather");
        ("args", JObj [("city", JStr "Paris"); ("days", JNum 3);
                       ("ratio", JReal "0.5")]);
        ("id", JStr "call_1");
        ("type", JStr "tool_call")].

(** A result of the parser does not depend on the fuel beyond twice the
    characters it took. *)
Definition value_fuel_free (f : nat) : Prop :=
  forall s v rest,
    JSON.parse_value f s = Some (v, rest) ->
    String.length rest < String.length s
    /\ forall f', 2 * (String.length s - String.length rest) <= f' ->
                  JSON.parse_value f' s = Some (v, rest).

Definition elements_fuel_free (f : nat) : Prop :=
  forall s vs rest,
    JSON.parse_elements f s = Some (vs, rest) ->
    String.length rest < String.length s
    /\ forall f', 2 * (String.length s - String.length rest) + 1 <= f' ->
                  JSON.parse_elements f' s = Some (vs, rest).

Definition members_fuel_free (f : nat) : Prop :=
  forall s kvs rest,
    JSON.parse_members f s = Some (kvs, rest) ->
    String.length rest < String.length s
    /\ forall f', 2 * (String.length s - String.length rest) + 1 <= f' ->
                  JSON.parse_members f' s = Some (kvs, rest).

(** *** What the adapter stores and reads *)

(** A tool entry whose content is the JSON text [null]. *)
Definition null_tool_entry (entry : ChatHubMemoryEntry.t) : bool :=
  String.eqb (ChatHubMemoryEntry.role entry) "tool"
  && match JSON.parse (ChatHubMemoryEntry.content entry) with
     | Some JNull => true
     | _ => false
     end.

(** The messages [addMessage] hands to the memory service. *)
Definition storable (m : BaseMessage) : bool :=
  String.eqb (_getType m) "human" || String.eqb (_getType m) "ai"
  || String.eqb (_getType m) "tool".

(** The name a tool message is stored under: [toolMsg.name ?? 'unknown']. *)
Definition stored_tool_name (name : option string) : string :=
  match name with
  | Some n => n
  | None => "unknown"
  end.

(** The content [addToolMessage] stores. *)
Definition stored_tool_content (toolCallId toolName : string)
           (toolInput toolOutput : jsval) : string :=
  JSON.stringify
    (js_object [("toolCallId", Some (JStr toolCallId));
                ("toolName", Some (JStr toolName));
                ("toolInput", toolInput);
                ("toolOutput", toolOutput)]).

(** A JavaScript value that is [undefined] or a value JSON can hold. *)
Definition jsval_wf (v : jsval) : Prop :=
  match v with
  | Some j => json_wf j
  | None => True
  end.

(** The role, the content and the name under which [addMessage] and
    the writer of the service it calls store a message; [None] for a
    message that [addMessage] drops. *)
Definition stored_fields (m : BaseMessage) : option (string * string * option string) :=
  match m with
  | HumanMessage _ _ =>
      Some ("human",
            JSON.stringify (JObj [("content", JStr (content_string m))]),
            Some "User")
  | AIMessage _ _ tool_calls =>
      Some ("ai",
            JSON.stringify
              (JObj [("content", JStr (content_string m));
                     ("toolCalls", JArr match tool_calls with
                                        | Some l => l
                                        | None => []
                                        end)]),
            Some "AI")
  | ToolMessage c tool_call_id name =>
      Some ("tool",
            stored_tool_content tool_call_id (stored_tool_name name)
              (Some (JObj [])) (Some (content_value c)),
            Some (stored_tool_name name))
  | _ => None
  end.

(** One repository write for each message that is stored, in order,
    each with a fresh id. *)
Fixpoint write_each (create : NewMemoryEntry -> M unit)
         (sessionId memoryNodeId : string) (turnId : option string)
         (msgs : list BaseMessage) : M unit :=
  match msgs with
  | [] => ret tt
  | m :: rest =>
      match stored_fields m with
      | Some (role, content, name) =>
          (id <- uuid ;;
           create {| new_id := id; new_sessionId := sessionId;
                     new_memoryNodeId := memoryNodeId; new_turnId := turnId;
                     new_role := role; new_content := content; new_name := name |}) ;;;
          write_each create sessionId memoryNodeId turnId rest
      | None => write_each create sessionId memoryNodeId turnId rest
      end
  end.

(** An entry of the given session and memory node. *)
Definition of_node (sessionId memoryNodeId : string) (e : ChatHubMemory.t) : bool :=
  String.eqb (ChatHubMemory.sessionId e) sessionId
  && String.eqb (ChatHubMemory.memoryNodeId e) memoryNodeId.

(** *** Further examples *)



(** A session whose messages do not form a tree: two messages without
    a parent. *)
Definition two_roots_world : World :=
  {| messages := [m_root; msg "r2" None "human" 5 None; m_b];
     memory := [e_t1; e_t2];
     sessions := []; now := 1700000000000%Z; uuids := 2; calls := [] |}.


(** A workflow with two chat triggers; only the second names an agent. *)
Definition two_trigger_workflow : Workflow.t :=
  Workflow.mk (Some "wf2") (Some "Front desk")
    [("Memory", allowed_node);
     ("Chat A", INode.mk "@n8n/n8n-nodes-langchain.chatTrigger" [("public", JBool true)]);
     ("Chat B", INode.mk "@n8n/n8n-nodes-langchain.chatTrigger"
                  [("agentName", JStr "Second")])].

(** A facade of session s1 and node n1 whose store rejects the write of
    an AI message. *)
Definition rejecting_service : IChatHubMemoryService :=
  let f := makeChatHubOperations "s1" "n1" (Some "T2") "u1" None "Helper" in
  {| getOwnerId := getOwnerId f;
     getMemory := getMemory f;
     addHumanMessage := addHumanMessage f;
     addAIMessage := fun _ => throw (QueryFailedError "connection terminated");
     addToolMessage := addToolMessage f;
     clearMemory := clearMemory f;
     ensureSession := ensureSession f |}.

(** Entries that were not written by the adapter: plain text, and plain
    text that happens to be JSON. *)
Definition e_plain : ChatHubMemoryEntry.t :=
  ChatHubMemoryEntry.mk "e6" "human" "hello there" (Some "User") 30.

Definition e_number : ChatHubMemoryEntry.t :=
  ChatHubMemoryEntry.mk "e7" "human" "42" (Some "User") 31.

(* ================================================================= *)
(** * Properties *)

(** ** The store monad *)

Lemma log_calls_app (a b : list StoreCall) (w : World) :
  log_calls b (log_calls a w) = log_calls (a ++ b) w.
Proof.
  unfold log_calls; simpl. now rewrite app_assoc.
Qed.

Lemma record_call_eq (c : StoreCall) (w : World) :
  record_call c w = (Ok tt, log_calls [c] w).
Proof. reflexivity. Qed.

Lemma bind_ok {A B : Type} (m : M A) (k : A -> M B) (w w' : World) (a : A) :
  m w = (Ok a, w') -> bind m k w = k a w'.
Proof. intros H. unfold bind. now rewrite H. Qed.

Lemma bind_threw {A B : Type} (m : M A) (k : A -> M B) (w w' : World) (e : Error) :
  m w = (Threw e, w') -> bind m k w = (Threw e, w').
Proof. intros H. unfold bind. now rewrite H. Qed.

Arguments buildMessageHistory : simpl never.
Arguments extractTurnIds : simpl never.
Arguments JSON.parse : simpl never.
Arguments JSON.stringify : simpl never.

Ltac run :=
  repeat (unfold bind, ret, throw, lift, record_call, uuid, new_Date; simpl).

(** ** Access control *)

(** C6.  A request from a node outside the allowed set, or without an
    owner id, is rejected with an error and the world, the trace of
    repository calls included, is left as it was; a request that passes
    both checks gets the facade. *)
Theorem getChatHubProxy_access_control
        (workflow : Workflow.t) (node : INode.t) (sessionId memoryNodeId : string)
        (turnId ownerId : option string) (w : World) :
  (isAllowedNode (INode.type node) = false ->
   getChatHubProxy workflow node sessionId memoryNodeId turnId ownerId w
   = (Threw (JsError "This proxy is only available for Chat Hub Memory nodes"), w))
  /\ (isAllowedNode (INode.type node) = true ->
      ownerId = None \/ ownerId = Some EmptyString ->
      getChatHubProxy workflow node sessionId memoryNodeId turnId ownerId w
      = (Threw (JsError "Owner ID is required for Chat Hub Memory. For manual executions, ensure the user context is available."), w))
  /\ (forall owner,
      isAllowedNode (INode.type node) = true ->
      ownerId = Some owner -> owner <> EmptyString ->
      getChatHubProxy workflow node sessionId memoryNodeId turnId ownerId w
      = (Ok (makeChatHubOperations sessionId memoryNodeId turnId owner
               (Workflow.id workflow) (extractAgentName workflow)), w)).
Proof.
  unfold getChatHubProxy, validateRequest.
  repeat split.
  - intros Hn. rewrite Hn. reflexivity.
  - intros Hn [-> | ->]; rewrite Hn; reflexivity.
  - intros owner Hn -> Hne. rewrite Hn. run.
    destruct (String.eqb_spec owner EmptyString); [contradiction | reflexivity].
Qed.

(** ** Reading memory *)

Lemma existsb_eqb_In (t : string) (l : list string) :
  existsb (String.eqb t) l = true <-> In t l.
Proof.
  rewrite existsb_exists. split.
  - intros [x [Hin Heq]]. apply String.eqb_eq in Heq. now subst.
  - intros Hin. exists t. split; [assumption | apply String.eqb_refl].
Qed.

Lemma entry_matches_spec (sid nid : string) (tids : list string) (e : ChatHubMemory.t) :
  entry_matches sid nid tids e = true <->
  ChatHubMemory.sessionId e = sid /\ ChatHubMemory.memoryNodeId e = nid /\
  exists t, ChatHubMemory.turnId e = Some t /\ In t tids.
Proof.
  unfold entry_matches. rewrite !andb_true_iff, !String.eqb_eq.
  destruct (ChatHubMemory.turnId e) as [t|].
  - rewrite existsb_eqb_In. split.
    + intros [[H1 H2] H3]. repeat split; try assumption. now exists t.
    + intros [H1 [H2 [t' [Ht Hin]]]]. injection Ht as <-. now repeat split.
  - split.
    + intros [_ H]. discriminate.
    + intros [_ [_ [t [Ht _]]]]. discriminate.
Qed.

Lemma insert_by_createdAt_perm (e : ChatHubMemory.t) (l : list ChatHubMemory.t) :
  Permutation (e :: l) (insert_by_createdAt e l).
Proof.
  induction l as [|x r IH]; simpl.
  - apply Permutation_refl.
  - destruct (ChatHubMemory.createdAt x <? ChatHubMemory.createdAt e)%Z.
    + eapply perm_trans; [apply perm_swap | now apply perm_skip].
    + apply Permutation_refl.
Qed.

Lemma order_by_createdAt_perm (l : list ChatHubMemory.t) :
  Permutation l (order_by_createdAt l).
Proof.
  induction l as [|x r IH]; simpl.
  - apply perm_nil.
  - eapply perm_trans; [apply perm_skip, IH | apply insert_by_createdAt_perm].
Qed.

Lemma insert_by_createdAt_sorted (e : ChatHubMemory.t) (l : list ChatHubMemory.t) :
  StronglySorted createdAt_le l -> StronglySorted createdAt_le (insert_by_createdAt e l).
Proof.
  induction 1 as [|x r Hs IH Hall]; simpl.
  - constructor; constructor.
  - destruct (ChatHubMemory.createdAt x <? ChatHubMemory.createdAt e)%Z eqn:Hlt.
    + constructor; [assumption |].
      apply Z.ltb_lt in Hlt.
      rewrite Forall_forall in *. intros y Hy.
      apply (Permutation_in _ (Permutation_sym (insert_by_createdAt_perm e r))) in Hy.
      destruct Hy as [<- | Hy]; [unfold createdAt_le; lia | now apply Hall].
    + apply Z.ltb_ge in Hlt.
      constructor; [now constructor |].
      constructor; [exact Hlt |].
      rewrite Forall_forall in *. intros y Hy.
      specialize (Hall y Hy). unfold createdAt_le in *. lia.
Qed.

Lemma order_by_createdAt_sorted (l : list ChatHubMemory.t) :
  StronglySorted createdAt_le (order_by_createdAt l).
Proof.
  induction l as [|x r IH]; simpl.
  - constructor.
  - now apply insert_by_createdAt_sorted.
Qed.

(** What [getMemory] does once the chain is built. *)
Lemma ops_getMemory_chain (sid nid : string) (w : World) (chain : list ChatHubMessage.t) :
  buildMessageHistory (session_messages sid w) = Ok chain ->
  ops_getMemory sid nid w =
  match extractTurnIds chain with
  | [] => (Ok [], log_calls [GetManyBySessionId sid] w)
  | _ :: _ =>
      (Ok (map toEntry
             (order_by_createdAt
                (filter (entry_matches sid nid (extractTurnIds chain)) (memory w)))),
       log_calls [GetManyBySessionId sid; GetMemoryByTurnIds sid nid (extractTurnIds chain)] w)
  end.
Proof.
  intros Hb. unfold ops_getMemory, getManyBySessionId, getMemoryByTurnIds.
  unfold session_messages in Hb. run.
  destruct (filter _ (messages w)) as [|m ms] eqn:Hm; simpl.
  - simpl in Hb. injection Hb as <-. reflexivity.
  - rewrite Hb. simpl.
    destruct (extractTurnIds chain) as [|t ts]; simpl; [reflexivity |].
    unfold log_calls; simpl. now rewrite <- app_assoc.
Qed.

Lemma ops_getMemory_threw (sid nid : string) (w : World) (e : Error) :
  buildMessageHistory (session_messages sid w) = Threw e ->
  ops_getMemory sid nid w = (Threw e, log_calls [GetManyBySessionId sid] w).
Proof.
  intros Hb. unfold ops_getMemory, getManyBySessionId.
  unfold session_messages in Hb. run.
  destruct (filter _ (messages w)) as [|m ms] eqn:Hm; simpl.
  - simpl in Hb. discriminate.
  - rewrite Hb. reflexivity.
Qed.

Lemma filter_entry_matches_nil (sid nid : string) (l : list ChatHubMemory.t) :
  filter (entry_matches sid nid []) l = [].
Proof.
  induction l as [|x r IH]; simpl; [reflexivity |].
  replace (entry_matches sid nid [] x) with false; [exact IH |].
  unfold entry_matches. destruct (ChatHubMemory.turnId x); simpl;
    now rewrite ?andb_false_r.
Qed.

(** In either case [getMemory] resolves to the selected entries, in
    order of creation. *)
Lemma ops_getMemory_selected (sid nid : string) (w : World)
      (chain : list ChatHubMessage.t) :
  buildMessageHistory (session_messages sid w) = Ok chain ->
  exists w',
    ops_getMemory sid nid w
    = (Ok (map toEntry
             (order_by_createdAt
                (filter (entry_matches sid nid (extractTurnIds chain)) (memory w)))), w')
    /\ memory w' = memory w.
Proof.
  intros Hb. rewrite (ops_getMemory_chain _ _ _ _ Hb).
  destruct (extractTurnIds chain) as [|t ts].
  - rewrite filter_entry_matches_nil. simpl. eexists. split; reflexivity.
  - eexists. split; reflexivity.
Qed.

Lemma selected_entries_spec (sid nid : string) (tids : list string)
      (store : list ChatHubMemory.t) (e : ChatHubMemory.t) :
  In e (order_by_createdAt (filter (entry_matches sid nid tids) store)) <->
  In e store
  /\ ChatHubMemory.sessionId e = sid
  /\ ChatHubMemory.memoryNodeId e = nid
  /\ exists t, ChatHubMemory.turnId e = Some t /\ In t tids.
Proof.
  rewrite <- entry_matches_spec, <- filter_In. split.
  - apply Permutation_in, Permutation_sym, order_by_createdAt_perm.
  - apply Permutation_in, order_by_createdAt_perm.
Qed.

Lemma toEntry_projects (es : list ChatHubMemory.t) :
  Forall2 (fun e x => ChatHubMemoryEntry.id x = ChatHubMemory.id e
                      /\ ChatHubMemoryEntry.role x = ChatHubMemory.role e
                      /\ ChatHubMemoryEntry.content x = ChatHubMemory.content e
                      /\ ChatHubMemoryEntry.name x = ChatHubMemory.name e
                      /\ ChatHubMemoryEntry.createdAt x = ChatHubMemory.createdAt e)
          es (map toEntry es).
Proof.
  induction es as [|e r IH]; simpl; constructor; [now repeat split | exact IH].
Qed.

Lemma toEntry_sorted (es : list ChatHubMemory.t) :
  StronglySorted createdAt_le es ->
  StronglySorted (fun x y => (ChatHubMemoryEntry.createdAt x
                              <= ChatHubMemoryEntry.createdAt y)%Z)
                 (map toEntry es).
Proof.
  induction 1 as [|e r Hs IH Hall]; simpl; constructor; [exact IH |].
  apply Forall_map. exact Hall.
Qed.

(** C2, as the code has it.  Where the Message Chain Builder builds the
    active chain of the session, [getMemory] resolves, in this order, to
    the stored entries of this session and this memory node whose turn
    id is among the turn ids of the chain, each of them once, ordered by
    creation time, and each projected to its id, role, content, name
    and creation time; no entry of another memory node is among them.
    The memory repository is asked with exactly the session, the memory
    node and the turn ids of the chain, and not at all where the chain
    has no turn id; the store is left as it was.  Where the builder
    reports a structural violation, [getMemory] rejects with that error
    after the listing of the messages. *)
Theorem getMemory_returns_entries_of_chain_turns
        (sessionId memoryNodeId : string) (turnId : option string) (ownerId : string)
        (workflowId : option string) (agentName : string) (w : World) :
  let f := makeChatHubOperations sessionId memoryNodeId turnId ownerId
             workflowId agentName in
  (forall chain,
      buildMessageHistory (session_messages sessionId w) = Ok chain ->
      exists (es : list ChatHubMemory.t) (r : list ChatHubMemoryEntry.t) (w' : World),
        getMemory f w = (Ok r, w')
        /\ es = order_by_createdAt
                  (filter (entry_matches sessionId memoryNodeId (extractTurnIds chain))
                          (memory w))
        /\ Forall2 (fun e x =>
                      ChatHubMemoryEntry.id x = ChatHubMemory.id e
                      /\ ChatHubMemoryEntry.role x = ChatHubMemory.role e
                      /\ ChatHubMemoryEntry.content x = ChatHubMemory.content e
                      /\ ChatHubMemoryEntry.name x = ChatHubMemory.name e
                      /\ ChatHubMemoryEntry.createdAt x = ChatHubMemory.createdAt e)
                   es r
        /\ Permutation es
             (filter (entry_matches sessionId memoryNodeId (extractTurnIds chain))
                     (memory w))
        /\ (forall e, In e es <->
                      In e (memory w)
                      /\ ChatHubMemory.sessionId e = sessionId
                      /\ ChatHubMemory.memoryNodeId e = memoryNodeId
                      /\ exists t, ChatHubMemory.turnId e = Some t
                                   /\ In t (extractTurnIds chain))
        /\ StronglySorted createdAt_le es
        /\ StronglySorted (fun x y => (ChatHubMemoryEntry.createdAt x
                                       <= ChatHubMemoryEntry.createdAt y)%Z) r
        /\ (forall e, In e es -> ChatHubMemory.memoryNodeId e = memoryNodeId)
        /\ memory w' = memory w /\ messages w' = messages w /\ sessions w' = sessions w
        /\ calls w' = calls w ++
                      GetManyBySessionId sessionId ::
                      match extractTurnIds chain with
                      | [] => []
                      | _ :: _ => [GetMemoryByTurnIds sessionId memoryNodeId
                                     (extractTurnIds chain)]
                      end)
  /\ (forall e,
        buildMessageHistory (session_messages sessionId w) = Threw e ->
        getMemory f w = (Threw e, log_calls [GetManyBySessionId sessionId] w)).
Proof.
  intros f. subst f. simpl. split.
  - intros chain Hb.
    pose proof (selected_entries_spec sessionId memoryNodeId (extractTurnIds chain) (memory w))
      as Hiff.
    exists (order_by_createdAt
              (filter (entry_matches sessionId memoryNodeId (extractTurnIds chain))
                      (memory w))).
    exists (map toEntry
              (order_by_createdAt
                 (filter (entry_matches sessionId memoryNodeId (extractTurnIds chain))
                         (memory w)))).
    exists (snd (ops_getMemory sessionId memoryNodeId w)).
    split.
    { rewrite (ops_getMemory_chain _ _ _ _ Hb).
      destruct (extractTurnIds chain) as [|t ts] eqn:Ht.
      - rewrite filter_entry_matches_nil. reflexivity.
      - reflexivity. }
    split; [reflexivity |].
    split; [apply toEntry_projects |].
    split; [apply Permutation_sym, order_by_createdAt_perm |].
    split; [exact Hiff |].
    split; [apply order_by_createdAt_sorted |].
    split; [apply toEntry_sorted, order_by_createdAt_sorted |].
    split; [intros e He; now apply Hiff in He |].
    rewrite (ops_getMemory_chain _ _ _ _ Hb).
    destruct (extractTurnIds chain) as [|t ts]; simpl; now repeat split.
  - intros e Hb. now apply ops_getMemory_threw.
Qed.

Lemma dedupe_nil_iff (l : list string) : dedupe l = [] <-> l = [].
Proof.
  destruct l; simpl; split; intros H; try reflexivity; discriminate.
Qed.

Lemma extractTurnIds_without_ai (chain : list ChatHubMessage.t) :
  (forall m, In m chain -> ChatHubMessage.role m <> "ai") ->
  extractTurnIds chain = [].
Proof.
  intros H. unfold extractTurnIds. apply dedupe_nil_iff.
  induction chain as [|m r IH]; simpl; [reflexivity |].
  destruct (String.eqb_spec (ChatHubMessage.role m) "ai") as [Heq | _].
  - exfalso. apply (H m); [now left | exact Heq].
  - simpl. apply IH. intros m' Hin. apply H. now right.
Qed.

(** C5.  When the active chain of the session holds no assistant
    message, no turn id is extracted and [getMemory] resolves to the
    empty sequence; the only repository call made is the listing of the
    session's messages, so the memory entry store is never queried. *)
Theorem getMemory_empty_without_assistant_messages
        (sessionId memoryNodeId : string) (turnId : option string) (ownerId : string)
        (workflowId : option string) (agentName : string)
        (w : World) (chain : list ChatHubMessage.t) :
  buildMessageHistory (session_messages sessionId w) = Ok chain ->
  (forall m, In m chain -> ChatHubMessage.role m <> "ai") ->
  extractTurnIds chain = []
  /\ getMemory (makeChatHubOperations sessionId memoryNodeId turnId ownerId
                  workflowId agentName) w
     = (Ok [], log_calls [GetManyBySessionId sessionId] w).
Proof.
  intros Hb Hno.
  pose proof (extractTurnIds_without_ai chain Hno) as Ht.
  split; [exact Ht |].
  simpl. rewrite (ops_getMemory_chain _ _ _ _ Hb), Ht. reflexivity.
Qed.

(** ** Writing memory *)

Lemma ops_addHumanMessage_eq (sid nid : string) (turn : option string)
      (content : string) (w : World) :
  exists id w',
    ops_addHumanMessage sid nid turn content w = (Ok tt, w')
    /\ memory w' = memory w ++
         [ChatHubMemory.mk id sid nid turn "human" content (Some "User") (now w)]
    /\ messages w' = messages w /\ sessions w' = sessions w.
Proof.
  unfold ops_addHumanMessage, createMemoryEntry. run.
  eexists. eexists. split; [reflexivity |]. simpl. repeat split.
Qed.

Lemma ops_addAIMessage_eq (sid nid : string) (turn : option string)
      (content : string) (w : World) :
  exists id w',
    ops_addAIMessage sid nid turn content w = (Ok tt, w')
    /\ memory w' = memory w ++
         [ChatHubMemory.mk id sid nid turn "ai" content (Some "AI") (now w)]
    /\ messages w' = messages w /\ sessions w' = sessions w.
Proof.
  unfold ops_addAIMessage, createMemoryEntry. run.
  eexists. eexists. split; [reflexivity |]. simpl. repeat split.
Qed.

Lemma ops_addToolMessage_eq (sid nid : string) (turn : option string)
      (toolCallId toolName : string) (toolInput toolOutput : jsval) (w : World) :
  exists id w',
    ops_addToolMessage sid nid turn toolCallId toolName toolInput toolOutput w = (Ok tt, w')
    /\ memory w' = memory w ++
         [ChatHubMemory.mk id sid nid turn "tool"
            (JSON.stringify
               (js_object [("toolCallId", Some (JStr toolCallId));
                           ("toolName", Some (JStr toolName));
                           ("toolInput", toolInput);
                           ("toolOutput", toolOutput)]))
            (Some toolName) (now w)]
    /\ messages w' = messages w /\ sessions w' = sessions w.
Proof.
  unfold ops_addToolMessage, createMemoryEntry. run.
  eexists. eexists. split; [reflexivity |]. simpl. repeat split.
Qed.


Lemma getChatHubProxy_ok_inv
      (workflow : Workflow.t) (node : INode.t) (sid nid : string)
      (turn ownerId : option string) (w w' : World) (f : IChatHubMemoryService) :
  getChatHubProxy workflow node sid nid turn ownerId w = (Ok f, w') ->
  exists owner,
    ownerId = Some owner /\ owner <> EmptyString
    /\ isAllowedNode (INode.type node) = true
    /\ f = makeChatHubOperations sid nid turn owner (Workflow.id workflow)
             (extractAgentName workflow)
    /\ w' = w.
Proof.
  unfold getChatHubProxy, validateRequest.
  destruct (isAllowedNode (INode.type node)) eqn:Hn; run; [| discriminate].
  destruct ownerId as [owner |]; [| discriminate].
  destruct (String.eqb_spec owner EmptyString) as [-> | Hne]; [discriminate |].
  intros H. injection H as <- <-. exists owner. now repeat split.
Qed.


(** ** The write direction drops what it does not store *)

Lemma getType_tool_inv (m : BaseMessage) :
  _getType m = "tool" -> exists c i n, m = ToolMessage c i n.
Proof.
  destruct m; simpl; intros H; try discriminate. now eexists _, _, _.
Qed.

(** C10.  A message whose type is none of human, ai and tool, a system
    message among them, is dropped by [addMessage]: whatever the memory
    service, the operation resolves and the world is what it was, so no
    write reached the memory service.  The read direction does build
    system messages. *)
Theorem addMessage_drops_unsaved_types
        (memoryService : IChatHubMemoryService)
        (memoryServiceB : ChatHubMessageHistoryB.IChatHubMemoryService)
        (message : BaseMessage) (w : World) :
  _getType message <> "human" ->
  _getType message <> "ai" ->
  _getType message <> "tool" ->
  ChatHubMessageHistory.addMessage memoryService message w = (Ok tt, w)
  /\ ChatHubMessageHistoryB.addMessage memoryServiceB message w = (Ok tt, w)
  /\ (forall c, _getType (SystemMessage c) = "system")
  /\ (forall entry, ChatHubMemoryEntry.role entry = "system" ->
        ChatHubMessageHistory.convertToLangChainMessage entry
        = Ok (new_SystemMessage (ChatHubMemoryEntry.content entry))).
Proof.
  intros Hh Ha Ht.
  split; [| split; [| split]].
  - unfold ChatHubMessageHistory.addMessage.
    destruct (String.eqb_spec (_getType message) "human"); [contradiction |].
    destruct (String.eqb_spec (_getType message) "ai"); [contradiction |].
    destruct (String.eqb_spec (_getType message) "tool"); [contradiction |].
    reflexivity.
  - unfold ChatHubMessageHistoryB.addMessage.
    destruct (String.eqb_spec (_getType message) "human"); [contradiction |].
    destruct (String.eqb_spec (_getType message) "ai"); [contradiction |].
    destruct (String.eqb_spec (_getType message) "tool"); [contradiction |].
    reflexivity.
  - reflexivity.
  - intros entry Hr. unfold ChatHubMessageHistory.convertToLangChainMessage.
    rewrite Hr. reflexivity.
Qed.

(** ** Session bootstrap *)


Lemma session_id_taken_spec (sid : string) (l : list ChatHubSession.t) :
  existsb (fun s => String.eqb (ChatHubSession.id s) sid) l = true
  <-> exists s, In s l /\ ChatHubSession.id s = sid.
Proof.
  rewrite existsb_exists. split; intros [s [Hin H]]; exists s; split; try assumption.
  - now apply String.eqb_eq.
  - now apply String.eqb_eq.
Qed.

Lemma existsb_false_iff {A : Type} (p : A -> bool) (l : list A) :
  existsb p l = false <-> forall x, In x l -> p x = false.
Proof.
  split.
  - intros H x Hin. destruct (p x) eqn:Hp; [| reflexivity].
    assert (existsb p l = true) by (apply existsb_exists; now exists x). congruence.
  - intros H. destruct (existsb p l) eqn:He; [| reflexivity].
    apply existsb_exists in He. destruct He as [x [Hin Hp]].
    rewrite (H x Hin) in Hp. discriminate.
Qed.

Lemma ops_ensureSession_unfold (sid owner : string) (wfid : option string)
      (agent : string) (title : option string) (w : World) :
  ops_ensureSession sid owner wfid agent title w
  = ensureSession_resume sid owner wfid agent title
      (existsb (fun s => String.eqb (ChatHubSession.id s) sid
                         && String.eqb (ChatHubSession.ownerId s) owner) (sessions w))
      (log_calls [ExistsById sid owner] w).
Proof. reflexivity. Qed.

Lemma ensureSession_resume_create (sid owner : string) (wfid : option string)
      (agent : string) (title : option string) (w : World) :
  ensureSession_resume sid owner wfid agent title false w
  = if existsb (fun s => String.eqb (ChatHubSession.id s) sid) (sessions w)
    then (Threw (QueryFailedError "duplicate key value violates unique constraint"),
          log_calls [CreateChatSession (session_record sid owner wfid agent title w)] w)
    else (Ok tt,
          with_sessions (sessions w ++ [session_record sid owner wfid agent title w])
            (log_calls [CreateChatSession (session_record sid owner wfid agent title w)] w)).
Proof.
  unfold ensureSession_resume, createChatSession, session_record. run.
  destruct (existsb _ (sessions w)); reflexivity.
Qed.


Lemma ops_ensureSession_fresh (sid owner : string) (wfid : option string)
      (agent : string) (title : option string) (w : World) :
  (forall s, In s (sessions w) -> ChatHubSession.id s <> sid) ->
  ops_ensureSession sid owner wfid agent title w
  = (Ok tt,
     with_sessions (sessions w ++ [session_record sid owner wfid agent title w])
       (log_calls [ExistsById sid owner;
                   CreateChatSession (session_record sid owner wfid agent title w)] w)).
Proof.
  intros H. rewrite ops_ensureSession_unfold.
  replace (existsb _ (sessions w)) with false.
  2:{ symmetry. apply existsb_false_iff. intros s Hin.
      destruct (String.eqb_spec (ChatHubSession.id s) sid) as [Heq | _]; [| reflexivity].
      now apply H in Hin. }
  rewrite ensureSession_resume_create. simpl.
  replace (existsb _ (sessions w)) with false.
  2:{ symmetry. apply existsb_false_iff. intros s Hin.
      apply String.eqb_neq. now apply H. }
  unfold with_sessions, log_calls, session_record; simpl.
  now rewrite <- app_assoc.
Qed.

Lemma extractAgentName_eq (workflow : Workflow.t) :
  extractAgentName workflow =
  let fallback :=
    match Workflow.name workflow with
    | Some n => if negb (String.eqb n EmptyString) && negb (is_blank n)
                then n else NAME_FALLBACK
    | None => NAME_FALLBACK
    end in
  match chatTrigger_agentName workflow with
  | Some (JStr a) => if negb (is_blank a) then a else fallback
  | _ => fallback
  end.
Proof. reflexivity. Qed.






(** C9, as the code has it.  [ensureSession] does not handle a failing
    create: resumed after an existence check that found nothing, it
    issues the create, and where a session with the id has appeared in
    the meantime the uniqueness violation of the repository is what the
    caller gets, the stored sessions being left as they are.  In a race
    of two executions for one fresh session id, the one that checks
    first and creates last is rejected with that error and the session
    of the other stays. *)
Theorem ensureSession_duplicate_create_is_surfaced
        (sessionId ownerId : string) (workflowId : option string) (agentName : string)
        (title : option string) (w : World) :
  (forall w0, ops_ensureSession sessionId ownerId workflowId agentName title w0
              = bind (existsById sessionId ownerId)
                  (ensureSession_resume sessionId ownerId workflowId agentName title) w0)
  /\ ((exists s, In s (sessions w) /\ ChatHubSession.id s = sessionId) ->
      ensureSession_resume sessionId ownerId workflowId agentName title false w
      = (Threw (QueryFailedError "duplicate key value violates unique constraint"),
         log_calls [CreateChatSession
                      (session_record sessionId ownerId workflowId agentName title w)] w))
  /\ ((forall s, In s (sessions w) -> ChatHubSession.id s <> sessionId) ->
      forall owner2 workflowId2 agentName2 title2,
        let r := ensureSession_race (sessionId, ownerId, workflowId, agentName)
                   (sessionId, owner2, workflowId2, agentName2) title title2 w in
        fst r = Threw (QueryFailedError "duplicate key value violates unique constraint")
        /\ sessions (snd r)
           = sessions w ++ [session_record sessionId owner2 workflowId2 agentName2 title2 w]).
Proof.
  split; [reflexivity |]. split.
  - intros H. apply session_id_taken_spec in H.
    rewrite ensureSession_resume_create, H. reflexivity.
  - intros Hfresh owner2 workflowId2 agentName2 title2. simpl.
    unfold ensureSession_race.
    change (existsById sessionId ownerId w)
      with (Ok (existsb (fun s => String.eqb (ChatHubSession.id s) sessionId
                                  && String.eqb (ChatHubSession.ownerId s) ownerId)
                        (sessions w)),
            log_calls [ExistsById sessionId ownerId] w).
    replace (existsb _ (sessions w)) with false.
    2:{ symmetry. apply existsb_false_iff. intros s Hin.
        destruct (String.eqb_spec (ChatHubSession.id s) sessionId) as [Heq | _];
          [| reflexivity].
        now apply Hfresh in Hin. }
    rewrite ops_ensureSession_fresh by exact Hfresh.
    rewrite ensureSession_resume_create. simpl.
    replace (existsb _ (sessions w ++ _)) with true.
    2:{ symmetry. apply existsb_exists. eexists. split.
        - apply in_or_app. right. left. reflexivity.
        - simpl. apply String.eqb_refl. }
    split; reflexivity.
Qed.

(** ** The message chain builder *)

Lemma children_spec (p : string) (msgs : list ChatHubMessage.t) (c : ChatHubMessage.t) :
  In c (children p msgs) <->
  In c msgs /\ ChatHubMessage.parentMessageId c = Some p.
Proof.
  unfold children. rewrite filter_In.
  destruct (ChatHubMessage.parentMessageId c) as [q |].
  - rewrite String.eqb_eq. split; intros [H1 H2]; split; congruence.
  - split; intros [_ H]; discriminate.
Qed.

Lemma latest_none (l : list ChatHubMessage.t) : latest l = None -> l = [].
Proof.
  destruct l as [|x r]; simpl; [reflexivity |].
  destruct (latest r) as [y |]; [destruct (supersedes y x) |]; discriminate.
Qed.

Lemma id_lt_iff (a b : string) : id_lt a b = true <-> String_as_OT.lt a b.
Proof.
  unfold id_lt, String_as_OT.lt.
  destruct (String_as_OT.compare a b); split; intros H;
    try reflexivity; try discriminate.
Qed.

Lemma id_lt_irrefl (a : string) : id_lt a a = false.
Proof.
  destruct (id_lt a a) eqn:E; [| reflexivity].
  apply id_lt_iff in E. exfalso.
  exact (RelationClasses.StrictOrder_Irreflexive a E).
Qed.

Lemma id_lt_trans (a b c : string) :
  id_lt a b = true -> id_lt b c = true -> id_lt a c = true.
Proof.
  rewrite !id_lt_iff. apply RelationClasses.StrictOrder_Transitive.
Qed.

Lemma id_trichotomy (a b : string) :
  id_lt a b = true \/ a = b \/ id_lt b a = true.
Proof.
  destruct (String_as_OT.compare_spec a b) as [H | H | H].
  - right. left. exact H.
  - left. now apply id_lt_iff.
  - right. right. now apply id_lt_iff.
Qed.

Lemma id_lt_neg_trans (a b c : string) :
  id_lt a b = false -> id_lt b c = false -> id_lt a c = false.
Proof.
  intros Hab Hbc. destruct (id_lt a c) eqn:Hac; [| reflexivity]. exfalso.
  destruct (id_trichotomy a b) as [H | [-> | H]]; [congruence | congruence |].
  destruct (id_trichotomy b c) as [H' | [-> | H']]; [congruence | congruence |].
  pose proof (id_lt_trans _ _ _ H' H) as Hca.
  pose proof (id_lt_trans _ _ _ Hac Hca) as Haa.
  rewrite id_lt_irrefl in Haa. discriminate.
Qed.

Lemma supersedes_false_spec (a b : ChatHubMessage.t) :
  supersedes a b = false <->
  (ChatHubMessage.createdAt a <= ChatHubMessage.createdAt b)%Z
  /\ (ChatHubMessage.createdAt a = ChatHubMessage.createdAt b ->
      id_lt (ChatHubMessage.id b) (ChatHubMessage.id a) = false).
Proof.
  unfold supersedes. rewrite orb_false_iff, andb_false_iff, Z.ltb_ge, Z.eqb_neq.
  split.
  - intros [Hle [Hne | Hid]]; split; try assumption; intros Heq;
      [symmetry in Heq; contradiction | assumption].
  - intros [Hle Hid]. split; [assumption |].
    destruct (Z.eq_dec (ChatHubMessage.createdAt b) (ChatHubMessage.createdAt a))
      as [Heq | Hne]; [right; apply Hid; now symmetry | now left].
Qed.

Lemma supersedes_asym (a b : ChatHubMessage.t) :
  supersedes a b = true -> supersedes b a = false.
Proof.
  intros H. apply supersedes_false_spec.
  unfold supersedes in H. apply orb_true_iff in H. destruct H as [H | H].
  - apply Z.ltb_lt in H. split; [lia | intros; lia].
  - apply andb_true_iff in H. destruct H as [Ht Hid]. apply Z.eqb_eq in Ht.
    split; [lia |]. intros _.
    destruct (id_lt (ChatHubMessage.id a) (ChatHubMessage.id b)) eqn:E; [| reflexivity].
    pose proof (id_lt_trans _ _ _ Hid E) as Hbb. rewrite id_lt_irrefl in Hbb.
    discriminate.
Qed.

Lemma supersedes_neg_trans (z y x : ChatHubMessage.t) :
  supersedes z y = false -> supersedes y x = false -> supersedes z x = false.
Proof.
  rewrite !supersedes_false_spec. intros [Hzy Hzy'] [Hyx Hyx'].
  split; [lia |]. intros Heq.
  apply (id_lt_neg_trans _ (ChatHubMessage.id y)); [apply Hyx' | apply Hzy']; lia.
Qed.

Lemma supersedes_irrefl (x : ChatHubMessage.t) : supersedes x x = false.
Proof.
  apply supersedes_false_spec. split; [lia |]. intros _. apply id_lt_irrefl.
Qed.

(** [latest] returns a message of the list that none of the list
    supersedes. *)
Lemma latest_spec (l : list ChatHubMessage.t) (c : ChatHubMessage.t) :
  latest l = Some c ->
  In c l /\ forall y, In y l -> supersedes y c = false.
Proof.
  revert c. induction l as [|x r IH]; simpl; [discriminate |].
  intros c. destruct (latest r) as [y |] eqn:Hr.
  - destruct (IH y eq_refl) as [Hin Hmax].
    destruct (supersedes y x) eqn:Hs; intros H; injection H as <-.
    + split; [now right |]. intros z [<- | Hz]; [| now apply Hmax].
      now apply supersedes_asym.
    + split; [now left |]. intros z [<- | Hz]; [apply supersedes_irrefl |].
      apply (supersedes_neg_trans z y); [now apply Hmax | exact Hs].
  - intros H. injection H as <-. apply latest_none in Hr. subst r.
    split; [now left |]. intros z [<- | []]. apply supersedes_irrefl.
Qed.

Lemma active_path_head (fuel : nat) (msgs : list ChatHubMessage.t)
      (node : ChatHubMessage.t) (l : list ChatHubMessage.t) :
  active_path fuel msgs node = Ok l -> exists rest, l = node :: rest.
Proof.
  destruct fuel as [|f]; simpl; [discriminate |].
  destruct (latest _) as [c |].
  - destruct (active_path f msgs c); intros H; [| discriminate].
    injection H as <-. now eexists.
  - intros H. injection H as <-. now eexists.
Qed.

Lemma active_path_chain (fuel : nat) (msgs : list ChatHubMessage.t)
      (node : ChatHubMessage.t) (l : list ChatHubMessage.t) :
  active_path fuel msgs node = Ok l -> active_chain msgs l.
Proof.
  revert node l. induction fuel as [|f IH]; simpl; intros node l; [discriminate |].
  destruct (latest (children (ChatHubMessage.id node) msgs)) as [c |] eqn:Hl.
  - destruct (active_path f msgs c) as [rest | e] eqn:Hp; intros H; [| discriminate].
    injection H as <-.
    destruct (active_path_head _ _ _ _ Hp) as [rest' ->].
    apply latest_spec in Hl. destruct Hl as [Hin Hmax].
    apply children_spec in Hin. destruct Hin as [Hin Hpar].
    apply active_step; try assumption.
    + intros y Hy Hyp. apply supersedes_false_spec, Hmax. now apply children_spec.
    + now apply IH with (node := c).
  - intros H. injection H as <-. apply latest_none in Hl.
    apply active_leaf. intros x Hx Hp.
    assert (In x (children (ChatHubMessage.id node) msgs)) by now apply children_spec.
    rewrite Hl in H. contradiction.
Qed.

Lemma find_message_In (msgs : list ChatHubMessage.t) (m : ChatHubMessage.t) :
  NoDup (map ChatHubMessage.id msgs) -> In m msgs ->
  find_message (ChatHubMessage.id m) msgs = Some m.
Proof.
  unfold find_message. induction msgs as [|x r IH]; simpl; [contradiction |].
  intros Hnd [-> | Hin].
  - now rewrite String.eqb_refl.
  - inversion Hnd as [|? ? Hnotin Hnd']; subst.
    destruct (String.eqb_spec (ChatHubMessage.id x) (ChatHubMessage.id m)) as [Heq | _].
    + exfalso. apply Hnotin. rewrite Heq. now apply in_map.
    + now apply IH.
Qed.

Lemma same_id_same_message (msgs : list ChatHubMessage.t) (a b : ChatHubMessage.t) :
  NoDup (map ChatHubMessage.id msgs) -> In a msgs -> In b msgs ->
  ChatHubMessage.id a = ChatHubMessage.id b -> a = b.
Proof.
  intros Hnd Ha Hb Heq.
  pose proof (find_message_In msgs a Hnd Ha) as H1.
  pose proof (find_message_In msgs b Hnd Hb) as H2.
  rewrite Heq in H1. congruence.
Qed.

Lemma depth_of_mono (msgs : list ChatHubMessage.t) (f : nat) :
  forall m k, depth_of f msgs m = Some k ->
              forall f', f <= f' -> depth_of f' msgs m = Some k.
Proof.
  induction f as [|f IH]; intros m k H f' Hle.
  - destruct f'; simpl in *; destruct (ChatHubMessage.parentMessageId m);
      try discriminate; assumption.
  - destruct f' as [|f']; [lia |]. simpl in *.
    destruct (ChatHubMessage.parentMessageId m) as [p |]; [| assumption].
    destruct (find_message p msgs) as [parent |]; [| discriminate].
    destruct (depth_of f msgs parent) as [j |] eqn:Hd; [| discriminate].
    rewrite (IH parent j Hd f') by lia. exact H.
Qed.

Lemma depth_of_le_fuel (msgs : list ChatHubMessage.t) (f : nat) :
  forall m k, depth_of f msgs m = Some k -> k <= f.
Proof.
  induction f as [|f IH]; intros m k; simpl;
    destruct (ChatHubMessage.parentMessageId m) as [p |]; intros H;
    try discriminate; try (injection H as <-; lia).
  destruct (find_message p msgs) as [parent |]; [| discriminate].
  destruct (depth_of f msgs parent) as [j |] eqn:Hd; [| discriminate].
  injection H as <-. apply IH in Hd. lia.
Qed.

Lemma depth_of_child (msgs : list ChatHubMessage.t) (n : nat)
      (p c : ChatHubMessage.t) (k : nat) :
  NoDup (map ChatHubMessage.id msgs) -> In p msgs ->
  ChatHubMessage.parentMessageId c = Some (ChatHubMessage.id p) ->
  depth_of n msgs c = Some k ->
  exists j, k = S j /\ depth_of n msgs p = Some j.
Proof.
  intros Hnd Hp Hpar H. destruct n as [|n]; simpl in H; rewrite Hpar in H;
    [discriminate |].
  rewrite (find_message_In msgs p Hnd Hp) in H.
  destruct (depth_of n msgs p) as [j |] eqn:Hd; [| discriminate].
  injection H as <-. exists j. split; [reflexivity |].
  apply (depth_of_mono msgs n p j Hd). lia.
Qed.

(** On a tree the walk never runs out of fuel. *)
Lemma active_path_total (msgs : list ChatHubMessage.t) :
  NoDup (map ChatHubMessage.id msgs) ->
  (forall m, In m msgs -> depth_of (List.length msgs) msgs m <> None) ->
  forall fuel node k,
    In node msgs ->
    depth_of (List.length msgs) msgs node = Some k ->
    List.length msgs < k + fuel ->
    exists l, active_path fuel msgs node = Ok l.
Proof.
  intros Hnd Hdepth. induction fuel as [|f IH]; intros node k Hin Hk Hlt.
  - apply depth_of_le_fuel in Hk. lia.
  - simpl. destruct (latest (children (ChatHubMessage.id node) msgs)) as [c |] eqn:Hl.
    + apply latest_spec in Hl. destruct Hl as [Hc _].
      apply children_spec in Hc. destruct Hc as [Hc Hpar].
      destruct (depth_of (List.length msgs) msgs c) as [kc |] eqn:Hkc;
        [| now apply Hdepth in Hc].
      destruct (depth_of_child msgs _ node c kc Hnd Hin Hpar Hkc) as [j [-> Hj]].
      assert (j = k) by congruence. subst j.
      destruct (IH c (S k) Hc Hkc) as [l Hl]; [lia |].
      rewrite Hl. now eexists.
    + now eexists.
Qed.

Lemma active_chain_in_msgs (msgs l : list ChatHubMessage.t) :
  active_chain msgs l ->
  forall x, In x (List.tl l) -> In x msgs.
Proof.
  induction 1 as [m Hm | m c rest Hc Hpar Hmax Hrest IH]; simpl; [contradiction |].
  intros x [<- | Hx]; [assumption |]. now apply IH.
Qed.

(** Every element after the head was selected among the children of
    the element before it. *)
Lemma active_chain_selected (msgs l : list ChatHubMessage.t) :
  active_chain msgs l ->
  forall c, In c (List.tl l) ->
            exists m, In m l
                      /\ ChatHubMessage.parentMessageId c = Some (ChatHubMessage.id m)
                      /\ forall y, In y msgs ->
                                   ChatHubMessage.parentMessageId y
                                   = Some (ChatHubMessage.id m) ->
                                   supersedes y c = false.
Proof.
  induction 1 as [m Hm | m c rest Hc Hpar Hmax Hrest IH]; simpl; [contradiction |].
  intros x [<- | Hx].
  - exists m. split; [now left |]. split; [assumption |].
    intros y Hy Hyp. now apply supersedes_false_spec, Hmax.
  - destruct (IH x Hx) as [m' [Hin H']]. exists m'. split; [now right | exact H'].
Qed.

(** An element of the chain is a leaf or is followed by one of its
    children. *)
Lemma active_chain_next (msgs l : list ChatHubMessage.t) :
  active_chain msgs l ->
  forall m, In m l ->
            (forall x, In x msgs ->
                       ChatHubMessage.parentMessageId x <> Some (ChatHubMessage.id m))
            \/ exists c, In c (List.tl l) /\ In c msgs
                         /\ ChatHubMessage.parentMessageId c = Some (ChatHubMessage.id m).
Proof.
  induction 1 as [m Hm | m c rest Hc Hpar Hmax Hrest IH]; simpl.
  - intros x [<- | []]. now left.
  - intros x [<- | Hx].
    + right. exists c. split; [now left |]. now split.
    + destruct (IH x Hx) as [Hleaf | [c' [Hin H']]]; [now left |].
      right. exists c'. split; [| exact H']. right. exact Hin.
Qed.

Lemma active_chain_parent_closed (msgs : list ChatHubMessage.t)
      (root : ChatHubMessage.t) (rest : list ChatHubMessage.t) :
  NoDup (map ChatHubMessage.id msgs) ->
  In root msgs -> ChatHubMessage.parentMessageId root = None ->
  active_chain msgs (root :: rest) ->
  forall d x, In d (root :: rest) -> In x msgs ->
              ChatHubMessage.parentMessageId d = Some (ChatHubMessage.id x) ->
              In x (root :: rest).
Proof.
  intros Hnd Hroot Hnone Hchain d x [<- | Hd] Hx Hpar; [congruence |].
  destruct (active_chain_selected _ _ Hchain d Hd) as [m [Hm [Hpm _]]].
  assert (Hmm : In m msgs).
  { destruct Hm as [<- | Hm]; [assumption |].
    now apply (active_chain_in_msgs _ _ Hchain). }
  rewrite Hpar in Hpm. injection Hpm as Hid.
  now rewrite (same_id_same_message msgs x m Hnd Hx Hmm Hid).
Qed.

Lemma descendant_in_chain (msgs : list ChatHubMessage.t)
      (root : ChatHubMessage.t) (rest : list ChatHubMessage.t) :
  NoDup (map ChatHubMessage.id msgs) ->
  In root msgs -> ChatHubMessage.parentMessageId root = None ->
  active_chain msgs (root :: rest) ->
  forall d a, descendant msgs d a -> In a msgs ->
              In d (root :: rest) -> In a (root :: rest).
Proof.
  intros Hnd Hroot Hnone Hchain d a Hdesc.
  induction Hdesc as [d a Hpar | d x a Hx Hpar Hdesc IH]; intros Ha Hd.
  - now apply (active_chain_parent_closed msgs root rest Hnd Hroot Hnone Hchain d a).
  - apply IH; [assumption |].
    now apply (active_chain_parent_closed msgs root rest Hnd Hroot Hnone Hchain d x).
Qed.

Lemma earlier_sibling_not_in_chain (msgs : list ChatHubMessage.t)
      (root : ChatHubMessage.t) (rest : list ChatHubMessage.t)
      (p : string) (c1 c2 : ChatHubMessage.t) :
  ChatHubMessage.parentMessageId root = None ->
  active_chain msgs (root :: rest) ->
  In c2 msgs ->
  ChatHubMessage.parentMessageId c1 = Some p ->
  ChatHubMessage.parentMessageId c2 = Some p ->
  (ChatHubMessage.createdAt c1 < ChatHubMessage.createdAt c2)%Z ->
  ~ In c1 (root :: rest).
Proof.
  intros Hnone Hchain Hc2 Hp1 Hp2 Hlt [<- | Hin]; [congruence |].
  destruct (active_chain_selected _ _ Hchain c1 Hin) as [m [_ [Hpm Hmax]]].
  assert (H : supersedes c2 c1 = false).
  { apply Hmax; [assumption | congruence]. }
  apply supersedes_false_spec in H. lia.
Qed.

(** On a tree the chain from a node is determined by the messages. *)
Lemma active_chain_unique (msgs : list ChatHubMessage.t) :
  NoDup (map ChatHubMessage.id msgs) ->
  forall l, active_chain msgs l ->
  forall l', active_chain msgs l' -> List.hd_error l = List.hd_error l' -> l = l'.
Proof.
  intros Hnd l Hl.
  induction Hl as [m Hm | m c rest Hc Hpar Hmax Hrest IH]; intros l' Hl' Hhd.
  - destruct Hl' as [m' Hm' | m' c' rest' Hc' Hpar' Hmax' Hrest'];
      simpl in Hhd; injection Hhd as <-; [reflexivity |].
    exfalso. now apply (Hm c').
  - destruct Hl' as [m' Hm' | m' c' rest' Hc' Hpar' Hmax' Hrest'];
      simpl in Hhd; injection Hhd as <-.
    + exfalso. now apply (Hm' c).
    + destruct (Hmax c' Hc' Hpar') as [Hle1 Hid1].
      destruct (Hmax' c Hc Hpar) as [Hle2 Hid2].
      assert (Ht : ChatHubMessage.createdAt c = ChatHubMessage.createdAt c') by lia.
      assert (Hid : ChatHubMessage.id c = ChatHubMessage.id c').
      { specialize (Hid1 (eq_sym Ht)). specialize (Hid2 Ht).
        destruct (id_trichotomy (ChatHubMessage.id c) (ChatHubMessage.id c'))
          as [H | [H | H]]; congruence. }
      pose proof (same_id_same_message msgs c c' Hnd Hc Hc' Hid) as <-.
      f_equal. now apply IH.
Qed.

(** C1, as the builder has it.  On a message tree the builder returns
    the one chain that starts at the root, takes at each node the child
    with the latest createdAt among the children of that node (ties
    broken by id), and ends at a node without children.  A message with
    a later sibling is not in the chain, nor is any of its descendants;
    and where a message of the chain has exactly the two children C1
    (created earlier) and C2 (created later), C2 is in the chain. *)
Theorem buildMessageHistory_active_path (msgs : list ChatHubMessage.t) :
  forms_tree msgs ->
  exists root rest,
    filter is_root msgs = [root]
    /\ buildMessageHistory msgs = Ok (root :: rest)
    /\ active_chain msgs (root :: rest)
    /\ (forall l, active_chain msgs l -> List.hd_error l = Some root -> l = root :: rest)
    /\ forall M C1 C2,
        In C1 msgs -> In C2 msgs ->
        ChatHubMessage.parentMessageId C1 = Some (ChatHubMessage.id M) ->
        ChatHubMessage.parentMessageId C2 = Some (ChatHubMessage.id M) ->
        (ChatHubMessage.createdAt C1 < ChatHubMessage.createdAt C2)%Z ->
        ~ In C1 (root :: rest)
        /\ (forall D, In D msgs -> descendant msgs D C1 -> ~ In D (root :: rest))
        /\ (In M (root :: rest) ->
            (forall x, In x msgs ->
                       ChatHubMessage.parentMessageId x = Some (ChatHubMessage.id M) ->
                       x = C1 \/ x = C2) ->
            In C2 (root :: rest)).
Proof.
  intros [Hnd [[root Hroot] Hdepth]].
  assert (Hin : In root (filter is_root msgs)) by (rewrite Hroot; now left).
  apply filter_In in Hin. destruct Hin as [Hin Hisroot].
  assert (Hnone : ChatHubMessage.parentMessageId root = None).
  { unfold is_root in Hisroot.
    destruct (ChatHubMessage.parentMessageId root); [discriminate | reflexivity]. }
  assert (Hd0 : depth_of (List.length msgs) msgs root = Some 0).
  { destruct (List.length msgs); simpl; now rewrite Hnone. }
  destruct (active_path_total msgs Hnd Hdepth (S (List.length msgs)) root 0 Hin Hd0)
    as [l Hl]; [lia |].
  destruct (active_path_head _ _ _ _ Hl) as [rest ->].
  pose proof (active_path_chain _ _ _ _ Hl) as Hchain.
  exists root, rest.
  split; [exact Hroot |]. split.
  { unfold buildMessageHistory. destruct msgs as [|m0 ms]; [contradiction |].
    rewrite Hroot. exact Hl. }
  split; [exact Hchain |].
  split.
  { intros l0 Hl0 Hhd.
    now apply (active_chain_unique msgs Hnd l0 Hl0 (root :: rest) Hchain). }
  intros M C1 C2 HC1 HC2 Hp1 Hp2 Hlt.
  assert (Hnot : ~ In C1 (root :: rest)).
  { now apply (earlier_sibling_not_in_chain msgs root rest (ChatHubMessage.id M) C1 C2). }
  split; [exact Hnot |]. split.
  - intros D HD Hdesc HinD. apply Hnot.
    now apply (descendant_in_chain msgs root rest Hnd Hin Hnone Hchain D C1).
  - intros HM Honly.
    destruct (active_chain_next _ _ Hchain M HM) as [Hleaf | [c [Hc [Hcm Hcp]]]].
    + exfalso. now apply (Hleaf C2 HC2).
    + destruct (Honly c Hcm Hcp) as [-> | ->].
      * exfalso. apply Hnot. right. exact Hc.
      * right. exact Hc.
Qed.

Lemma retried_session_forms_tree : forms_tree retried_session.
Proof.
  split; [| split].
  - simpl. repeat constructor; simpl; intuition discriminate.
  - exists m_root. reflexivity.
  - intros m Hin. simpl in Hin.
    repeat (destruct Hin as [<- | Hin]; [vm_compute; discriminate |]).
    contradiction.
Qed.

(** C1 as stated fails where the parent itself is superseded: [m_a] has
    exactly the two children [m_c1] (earlier) and [m_c2] (later), yet
    the chain of the session is [m_root; m_b] and holds neither. *)
Lemma later_child_of_superseded_parent_not_in_chain :
  forms_tree retried_session
  /\ In m_c1 retried_session /\ In m_c2 retried_session
  /\ ChatHubMessage.parentMessageId m_c1 = Some (ChatHubMessage.id m_a)
  /\ ChatHubMessage.parentMessageId m_c2 = Some (ChatHubMessage.id m_a)
  /\ children (ChatHubMessage.id m_a) retried_session = [m_c1; m_c2]
  /\ (ChatHubMessage.createdAt m_c1 < ChatHubMessage.createdAt m_c2)%Z
  /\ buildMessageHistory retried_session = Ok [m_root; m_b]
  /\ ~ In m_c2 [m_root; m_b].
Proof.
  split; [exact retried_session_forms_tree |].
  repeat split; try reflexivity; simpl; try tauto.
  intros [H | [H | []]]; discriminate.
Qed.

Lemma buildMessageHistory_active_path_witness :
  forms_tree retried_session
  /\ exists root rest,
      buildMessageHistory retried_session = Ok (root :: rest)
      /\ ~ In m_a (root :: rest).
Proof.
  split; [exact retried_session_forms_tree |].
  destruct (buildMessageHistory_active_path retried_session retried_session_forms_tree)
    as [root [rest [_ [Hb [_ [_ H]]]]]].
  exists root, rest. split; [exact Hb |].
  refine (proj1 (H m_root m_a m_b _ _ eq_refl eq_refl eq_refl)); simpl; tauto.
Defined.

(** ** [JSON.parse] undoes [JSON.stringify] *)

Lemma string_app_assoc (a b c : string) : ((a ++ b) ++ c = a ++ (b ++ c))%string.
Proof. induction a as [|x a IH]; simpl; [reflexivity | now rewrite IH]. Qed.

Lemma string_length_app (a b : string) :
  String.length (a ++ b) = String.length a + String.length b.
Proof. induction a as [|x a IH]; simpl; [reflexivity | now rewrite IH]. Qed.

Lemma string_units_escape_char (c : ascii) (rest : string) :
  JSON.string_units (JSON.escape_char c ++ rest) =
  match JSON.string_units rest with
  | Some (us, r) => Some (unit_of c :: us, r)
  | None => None
  end.
Proof.
  destruct c as [[] [] [] [] [] [] [] []]; reflexivity.
Qed.

Lemma decode_unit_of (c : ascii) (us : list (ascii + N)) :
  JSON.decode_units (unit_of c :: us) = String c (JSON.decode_units us).
Proof.
  destruct c as [[] [] [] [] [] [] [] []]; try reflexivity;
    destruct us as [|[a | lo] r]; reflexivity.
Qed.

Lemma string_units_escape_string (s rest : string) :
  JSON.string_units (JSON.escape_string s ++ String dquote rest)
  = Some (units_of s, rest).
Proof.
  induction s as [|c r IH]; simpl.
  - reflexivity.
  - rewrite string_app_assoc, string_units_escape_char, IH. reflexivity.
Qed.

Lemma decode_units_of (s : string) : JSON.decode_units (units_of s) = s.
Proof.
  induction s as [|c r IH]; [reflexivity |].
  change (units_of (String c r)) with (unit_of c :: units_of r).
  now rewrite decode_unit_of, IH.
Qed.

Lemma parse_string_quote (s rest : string) :
  JSON.parse_string (JSON.escape_string s ++ String dquote rest) = Some (s, rest).
Proof.
  unfold JSON.parse_string. now rewrite string_units_escape_string, decode_units_of.
Qed.

Lemma delimited_no_digit (rest : string) :
  delimited rest = true -> JSON.take_digits rest = (Nil, rest).
Proof.
  destruct rest as [|c r]; [reflexivity |]. simpl. intros H.
  apply orb_true_iff in H. destruct H as [H | H];
    [apply orb_true_iff in H; destruct H as [H | H] |];
    apply Ascii.eqb_eq in H; subst c; reflexivity.
Qed.

Lemma delimited_starts (rest : string) (c : ascii) :
  delimited rest = true ->
  (c =? ",")%char = false -> (c =? "]")%char = false -> (c =? "}")%char = false ->
  JSON.starts_with c rest = false.
Proof.
  destruct rest as [|d r]; [reflexivity |]. simpl. intros H H1 H2 H3.
  apply orb_true_iff in H. destruct H as [H | H];
    [apply orb_true_iff in H; destruct H as [H | H] |];
    apply Ascii.eqb_eq in H; subst d; rewrite Ascii.eqb_sym; assumption.
Qed.

Lemma take_digits_uint (d : uint) (rest : string) :
  JSON.take_digits rest = (Nil, rest) ->
  JSON.take_digits (NilEmpty.string_of_uint d ++ rest) = (d, rest).
Proof.
  intros H. induction d; simpl; try assumption;
    change (JSON.take_digits (NilEmpty.string_of_uint d ++ rest))
      with (JSON.take_digits (NilEmpty.string_of_uint d ++ rest)) in *;
    (cbn; rewrite IHd; reflexivity).
Qed.

Lemma to_uint_unorm (p : positive) : unorm (Pos.to_uint p) = Pos.to_uint p.
Proof.
  rewrite <- DecimalPos.Unsigned.to_of, DecimalPos.Unsigned.of_to. reflexivity.
Qed.

Lemma to_uint_no_leading_zero (p : positive) :
  JSON.leading_zero (Pos.to_uint p) = false.
Proof.
  pose proof (to_uint_unorm p) as Hn.
  destruct (Pos.to_uint p) as [|u|u|u|u|u|u|u|u|u|u]; try reflexivity.
  destruct u; try reflexivity;
    (exfalso; rewrite unorm_D0 in Hn;
     match type of Hn with unorm ?x = _ =>
       assert (Hlen : nb_digits (unorm x) <= nb_digits x)
         by (apply nb_digits_unorm; discriminate)
     end;
     rewrite Hn in Hlen; simpl in Hlen; lia).
Qed.

Lemma parse_number_uint (neg : bool) (u : uint) (rest : string) :
  u <> Nil -> JSON.leading_zero u = false -> delimited rest = true ->
  JSON.parse_number ((if neg then "-" else EmptyString) ++ NilEmpty.string_of_uint u ++ rest)
  = Some (JNum (Z.of_int (if neg then Neg u else Pos u)), rest).
Proof.
  intros Hnil Hlz Hd.
  assert (Hdot : JSON.starts_with "." rest = false) by now apply delimited_starts.
  assert (He : JSON.starts_with "e" rest = false) by now apply delimited_starts.
  assert (HE : JSON.starts_with "E" rest = false) by now apply delimited_starts.
  assert (Hneg : JSON.starts_with "-"
                   ((if neg then "-" else EmptyString) ++ NilEmpty.string_of_uint u ++ rest) = neg).
  { destruct neg; [reflexivity |]. destruct u; try contradiction; reflexivity. }
  unfold JSON.parse_number. rewrite Hneg.
  assert (Hs : (if neg
                then JSON.tail ((if neg then "-" else EmptyString)
                                ++ NilEmpty.string_of_uint u ++ rest)
                else (if neg then "-" else EmptyString)
                     ++ NilEmpty.string_of_uint u ++ rest)%string
               = (NilEmpty.string_of_uint u ++ rest)%string)
    by (destruct neg; reflexivity).
  rewrite Hs, (take_digits_uint u rest (delimited_no_digit rest Hd)).
  rewrite Hlz.
  replace (JSON.no_digits u) with false by (destruct u; try contradiction; reflexivity).
  simpl. unfold JSON.take_fraction, JSON.take_exponent.
  rewrite Hdot, He, HE. simpl. reflexivity.
Qed.

Lemma parse_number_Z (z : Z) (rest : string) :
  delimited rest = true ->
  JSON.parse_number (JSON.string_of_Z z ++ rest) = Some (JNum z, rest).
Proof.
  intros Hd. unfold JSON.string_of_Z.
  rewrite <- (DecimalZ.of_to z) at 2.
  destruct z as [|p|p]; simpl Z.to_int.
  - exact (parse_number_uint false (D0 Nil) rest ltac:(discriminate) eq_refl Hd).
  - pose proof (parse_number_uint false (Pos.to_uint p) rest
                  (DecimalPos.Unsigned.to_uint_nonnil p) (to_uint_no_leading_zero p) Hd) as H.
    simpl in H. unfold NilZero.string_of_int, NilZero.string_of_uint.
    destruct (Pos.to_uint p) eqn:E; try exact H.
    exfalso. now apply (DecimalPos.Unsigned.to_uint_nonnil p).
  - pose proof (parse_number_uint true (Pos.to_uint p) rest
                  (DecimalPos.Unsigned.to_uint_nonnil p) (to_uint_no_leading_zero p) Hd) as H.
    simpl in H. unfold NilZero.string_of_int, NilZero.string_of_uint.
    destruct (Pos.to_uint p) eqn:E; try exact H.
    exfalso. now apply (DecimalPos.Unsigned.to_uint_nonnil p).
Qed.

Lemma stringify_arr (items : list json) :
  JSON.stringify (JArr items) = ("[" ++ elements items ++ "]")%string.
Proof. reflexivity. Qed.

Lemma stringify_obj (members : list (string * json)) :
  JSON.stringify (JObj members) = ("{" ++ pairs members ++ "}")%string.
Proof. reflexivity. Qed.

Lemma json_size_arr (items : list json) : json_size (JArr items) = S (size_items items).
Proof. reflexivity. Qed.

Lemma json_size_obj (members : list (string * json)) :
  json_size (JObj members) = S (size_members members).
Proof. reflexivity. Qed.

Lemma json_wf_arr (items : list json) : json_wf (JArr items) <-> Forall json_wf items.
Proof.
  simpl. induction items as [|x r IH].
  - split; constructor.
  - split.
    + intros [H1 H2]. constructor; [assumption | now apply IH].
    + intros H. inversion H; subst. split; [assumption | now apply IH].
Qed.

Lemma json_wf_obj (members : list (string * json)) :
  json_wf (JObj members) <->
  JSON.obj_of_members members = members /\ Forall (fun kv => json_wf (snd kv)) members.
Proof.
  simpl. apply and_iff_compat_l.
  induction members as [|[k x] r IH].
  - split; constructor.
  - split.
    + intros [H1 H2]. constructor; [assumption | now apply IH].
    + intros H. inversion H; subst. split; [assumption | now apply IH].
Qed.

Lemma string_app_nil_r (a : string) : (a ++ EmptyString)%string = a.
Proof. induction a as [|x a IH]; simpl; [reflexivity | now rewrite IH]. Qed.

Lemma number_start_dispatch (f : nat) (c : ascii) (r : string) :
  JSON.is_number_start c = true ->
  JSON.parse_value (S f) (String c r) = JSON.parse_number (String c r).
Proof.
  destruct c as [[] [] [] [] [] [] [] []]; intros H; vm_compute in H;
    try discriminate H; reflexivity.
Qed.

Lemma number_start_not_ws (c : ascii) :
  JSON.is_number_start c = true ->
  JSON.is_ws c = false /\ (c =? "]")%char = false.
Proof.
  destruct c as [[] [] [] [] [] [] [] []]; intros H; vm_compute in H;
    try discriminate H; split; reflexivity.
Qed.

Lemma string_of_Z_cons (z : Z) :
  exists c r, JSON.string_of_Z z = String c r /\ JSON.is_number_start c = true.
Proof.
  unfold JSON.string_of_Z.
  destruct z as [|p|p]; simpl Z.to_int; unfold NilZero.string_of_int.
  - now eexists _, _.
  - destruct (Pos.to_uint p); eexists _, _; split; reflexivity.
  - eexists _, _; split; reflexivity.
Qed.

Lemma take_digits_app (a rest : string) (u : uint) (r : string) :
  JSON.take_digits a = (u, r) ->
  JSON.take_digits rest = (Nil, rest) ->
  JSON.take_digits (a ++ rest) = (u, (r ++ rest)%string).
Proof.
  intros Ha Hrest. revert u r Ha.
  induction a as [|c a IH]; intros u r Ha.
  - simpl in Ha. injection Ha as <- <-. exact Hrest.
  - simpl in *. destruct (JSON.digit c) as [d |].
    + destruct (JSON.take_digits a) as [u' r'] eqn:E.
      injection Ha as <- <-. now rewrite (IH u' r' eq_refl).
    + injection Ha as <- <-. reflexivity.
Qed.

Lemma starts_with_app (c : ascii) (a rest : string) :
  JSON.starts_with c rest = false ->
  JSON.starts_with c (a ++ rest) = JSON.starts_with c a.
Proof. destruct a; simpl; [now intros -> | reflexivity]. Qed.

Lemma tail_app (c : ascii) (a rest : string) :
  JSON.starts_with c a = true -> JSON.tail (a ++ rest) = (JSON.tail a ++ rest)%string.
Proof. destruct a; simpl; [discriminate | reflexivity]. Qed.

Lemma take_fraction_app (a rest : string) (b : bool) (r : string) :
  delimited rest = true ->
  JSON.take_fraction a = Some (b, r) ->
  JSON.take_fraction (a ++ rest) = Some (b, (r ++ rest)%string).
Proof.
  intros Hd. unfold JSON.take_fraction.
  rewrite (starts_with_app "." a rest) by now apply delimited_starts.
  destruct (JSON.starts_with "." a) eqn:Hs.
  - rewrite (tail_app "." a rest Hs).
    destruct (JSON.take_digits (JSON.tail a)) as [f r'] eqn:E.
    rewrite (take_digits_app _ rest f r' E (delimited_no_digit rest Hd)).
    destruct (JSON.no_digits f); [discriminate |]. intros H. now injection H as <- <-.
  - intros H. now injection H as <- <-.
Qed.

Lemma take_exponent_app (a rest : string) (b : bool) (r : string) :
  delimited rest = true ->
  JSON.take_exponent a = Some (b, r) ->
  JSON.take_exponent (a ++ rest) = Some (b, (r ++ rest)%string).
Proof.
  intros Hd. unfold JSON.take_exponent.
  rewrite (starts_with_app "e" a rest) by now apply delimited_starts.
  rewrite (starts_with_app "E" a rest) by now apply delimited_starts.
  destruct (JSON.starts_with "e" a || JSON.starts_with "E" a) eqn:Hs.
  - assert (Ht : JSON.tail (a ++ rest) = (JSON.tail a ++ rest)%string)
      by (destruct a; [discriminate | reflexivity]).
    rewrite Ht.
    rewrite (starts_with_app "+" (JSON.tail a) rest) by now apply delimited_starts.
    rewrite (starts_with_app "-" (JSON.tail a) rest) by now apply delimited_starts.
    destruct (JSON.starts_with "+" (JSON.tail a) || JSON.starts_with "-" (JSON.tail a))
      eqn:Hsign.
    + assert (Ht2 : JSON.tail (JSON.tail a ++ rest) = (JSON.tail (JSON.tail a) ++ rest)%string)
        by (destruct (JSON.tail a); [discriminate | reflexivity]).
      rewrite Ht2.
      destruct (JSON.take_digits (JSON.tail (JSON.tail a))) as [x r'] eqn:E.
      rewrite (take_digits_app _ rest x r' E (delimited_no_digit rest Hd)).
      destruct (JSON.no_digits x); [discriminate |]. intros H. now injection H as <- <-.
    + destruct (JSON.take_digits (JSON.tail a)) as [x r'] eqn:E.
      rewrite (take_digits_app _ rest x r' E (delimited_no_digit rest Hd)).
      destruct (JSON.no_digits x); [discriminate |]. intros H. now injection H as <- <-.
  - intros H. now injection H as <- <-.
Qed.

Lemma take_length_app (a rest : string) :
  JSON.take (String.length (a ++ rest) - String.length rest) (a ++ rest) = a.
Proof.
  rewrite string_length_app.
  replace (String.length a + String.length rest - String.length rest)
    with (String.length a) by lia.
  induction a as [|c a IH]; simpl.
  - destruct rest; reflexivity.
  - now rewrite IH.
Qed.

Lemma parse_number_real_app (l rest : string) :
  delimited rest = true ->
  JSON.parse_number l = Some (JReal l, EmptyString) ->
  JSON.parse_number (l ++ rest) = Some (JReal l, rest).
Proof.
  intros Hd. unfold JSON.parse_number.
  rewrite (starts_with_app "-" l rest) by now apply delimited_starts.
  assert (Hs : (if JSON.starts_with "-" l then JSON.tail (l ++ rest) else (l ++ rest)%string)
               = ((if JSON.starts_with "-" l then JSON.tail l else l) ++ rest)%string).
  { destruct (JSON.starts_with "-" l) eqn:E; [now apply (tail_app "-") | reflexivity]. }
  rewrite Hs.
  destruct (JSON.take_digits (if JSON.starts_with "-" l then JSON.tail l else l))
    as [u r] eqn:E.
  rewrite (take_digits_app _ rest u r E (delimited_no_digit rest Hd)).
  destruct (JSON.no_digits u || JSON.leading_zero u); [discriminate |].
  destruct (JSON.take_fraction r) as [[frac r1] |] eqn:Ef; [| discriminate].
  rewrite (take_fraction_app r rest frac r1 Hd Ef).
  destruct (JSON.take_exponent r1) as [[exp r2] |] eqn:Ee; [| discriminate].
  rewrite (take_exponent_app r1 rest exp r2 Hd Ee).
  destruct (frac || exp); [| discriminate].
  intros H. injection H as _ ->. simpl. now rewrite take_length_app.
Qed.

Lemma real_cons (l : string) (x : json * string) :
  JSON.parse_number l = Some x ->
  exists c r, l = String c r /\ JSON.is_number_start c = true.
Proof.
  destruct l as [|c r]; [discriminate |].
  intros H. exists c, r. split; [reflexivity |].
  destruct (JSON.is_number_start c) eqn:E; [reflexivity |]. exfalso.
  unfold JSON.is_number_start in E. apply orb_false_iff in E. destruct E as [E1 E2].
  unfold JSON.parse_number in H.
  change (JSON.starts_with "-" (String c r)) with (c =? "-")%char in H.
  rewrite E1 in H.
  change (JSON.take_digits (String c r))
    with (match JSON.digit c with
          | Some d => let (u, rest) := JSON.take_digits r in (d u, rest)
          | None => (Nil, String c r)
          end) in H.
  destruct (JSON.digit c); discriminate.
Qed.

Lemma quote_app (k t : string) :
  (JSON.quote k ++ t)%string
  = String dquote (JSON.escape_string k ++ String dquote t)%string.
Proof.
  unfold JSON.quote. simpl. f_equal. now rewrite string_app_assoc.
Qed.

Lemma stringify_cons (v : json) :
  json_wf v ->
  exists c r, JSON.stringify v = String c r
              /\ JSON.is_ws c = false /\ (c =? "]")%char = false.
Proof.
  destruct v as [|b|z|l|s|items|members]; intros Hwf.
  - now eexists _, _.
  - destruct b; now eexists _, _.
  - destruct (string_of_Z_cons z) as [c [r [E Hs]]].
    exists c, r. split; [exact E | now apply number_start_not_ws].
  - destruct (real_cons l _ Hwf) as [c [r [E Hs]]].
    exists c, r. split; [exact E | now apply number_start_not_ws].
  - now eexists _, _.
  - now eexists _, _.
  - now eexists _, _.
Qed.

Lemma elements_cons (x : json) (r : list json) (rest : string) :
  json_wf x ->
  exists c t, (elements (x :: r) ++ rest)%string = String c t
              /\ JSON.is_ws c = false /\ (c =? "]")%char = false.
Proof.
  intros Hwf. destruct (stringify_cons x Hwf) as [c [t [E H]]].
  destruct r as [|y r']; simpl elements; rewrite E; now eexists _, _.
Qed.

Lemma parse_elements_stringify (items : list json) :
  items <> [] -> Forall parses_back items -> Forall json_wf items ->
  forall fuel rest,
    size_items items <= fuel -> delimited rest = true ->
    JSON.parse_elements fuel (elements items ++ String "]" rest) = Some (items, rest).
Proof.
  induction items as [|x r IH]; [contradiction |].
  intros _ HP Hwf fuel rest Hfuel Hd.
  inversion HP as [|? ? Hx HPr]; subst. inversion Hwf as [|? ? Hwx Hwr]; subst.
  destruct fuel as [|f]; [simpl in Hfuel; lia |]. simpl in Hfuel.
  destruct r as [|y r'].
  - change (elements [x]) with (JSON.stringify x).
    change (JSON.parse_elements (S f) (JSON.stringify x ++ String "]" rest))
      with (match JSON.parse_value f (JSON.stringify x ++ String "]" rest) with
            | None => None
            | Some (v, s1) =>
                match JSON.skip_ws s1 with
                | String c r =>
                    if (c =? ",")%char then
                      match JSON.parse_elements f r with
                      | Some (vs, s2) => Some (v :: vs, s2)
                      | None => None
                      end
                    else if (c =? "]")%char then Some ([v], r)
                    else None
                | EmptyString => None
                end
            end).
    rewrite (Hx Hwx f (String "]" rest)); [reflexivity | lia | reflexivity].
  - change (elements (x :: y :: r'))
      with (JSON.stringify x ++ "," ++ elements (y :: r'))%string.
    rewrite string_app_assoc.
    change (("," ++ elements (y :: r')) ++ String "]" rest)%string
      with (String "," (elements (y :: r') ++ String "]" rest)).
    change (JSON.parse_elements (S f) ?s)
      with (match JSON.parse_value f s with
            | None => None
            | Some (v, s1) =>
                match JSON.skip_ws s1 with
                | String c r =>
                    if (c =? ",")%char then
                      match JSON.parse_elements f r with
                      | Some (vs, s2) => Some (v :: vs, s2)
                      | None => None
                      end
                    else if (c =? "]")%char then Some ([v], r)
                    else None
                | EmptyString => None
                end
            end).
    rewrite (Hx Hwx f (String "," (elements (y :: r') ++ String "]" rest)));
      [| lia | reflexivity].
    change (JSON.skip_ws (String "," ?t)) with (String "," t).
    change ("," =? ",")%char with true. cbv iota.
    rewrite (IH ltac:(discriminate) HPr Hwr f rest); [reflexivity | | exact Hd].
    simpl in *. lia.
Qed.

Lemma parse_members_unfold (f : nat) (k : string) (t : string) :
  JSON.parse_members (S f) (String dquote (JSON.escape_string k ++ String dquote (String ":" t)))
  = match JSON.parse_value f t with
    | None => None
    | Some (v, s3) =>
        match JSON.skip_ws s3 with
        | String c r =>
            if (c =? ",")%char then
              match JSON.parse_members f r with
              | Some (kvs, s4) => Some ((k, v) :: kvs, s4)
              | None => None
              end
            else if (c =? "}")%char then Some ([(k, v)], r)
            else None
        | EmptyString => None
        end
    end.
Proof.
  change (JSON.parse_members (S f) (String dquote ?s))
    with (match JSON.parse_string s with
          | None => None
          | Some (k, s1) =>
              match JSON.skip_ws s1 with
              | String colon s2 =>
                  if (colon =? ":")%char then
                    match JSON.parse_value f s2 with
                    | None => None
                    | Some (v, s3) =>
                        match JSON.skip_ws s3 with
                        | String c r =>
                            if (c =? ",")%char then
                              match JSON.parse_members f r with
                              | Some (kvs, s4) => Some ((k, v) :: kvs, s4)
                              | None => None
                              end
                            else if (c =? "}")%char then Some ([(k, v)], r)
                            else None
                        | EmptyString => None
                        end
                    end
                  else None
              | EmptyString => None
              end
          end).
  rewrite parse_string_quote. reflexivity.
Qed.

Lemma parse_members_stringify (members : list (string * json)) :
  members <> [] ->
  Forall (fun kv => parses_back (snd kv)) members ->
  Forall (fun kv => json_wf (snd kv)) members ->
  forall fuel rest,
    size_members members <= fuel -> delimited rest = true ->
    JSON.parse_members fuel (pairs members ++ String "}" rest) = Some (members, rest).
Proof.
  induction members as [|[k x] r IH]; [contradiction |].
  intros _ HP Hwf fuel rest Hfuel Hd.
  inversion HP as [|? ? Hx HPr]; subst. inversion Hwf as [|? ? Hwx Hwr]; subst.
  simpl in Hx, Hwx.
  destruct fuel as [|f]; [simpl in Hfuel; lia |]. simpl in Hfuel.
  destruct r as [|y r'].
  - change (pairs [(k, x)]) with (JSON.quote k ++ ":" ++ JSON.stringify x)%string.
    rewrite string_app_assoc, quote_app.
    change ((":" ++ JSON.stringify x) ++ String "}" rest)%string
      with (String ":" (JSON.stringify x ++ String "}" rest)).
    rewrite parse_members_unfold.
    rewrite (Hx Hwx f (String "}" rest)); [reflexivity | lia | reflexivity].
  - change (pairs ((k, x) :: y :: r'))
      with (JSON.quote k ++ ":" ++ JSON.stringify x ++ "," ++ pairs (y :: r'))%string.
    rewrite string_app_assoc, quote_app.
    change ((":" ++ JSON.stringify x ++ "," ++ pairs (y :: r')) ++ String "}" rest)%string
      with (String ":" ((JSON.stringify x ++ "," ++ pairs (y :: r')) ++ String "}" rest)).
    rewrite string_app_assoc.
    change (("," ++ pairs (y :: r')) ++ String "}" rest)%string
      with (String "," (pairs (y :: r') ++ String "}" rest)).
    rewrite parse_members_unfold.
    rewrite (Hx Hwx f (String "," (pairs (y :: r') ++ String "}" rest)));
      [| lia | reflexivity].
    change (JSON.skip_ws (String "," ?t)) with (String "," t).
    change ("," =? ",")%char with true. cbv iota.
    rewrite (IH ltac:(discriminate) HPr Hwr f rest); [reflexivity | | exact Hd].
    simpl in *. lia.
Qed.

Lemma parse_value_stringify (v : json) : parses_back v.
Proof.
  induction v as [|b|z|l|s|items IH|members IH] using json_induction;
    intros Hwf fuel rest Hfuel Hd;
    (destruct fuel as [|f]; [simpl in Hfuel; lia |]).
  - reflexivity.
  - destruct b; reflexivity.
  - destruct (string_of_Z_cons z) as [c [r [E Hs]]].
    change (JSON.stringify (JNum z)) with (JSON.string_of_Z z).
    pose proof (parse_number_Z z rest Hd) as Hn.
    rewrite E in *. simpl append in *.
    now rewrite number_start_dispatch.
  - simpl in Hwf. destruct (real_cons l _ Hwf) as [c [r [E Hs]]].
    change (JSON.stringify (JReal l)) with l.
    pose proof (parse_number_real_app l rest Hd Hwf) as Hn.
    rewrite E in Hn at 1. rewrite E at 1. simpl append in *.
    now rewrite number_start_dispatch.
  - change (JSON.stringify (JStr s)) with (JSON.quote s).
    rewrite quote_app.
    change (JSON.parse_value (S f) (String dquote ?t))
      with (match JSON.parse_string t with
            | Some (str, r') => Some (JStr str, r')
            | None => None
            end).
    now rewrite parse_string_quote.
  - rewrite stringify_arr.
    destruct items as [|x r]; [reflexivity |].
    apply json_wf_arr in Hwf.
    assert (Hx : json_wf x) by now inversion Hwf.
    destruct (elements_cons x r (String "]" rest) Hx) as [c [t [E [Hws Hc]]]].
    remember (elements (x :: r)) as es eqn:Hes.
    change (("[" ++ es ++ "]") ++ rest)%string
      with (String "[" ((es ++ "]") ++ rest)).
    rewrite string_app_assoc.
    change ("]" ++ rest)%string with (String "]" rest).
    change (JSON.parse_value (S f) (String "[" ?s))
      with (if JSON.starts_with "]" (JSON.skip_ws s)
            then Some (JArr [], JSON.tail (JSON.skip_ws s))
            else match JSON.parse_elements f s with
                 | Some (its, r') => Some (JArr its, r')
                 | None => None
                 end).
    assert (Hstart : JSON.starts_with "]" (JSON.skip_ws (es ++ String "]" rest)) = false).
    { rewrite E. simpl. rewrite Hws. simpl. exact Hc. }
    rewrite Hstart. subst es.
    rewrite (parse_elements_stringify (x :: r) ltac:(discriminate) IH Hwf f rest);
      [reflexivity | | exact Hd].
    rewrite json_size_arr in Hfuel. lia.
  - rewrite stringify_obj.
    destruct members as [|[k x] r]; [reflexivity |].
    apply json_wf_obj in Hwf. destruct Hwf as [Hcanon Hwf].
    assert (E : exists t, (pairs ((k, x) :: r) ++ String "}" rest)%string = String dquote t).
    { destruct r as [|y r'].
      - change (pairs [(k, x)]) with (JSON.quote k ++ ":" ++ JSON.stringify x)%string.
        rewrite string_app_assoc, quote_app. now eexists.
      - change (pairs ((k, x) :: y :: r'))
          with (JSON.quote k ++ ":" ++ JSON.stringify x ++ "," ++ pairs (y :: r'))%string.
        rewrite string_app_assoc, quote_app. now eexists. }
    destruct E as [t E].
    remember (pairs ((k, x) :: r)) as ps eqn:Hps.
    change (("{" ++ ps ++ "}") ++ rest)%string
      with (String "{" ((ps ++ "}") ++ rest)).
    rewrite string_app_assoc.
    change ("}" ++ rest)%string with (String "}" rest).
    change (JSON.parse_value (S f) (String "{" ?s))
      with (if JSON.starts_with "}" (JSON.skip_ws s)
            then Some (JObj [], JSON.tail (JSON.skip_ws s))
            else match JSON.parse_members f s with
                 | Some (ms, r') => Some (JObj (JSON.obj_of_members ms), r')
                 | None => None
                 end).
    assert (Hstart : JSON.starts_with "}" (JSON.skip_ws (ps ++ String "}" rest)) = false).
    { rewrite E. reflexivity. }
    rewrite Hstart. subst ps.
    rewrite (parse_members_stringify ((k, x) :: r) ltac:(discriminate) IH Hwf f rest);
      [now rewrite Hcanon | | exact Hd].
    rewrite json_size_obj in Hfuel. lia.
Qed.

Lemma stringify_length_pos (v : json) :
  json_wf v -> 1 <= String.length (JSON.stringify v).
Proof.
  intros Hwf. destruct (stringify_cons v Hwf) as [c [r [E _]]]. rewrite E. simpl. lia.
Qed.

Lemma size_items_bound (items : list json) :
  Forall size_bounded items -> Forall json_wf items ->
  size_items items <= 2 * String.length (elements items) + 1.
Proof.
  induction items as [|x r IH]; intros HP Hwf; [simpl; lia |].
  inversion HP as [|? ? Hx HPr]; subst. inversion Hwf as [|? ? Hwx Hwr]; subst.
  specialize (Hx Hwx). specialize (IH HPr Hwr).
  destruct r as [|y r'].
  - change (elements [x]) with (JSON.stringify x). simpl size_items. lia.
  - change (elements (x :: y :: r'))
      with (JSON.stringify x ++ "," ++ elements (y :: r'))%string.
    rewrite string_length_app.
    change (String.length ("," ++ elements (y :: r')))
      with (S (String.length (elements (y :: r')))).
    change (size_items (x :: y :: r')) with (S (json_size x + size_items (y :: r'))).
    lia.
Qed.

Lemma size_members_bound (members : list (string * json)) :
  Forall (fun kv => size_bounded (snd kv)) members ->
  Forall (fun kv => json_wf (snd kv)) members ->
  size_members members <= 2 * String.length (pairs members) + 1.
Proof.
  induction members as [|[k x] r IH]; intros HP Hwf; [simpl; lia |].
  inversion HP as [|? ? Hx HPr]; subst. inversion Hwf as [|? ? Hwx Hwr]; subst.
  simpl in Hx, Hwx. specialize (Hx Hwx). specialize (IH HPr Hwr).
  destruct r as [|y r'].
  - change (pairs [(k, x)]) with (JSON.quote k ++ ":" ++ JSON.stringify x)%string.
    rewrite string_length_app.
    change (String.length (":" ++ JSON.stringify x))
      with (S (String.length (JSON.stringify x))).
    simpl size_members. lia.
  - change (pairs ((k, x) :: y :: r'))
      with (JSON.quote k ++ ":" ++ JSON.stringify x ++ "," ++ pairs (y :: r'))%string.
    rewrite string_length_app.
    change (String.length (":" ++ JSON.stringify x ++ "," ++ pairs (y :: r')))
      with (S (String.length (JSON.stringify x ++ "," ++ pairs (y :: r')))).
    rewrite string_length_app.
    change (String.length ("," ++ pairs (y :: r')))
      with (S (String.length (pairs (y :: r')))).
    change (size_members ((k, x) :: y :: r'))
      with (S (json_size x + size_members (y :: r'))).
    lia.
Qed.

Lemma json_size_bound (v : json) : size_bounded v.
Proof.
  induction v as [|b|z|l|s|items IH|members IH] using json_induction; intros Hwf;
    try (pose proof (stringify_length_pos _ Hwf); simpl json_size; lia).
  - rewrite json_size_arr, stringify_arr.
    apply json_wf_arr in Hwf.
    pose proof (size_items_bound items IH Hwf).
    change (String.length ("[" ++ elements items ++ "]"))
      with (S (String.length (elements items ++ "]"))).
    rewrite string_length_app. simpl String.length. lia.
  - rewrite json_size_obj, stringify_obj.
    apply json_wf_obj in Hwf. destruct Hwf as [_ Hwf].
    pose proof (size_members_bound members IH Hwf).
    change (String.length ("{" ++ pairs members ++ "}"))
      with (S (String.length (pairs members ++ "}"))).
    rewrite string_length_app. simpl String.length. lia.
Qed.

(** [JSON.parse] undoes [JSON.stringify]. *)
Lemma parse_stringify (v : json) :
  json_wf v -> JSON.parse (JSON.stringify v) = Some v.
Proof.
  intros Hwf. unfold JSON.parse.
  rewrite <- (string_app_nil_r (JSON.stringify v)) at 2.
  rewrite (parse_value_stringify v Hwf); [reflexivity | | reflexivity].
  pose proof (json_size_bound v Hwf). lia.
Qed.

(** ** The fuel of the parser *)

Lemma skip_ws_length (s : string) : String.length (JSON.skip_ws s) <= String.length s.
Proof.
  induction s as [|c r IH]; simpl; [lia |].
  destruct (JSON.is_ws c); simpl; lia.
Qed.

Lemma expect_length (w s r : string) :
  JSON.expect w s = Some r -> String.length r <= String.length s.
Proof.
  revert s. induction w as [|a w IH]; intros s; simpl.
  - intros H. injection H as <-. lia.
  - destruct s as [|b s]; [discriminate |].
    destruct (a =? b)%char; [| discriminate].
    intros H. apply IH in H. simpl. lia.
Qed.

Lemma string_units_length (s : string) :
  forall us rest, JSON.string_units s = Some (us, rest) ->
                  String.length rest < String.length s.
Proof.
  remember (String.length s) as n eqn:Hn. revert s Hn.
  induction n as [n IH] using lt_wf_ind. intros s Hn us rest.
  destruct s as [|c r]; [discriminate |].
  simpl in Hn.
  change (JSON.string_units (String c r))
    with (if (c =? dquote)%char then Some ([], r)
          else if (c =? "\")%char then
            match r with
            | String e r1 =>
                if (e =? "u")%char then
                  match r1 with
                  | String h1 (String h2 (String h3 (String h4 r2))) =>
                      match JSON.hex4 h1 h2 h3 h4 with
                      | Some n =>
                          match JSON.string_units r2 with
                          | Some (us, rest) => Some (inr n :: us, rest)
                          | None => None
                          end
                      | None => None
                      end
                  | _ => None
                  end
                else
                  match JSON.simple_escape e with
                  | Some ch =>
                      match JSON.string_units r1 with
                      | Some (us, rest) => Some (inl ch :: us, rest)
                      | None => None
                      end
                  | None => None
                  end
            | EmptyString => None
            end
          else if (N_of_ascii c <? 32)%N then None
          else
            match JSON.string_units r with
            | Some (us, rest) => Some (inl c :: us, rest)
            | None => None
            end).
  destruct (c =? dquote)%char.
  { intros H. injection H as _ <-. simpl. lia. }
  destruct (c =? "\")%char.
  { destruct r as [|e r1]; [discriminate |].
    destruct (e =? "u")%char.
    - destruct r1 as [|h1 [|h2 [|h3 [|h4 r2]]]]; try discriminate.
      destruct (JSON.hex4 h1 h2 h3 h4); [| discriminate].
      destruct (JSON.string_units r2) as [[us' rest'] |] eqn:E; [| discriminate].
      intros H. injection H as _ <-.
      apply (IH (String.length r2)) in E; simpl in *; try lia.
    - destruct (JSON.simple_escape e); [| discriminate].
      destruct (JSON.string_units r1) as [[us' rest'] |] eqn:E; [| discriminate].
      intros H. injection H as _ <-.
      apply (IH (String.length r1)) in E; simpl in *; try lia. }
  destruct (N_of_ascii c <? 32)%N; [discriminate |].
  destruct (JSON.string_units r) as [[us' rest'] |] eqn:E; [| discriminate].
  intros H. injection H as _ <-.
  apply (IH (String.length r)) in E; simpl in *; try lia.
Qed.

Lemma parse_string_length (s str rest : string) :
  JSON.parse_string s = Some (str, rest) -> String.length rest < String.length s.
Proof.
  unfold JSON.parse_string.
  destruct (JSON.string_units s) as [[us r] |] eqn:E; [| discriminate].
  intros H. injection H as _ <-. now apply string_units_length in E.
Qed.

Lemma take_digits_length (s : string) :
  forall u r, JSON.take_digits s = (u, r) ->
              String.length r <= String.length s
              /\ (JSON.no_digits u = false -> String.length r < String.length s).
Proof.
  induction s as [|c s IH]; intros u r; simpl.
  - intros H. injection H as <- <-. split; [simpl; lia | discriminate].
  - destruct (JSON.digit c) as [d |].
    + destruct (JSON.take_digits s) as [u' r'] eqn:E.
      intros H. injection H as <- <-. destruct (IH u' r' eq_refl) as [Hle _].
      split; [lia | intros _; lia].
    + intros H. injection H as <- <-. split; [simpl; lia | discriminate].
Qed.

Lemma tail_length (s : string) : String.length (JSON.tail s) <= String.length s.
Proof. destruct s; simpl; lia. Qed.

Lemma take_fraction_length (s : string) (b : bool) (r : string) :
  JSON.take_fraction s = Some (b, r) -> String.length r <= String.length s.
Proof.
  unfold JSON.take_fraction. destruct (JSON.starts_with "." s).
  - destruct (JSON.take_digits (JSON.tail s)) as [f r'] eqn:E.
    destruct (JSON.no_digits f); [discriminate |].
    intros H. injection H as _ <-.
    apply take_digits_length in E. pose proof (tail_length s). lia.
  - intros H. injection H as _ <-. lia.
Qed.

Lemma take_exponent_length (s : string) (b : bool) (r : string) :
  JSON.take_exponent s = Some (b, r) -> String.length r <= String.length s.
Proof.
  unfold JSON.take_exponent.
  destruct (JSON.starts_with "e" s || JSON.starts_with "E" s).
  - destruct (JSON.starts_with "+" (JSON.tail s) || JSON.starts_with "-" (JSON.tail s)).
    + destruct (JSON.take_digits (JSON.tail (JSON.tail s))) as [x r'] eqn:E.
      destruct (JSON.no_digits x); [discriminate |].
      intros H. injection H as _ <-.
      apply take_digits_length in E.
      pose proof (tail_length s). pose proof (tail_length (JSON.tail s)). lia.
    + destruct (JSON.take_digits (JSON.tail s)) as [x r'] eqn:E.
      destruct (JSON.no_digits x); [discriminate |].
      intros H. injection H as _ <-.
      apply take_digits_length in E. pose proof (tail_length s). lia.
  - intros H. injection H as _ <-. lia.
Qed.

Lemma parse_number_length (s : string) (v : json) (rest : string) :
  JSON.parse_number s = Some (v, rest) -> String.length rest < String.length s.
Proof.
  unfold JSON.parse_number.
  destruct (JSON.take_digits (if JSON.starts_with "-" s then JSON.tail s else s))
    as [u r] eqn:E.
  destruct (JSON.no_digits u) eqn:Hu; [discriminate |]. simpl.
  destruct (JSON.leading_zero u); [discriminate |].
  destruct (JSON.take_fraction r) as [[frac r1] |] eqn:Ef; [| discriminate].
  destruct (JSON.take_exponent r1) as [[exp r2] |] eqn:Ee; [| discriminate].
  apply take_digits_length in E. destruct E as [_ E]. specialize (E Hu).
  apply take_fraction_length in Ef. apply take_exponent_length in Ee.
  assert (Hs : String.length (if JSON.starts_with "-" s then JSON.tail s else s)
               <= String.length s)
    by (destruct (JSON.starts_with "-" s); [apply tail_length | lia]).
  destruct (frac || exp); intros H; injection H as _ <-; lia.
Qed.

Lemma parse_value_S (f : nat) (s : string) :
  JSON.parse_value (S f) s =
  match JSON.skip_ws s with
  | EmptyString => None
  | String c r =>
      if (c =? "n")%char then
        match JSON.expect "ull" r with Some r' => Some (JNull, r') | None => None end
      else if (c =? "t")%char then
        match JSON.expect "rue" r with Some r' => Some (JBool true, r') | None => None end
      else if (c =? "f")%char then
        match JSON.expect "alse" r with Some r' => Some (JBool false, r') | None => None end
      else if (c =? dquote)%char then
        match JSON.parse_string r with
        | Some (str, r') => Some (JStr str, r')
        | None => None
        end
      else if (c =? "[")%char then
        if JSON.starts_with "]" (JSON.skip_ws r)
        then Some (JArr [], JSON.tail (JSON.skip_ws r))
        else
          match JSON.parse_elements f r with
          | Some (items, r') => Some (JArr items, r')
          | None => None
          end
      else if (c =? "{")%char then
        if JSON.starts_with "}" (JSON.skip_ws r)
        then Some (JObj [], JSON.tail (JSON.skip_ws r))
        else
          match JSON.parse_members f r with
          | Some (members, r') => Some (JObj (JSON.obj_of_members members), r')
          | None => None
          end
      else if JSON.is_number_start c then JSON.parse_number (String c r)
      else None
  end.
Proof. reflexivity. Qed.

Lemma parse_elements_S (f : nat) (s : string) :
  JSON.parse_elements (S f) s =
  match JSON.parse_value f s with
  | None => None
  | Some (v, s1) =>
      match JSON.skip_ws s1 with
      | String c r =>
          if (c =? ",")%char then
            match JSON.parse_elements f r with
            | Some (vs, s2) => Some (v :: vs, s2)
            | None => None
            end
          else if (c =? "]")%char then Some ([v], r)
          else None
      | EmptyString => None
      end
  end.
Proof. reflexivity. Qed.

Lemma parse_members_S (f : nat) (s : string) :
  JSON.parse_members (S f) s =
  match JSON.skip_ws s with
  | String q s0 =>
      if (q =? dquote)%char then
        match JSON.parse_string s0 with
        | None => None
        | Some (k, s1) =>
            match JSON.skip_ws s1 with
            | String colon s2 =>
                if (colon =? ":")%char then
                  match JSON.parse_value f s2 with
                  | None => None
                  | Some (v, s3) =>
                      match JSON.skip_ws s3 with
                      | String c r =>
                          if (c =? ",")%char then
                            match JSON.parse_members f r with
                            | Some (kvs, s4) => Some ((k, v) :: kvs, s4)
                            | None => None
                            end
                          else if (c =? "}")%char then Some ([(k, v)], r)
                          else None
                      | EmptyString => None
                      end
                  end
                else None
            | EmptyString => None
            end
        end
      else None
  | EmptyString => None
  end.
Proof. reflexivity. Qed.

Lemma value_fuel_step (f : nat) :
  elements_fuel_free f -> members_fuel_free f -> value_fuel_free (S f).
Proof.
  intros HB HC s v rest. rewrite parse_value_S.
  pose proof (skip_ws_length s) as Hws.
  destruct (JSON.skip_ws s) as [|c r] eqn:Es; [discriminate |]. simpl in Hws.
  assert (Hone : forall x, (forall g, JSON.parse_value (S g) s = x) ->
                 String.length rest < String.length s ->
                 String.length rest < String.length s
                 /\ forall f', 2 * (String.length s - String.length rest) <= f' ->
                               JSON.parse_value f' s = x).
  { intros x Hx Hlt. split; [exact Hlt |]. intros [|g] Hf; [lia | apply Hx]. }
  destruct (c =? "n")%char eqn:E1.
  { destruct (JSON.expect "ull" r) as [r' |] eqn:E; [| discriminate].
    intros H. injection H as <- <-. apply expect_length in E as Hl.
    apply Hone; [| lia]. intros g. now rewrite parse_value_S, Es, E1, E. }
  destruct (c =? "t")%char eqn:E2.
  { destruct (JSON.expect "rue" r) as [r' |] eqn:E; [| discriminate].
    intros H. injection H as <- <-. apply expect_length in E as Hl.
    apply Hone; [| lia]. intros g. now rewrite parse_value_S, Es, E1, E2, E. }
  destruct (c =? "f")%char eqn:E3.
  { destruct (JSON.expect "alse" r) as [r' |] eqn:E; [| discriminate].
    intros H. injection H as <- <-. apply expect_length in E as Hl.
    apply Hone; [| lia]. intros g. now rewrite parse_value_S, Es, E1, E2, E3, E. }
  destruct (c =? dquote)%char eqn:E4.
  { destruct (JSON.parse_string r) as [[str r'] |] eqn:E; [| discriminate].
    intros H. injection H as <- <-. apply parse_string_length in E as Hl.
    apply Hone; [| lia]. intros g. now rewrite parse_value_S, Es, E1, E2, E3, E4, E. }
  destruct (c =? "[")%char eqn:E5.
  { destruct (JSON.starts_with "]" (JSON.skip_ws r)) eqn:Eb.
    - intros H. injection H as <- <-.
      pose proof (skip_ws_length r). pose proof (tail_length (JSON.skip_ws r)).
      apply Hone; [| lia]. intros g.
      now rewrite parse_value_S, Es, E1, E2, E3, E4, E5, Eb.
    - destruct (JSON.parse_elements f r) as [[items r'] |] eqn:E; [| discriminate].
      intros H. injection H as <- <-.
      destruct (HB r items r' E) as [Hl Hf]. split; [lia |].
      intros [|g] Hg; [lia |].
      rewrite parse_value_S, Es, E1, E2, E3, E4, E5, Eb, (Hf g); [reflexivity | lia]. }
  destruct (c =? "{")%char eqn:E6.
  { destruct (JSON.starts_with "}" (JSON.skip_ws r)) eqn:Eb.
    - intros H. injection H as <- <-.
      pose proof (skip_ws_length r). pose proof (tail_length (JSON.skip_ws r)).
      apply Hone; [| lia]. intros g.
      now rewrite parse_value_S, Es, E1, E2, E3, E4, E5, E6, Eb.
    - destruct (JSON.parse_members f r) as [[members r'] |] eqn:E; [| discriminate].
      intros H. injection H as <- <-.
      destruct (HC r members r' E) as [Hl Hf]. split; [lia |].
      intros [|g] Hg; [lia |].
      rewrite parse_value_S, Es, E1, E2, E3, E4, E5, E6, Eb, (Hf g); [reflexivity | lia]. }
  destruct (JSON.is_number_start c) eqn:E7; [| discriminate].
  intros H. apply parse_number_length in H as Hl. simpl in Hl.
  apply Hone; [| lia]. intros g.
  now rewrite parse_value_S, Es, E1, E2, E3, E4, E5, E6, E7.
Qed.

Lemma elements_fuel_step (f : nat) :
  value_fuel_free f -> elements_fuel_free f -> elements_fuel_free (S f).
Proof.
  intros HA HB s vs rest. rewrite parse_elements_S.
  destruct (JSON.parse_value f s) as [[v s1] |] eqn:Ev; [| discriminate].
  destruct (HA s v s1 Ev) as [Hl1 Hf1].
  pose proof (skip_ws_length s1) as Hws.
  destruct (JSON.skip_ws s1) as [|c r] eqn:Es; [discriminate |]. simpl in Hws.
  destruct (c =? ",")%char eqn:E1.
  - destruct (JSON.parse_elements f r) as [[vs' s2] |] eqn:Ee; [| discriminate].
    intros H. injection H as <- <-.
    destruct (HB r vs' s2 Ee) as [Hl2 Hf2]. split; [lia |].
    intros [|g] Hg; [lia |].
    rewrite parse_elements_S, (Hf1 g), Es, E1, (Hf2 g); [reflexivity | lia | lia].
  - destruct (c =? "]")%char eqn:E2; [| discriminate].
    intros H. injection H as <- <-. split; [lia |].
    intros [|g] Hg; [lia |].
    rewrite parse_elements_S, (Hf1 g), Es, E1, E2; [reflexivity | lia].
Qed.

Lemma members_fuel_step (f : nat) :
  value_fuel_free f -> members_fuel_free f -> members_fuel_free (S f).
Proof.
  intros HA HC s kvs rest. rewrite parse_members_S.
  pose proof (skip_ws_length s) as Hws0.
  destruct (JSON.skip_ws s) as [|q s0] eqn:Es0; [discriminate |]. simpl in Hws0.
  destruct (q =? dquote)%char eqn:Eq; [| discriminate].
  destruct (JSON.parse_string s0) as [[k s1] |] eqn:Ek; [| discriminate].
  apply parse_string_length in Ek as Hlk.
  pose proof (skip_ws_length s1) as Hws1.
  destruct (JSON.skip_ws s1) as [|colon s2] eqn:Es1; [discriminate |]. simpl in Hws1.
  destruct (colon =? ":")%char eqn:Ec; [| discriminate].
  destruct (JSON.parse_value f s2) as [[v s3] |] eqn:Ev; [| discriminate].
  destruct (HA s2 v s3 Ev) as [Hl1 Hf1].
  pose proof (skip_ws_length s3) as Hws3.
  destruct (JSON.skip_ws s3) as [|c r] eqn:Es3; [discriminate |]. simpl in Hws3.
  destruct (c =? ",")%char eqn:E1.
  - destruct (JSON.parse_members f r) as [[kvs' s4] |] eqn:Ee; [| discriminate].
    intros H. injection H as <- <-.
    destruct (HC r kvs' s4 Ee) as [Hl2 Hf2]. split; [lia |].
    intros [|g] Hg; [lia |].
    rewrite parse_members_S, Es0, Eq, Ek, Es1, Ec, (Hf1 g), Es3, E1, (Hf2 g);
      [reflexivity | lia | lia].
  - destruct (c =? "}")%char eqn:E2; [| discriminate].
    intros H. injection H as <- <-. split; [lia |].
    intros [|g] Hg; [lia |].
    rewrite parse_members_S, Es0, Eq, Ek, Es1, Ec, (Hf1 g), Es3, E1, E2;
      [reflexivity | lia].
Qed.

Lemma parser_fuel_free (f : nat) :
  value_fuel_free f /\ elements_fuel_free f /\ members_fuel_free f.
Proof.
  induction f as [|f [HA [HB HC]]].
  - split; [| split]; intros s x rest H; discriminate H.
  - split; [| split].
    + now apply value_fuel_step.
    + now apply elements_fuel_step.
    + now apply members_fuel_step.
Qed.

(** The fuel of [JSON.parse] never decides: whatever the parser finds
    with some fuel, it finds with the fuel [JSON.parse] gives it. *)
Lemma parse_fuel_suffices (s : string) (f : nat) (v : json) (rest : string) :
  JSON.parse_value f s = Some (v, rest) ->
  JSON.parse_value (2 * String.length s + 2) s = Some (v, rest).
Proof.
  intros H. destruct (parser_fuel_free f) as [HA _].
  destruct (HA s v rest H) as [_ Hf]. apply Hf. lia.
Qed.

Lemma parse_iff (s : string) (v : json) :
  JSON.parse s = Some v <->
  exists f rest, JSON.parse_value f s = Some (v, rest)
                 /\ JSON.skip_ws rest = EmptyString.
Proof.
  unfold JSON.parse. split.
  - destruct (JSON.parse_value (2 * String.length s + 2) s) as [[v' rest] |] eqn:E;
      [| discriminate].
    destruct (JSON.skip_ws rest) eqn:Er; [| discriminate].
    intros H. injection H as <-. now exists (2 * String.length s + 2), rest.
  - intros [f [rest [H Hr]]].
    now rewrite (parse_fuel_suffices s f v rest H), Hr.
Qed.

(** ** The marshaling adapter *)

Lemma stored_ai_object_wf (content : string) (tool_calls : list json) :
  Forall json_wf tool_calls ->
  json_wf (JObj [("content", JStr content); ("toolCalls", JArr tool_calls)]).
Proof.
  intros H. apply json_wf_obj. split; [reflexivity |].
  repeat constructor. simpl snd. now apply json_wf_arr.
Qed.

Lemma parseAIMessageContent_stringify (content : string) (tool_calls : list json) :
  Forall json_wf tool_calls ->
  ChatHubMessageHistory.parseAIMessageContent
    (JSON.stringify (JObj [("content", JStr content); ("toolCalls", JArr tool_calls)]))
  = (Some content, JArr tool_calls).
Proof.
  intros H. unfold ChatHubMessageHistory.parseAIMessageContent.
  rewrite (parse_stringify _ (stored_ai_object_wf content tool_calls H)).
  reflexivity.
Qed.

(** C4.  An assistant message with string content and tool calls,
    written through [addMessage] to a facade of the service, is stored
    as one entry; read back through [convertToLangChainMessage], that
    entry gives an AI message with the same content and the same tool
    calls. *)
Theorem assistant_message_round_trip
        (sessionId memoryNodeId : string) (turnId : option string) (ownerId : string)
        (workflowId : option string) (agentName : string)
        (content : string) (name : option string) (tool_calls : list json)
        (w : World) :
  Forall json_wf tool_calls ->
  exists id w',
    let stored :=
      ChatHubMemory.mk id sessionId memoryNodeId turnId "ai"
        (JSON.stringify (JObj [("content", JStr content);
                               ("toolCalls", JArr tool_calls)]))
        (Some "AI") (now w) in
    ChatHubMessageHistory.addMessage
      (makeChatHubOperations sessionId memoryNodeId turnId ownerId workflowId agentName)
      (AIMessage (Text content) name (Some tool_calls)) w
    = (Ok tt, w')
    /\ memory w' = memory w ++ [stored]
    /\ ChatHubMessageHistory.convertToLangChainMessage (toEntry stored)
       = Ok (new_AIMessage (Some content) (Some "AI") (JArr tool_calls)).
Proof.
  intros Hwf.
  destruct (ops_addAIMessage_eq sessionId memoryNodeId turnId
              (JSON.stringify (JObj [("content", JStr content);
                                     ("toolCalls", JArr tool_calls)])) w)
    as [id [w' [Hadd [Hmem _]]]].
  exists id, w'. split; [exact Hadd |]. split; [exact Hmem |].
  unfold ChatHubMessageHistory.convertToLangChainMessage, toEntry. simpl.
  now rewrite (parseAIMessageContent_stringify content tool_calls Hwf).
Qed.

Lemma weather_call_wf : json_wf weather_call.
Proof. vm_compute. repeat split. Qed.

Lemma assistant_message_round_trip_witness :
  Forall json_wf [weather_call]
  /\ exists id w',
      ChatHubMessageHistory.addMessage
        (makeChatHubOperations "s1" "n1" (Some "T2") "u1" None "Helper")
        (AIMessage (Text "Let me check.") None (Some [weather_call])) chat_world
      = (Ok tt, w')
      /\ exists stored,
          memory w' = memory chat_world ++ [stored]
          /\ ChatHubMemory.id stored = id
          /\ ChatHubMessageHistory.convertToLangChainMessage (toEntry stored)
             = Ok (new_AIMessage (Some "Let me check.") (Some "AI") (JArr [weather_call])).
Proof.
  assert (Hwf : Forall json_wf [weather_call])
    by (constructor; [exact weather_call_wf | constructor]).
  split; [exact Hwf |].
  destruct (assistant_message_round_trip "s1" "n1" (Some "T2") "u1" None "Helper"
              "Let me check." None [weather_call] chat_world Hwf)
    as [id [w' [H1 [H2 H3]]]].
  exists id, w'. split; [exact H1 |].
  eexists. split; [exact H2 |]. split; [reflexivity | exact H3].
Defined.

Lemma js_get_threw_iff (v : json) (k : string) (e : Error) :
  js_get v k = Threw e <->
  v = JNull /\ e = TypeError "Cannot read properties of null".
Proof.
  destruct v; simpl; (split; [intros H | intros [H He]]); try discriminate.
  - injection H as <-. now split.
  - now subst e.
Qed.

(** The read direction fails on exactly one kind of entry: a tool entry
    whose content is the JSON text [null]. *)
Lemma convertToLangChainMessage_threw_iff (entry : ChatHubMemoryEntry.t) (e : Error) :
  ChatHubMessageHistory.convertToLangChainMessage entry = Threw e <->
  ChatHubMemoryEntry.role entry = "tool"
  /\ JSON.parse (ChatHubMemoryEntry.content entry) = Some JNull
  /\ e = TypeError "Cannot read properties of null".
Proof.
  unfold ChatHubMessageHistory.convertToLangChainMessage.
  destruct (String.eqb_spec (ChatHubMemoryEntry.role entry) "human") as [Hh | Hh].
  { split; [discriminate | intros [Hr _]; rewrite Hh in Hr; discriminate]. }
  destruct (String.eqb_spec (ChatHubMemoryEntry.role entry) "ai") as [Ha | Ha].
  { split; [discriminate | intros [Hr _]; rewrite Ha in Hr; discriminate]. }
  destruct (String.eqb_spec (ChatHubMemoryEntry.role entry) "system") as [Hs | Hs].
  { split; [discriminate | intros [Hr _]; rewrite Hs in Hr; discriminate]. }
  destruct (String.eqb_spec (ChatHubMemoryEntry.role entry) "tool") as [Ht | Ht].
  2:{ split; [discriminate | intros [Hr _]; contradiction]. }
  unfold ChatHubMessageHistory.parseToolMessageContent.
  destruct (JSON.parse (ChatHubMemoryEntry.content entry)) as [parsed |].
  - destruct parsed; simpl; (split; [intros H | intros [_ [H He]]]); try discriminate.
    + injection H as <-. now repeat split.
    + now subst e.
  - simpl. split; [discriminate | intros [_ [H _]]; discriminate].
Qed.

(** X6.  Where [JSON.parse] rejects the content of an entry, the
    conversion does not fail: the raw content is the text of a human or
    AI message, the AI message has no tool calls, and a tool message
    gets 'unknown' as its call id and name and the raw content, as a
    JSON string, as its content. *)
Lemma malformed_content_falls_back (entry : ChatHubMemoryEntry.t) :
  JSON.parse (ChatHubMemoryEntry.content entry) = None ->
  (ChatHubMemoryEntry.role entry = "human" ->
   ChatHubMessageHistory.convertToLangChainMessage entry
   = Ok (new_HumanMessage (Some (ChatHubMemoryEntry.content entry))
           (ChatHubMemoryEntry.name entry)))
  /\ (ChatHubMemoryEntry.role entry = "ai" ->
      ChatHubMessageHistory.convertToLangChainMessage entry
      = Ok (new_AIMessage (Some (ChatHubMemoryEntry.content entry))
              (ChatHubMemoryEntry.name entry) (JArr [])))
  /\ (ChatHubMemoryEntry.role entry = "tool" ->
      ChatHubMessageHistory.convertToLangChainMessage entry
      = Ok (new_ToolMessage
              (Some (JSON.stringify (JStr (ChatHubMemoryEntry.content entry))))
              (Some (JStr "unknown")) (Some (JStr "unknown")))).
Proof.
  intros Hp. unfold ChatHubMessageHistory.convertToLangChainMessage,
    ChatHubMessageHistory.parseHumanMessageContent,
    ChatHubMessageHistory.parseAIMessageContent,
    ChatHubMessageHistory.parseToolMessageContent.
  rewrite Hp. repeat split; intros ->; reflexivity.
Qed.

(** An entry whose role is none of human, ai, tool and system becomes a
    system message. *)
Lemma unknown_role_is_system (entry : ChatHubMemoryEntry.t) :
  ChatHubMemoryEntry.role entry <> "human" ->
  ChatHubMemoryEntry.role entry <> "ai" ->
  ChatHubMemoryEntry.role entry <> "tool" ->
  ChatHubMessageHistory.convertToLangChainMessage entry
  = Ok (new_SystemMessage (ChatHubMemoryEntry.content entry)).
Proof.
  intros Hh Ha Ht. unfold ChatHubMessageHistory.convertToLangChainMessage.
  destruct (String.eqb_spec (ChatHubMemoryEntry.role entry) "human"); [contradiction |].
  destruct (String.eqb_spec (ChatHubMemoryEntry.role entry) "ai"); [contradiction |].
  destruct (String.eqb_spec (ChatHubMemoryEntry.role entry) "tool"); [contradiction |].
  destruct (String.eqb (ChatHubMemoryEntry.role entry) "system"); reflexivity.
Qed.

(** C7 fails on the code.  The stored tool entry [e_tool_null] has the
    content [null]: [JSON.parse] accepts it, [parseToolMessageContent]
    returns the parsed [null] from inside its [try], and reading
    [toolOutput] off it outside the [try] throws.  The conversion fails
    and with it the whole history load of [getMessages], while the
    human and AI parsers, which read the property inside their [try],
    fall back to the raw payload on the same content. *)
Theorem convertToLangChainMessage_tool_null_throws :
  JSON.parse "null" = Some JNull
  /\ ChatHubMessageHistory.convertToLangChainMessage (toEntry e_tool_null)
     = Threw (TypeError "Cannot read properties of null")
  /\ fst (ChatHubMessageHistory.getMessages
            (makeChatHubOperations "s1" "n1" (Some "T3") "u1" None "Helper")
            null_tool_world)
     = Threw (TypeError "Cannot read properties of null")
  /\ ChatHubMessageHistory.parseHumanMessageContent "null" = Some "null"
  /\ ChatHubMessageHistory.parseAIMessageContent "null" = (Some "null", JArr []).
Proof.
  repeat split; vm_compute; reflexivity.
Qed.

(** ** The properties on the example worlds *)

(** The scenario of the retried answer: memory node n1 reads the entry
    of turn T2 only, although the entry of T1 is still stored. *)
Lemma getMemory_after_retry :
  fst (getMemory (makeChatHubOperations "s1" "n1" (Some "T3") "u1" None "Helper")
         chat_world)
  = Ok [toEntry e_t2].
Proof. vm_compute. reflexivity. Qed.

Lemma getChatHubProxy_access_control_witness :
  (isAllowedNode (INode.type agent_node) = false
   /\ exists e, getChatHubProxy support_workflow agent_node "s1" "n1" None (Some "u1")
                  chat_world = (Threw e, chat_world))
  /\ (isAllowedNode (INode.type allowed_node) = true
      /\ exists e, getChatHubProxy support_workflow allowed_node "s1" "n1" None None
                     chat_world = (Threw e, chat_world))
  /\ (isAllowedNode (INode.type allowed_node) = true /\ "u1" <> EmptyString
      /\ getChatHubProxy support_workflow allowed_node "s1" "n1" None (Some "u1") chat_world
         = (Ok (makeChatHubOperations "s1" "n1" None "u1" (Some "wf1") "Helper"),
            chat_world)).
Proof.
  split; [| split].
  - split; [reflexivity |]. eexists.
    apply (proj1 (getChatHubProxy_access_control support_workflow agent_node
                    "s1" "n1" None (Some "u1") chat_world)).
    reflexivity.
  - split; [reflexivity |]. eexists.
    apply (proj1 (proj2 (getChatHubProxy_access_control support_workflow allowed_node
                           "s1" "n1" None None chat_world))).
    + reflexivity.
    + left. reflexivity.
  - split; [reflexivity |]. split; [discriminate |].
    apply (proj2 (proj2 (getChatHubProxy_access_control support_workflow allowed_node
                           "s1" "n1" None (Some "u1") chat_world)) "u1").
    + reflexivity.
    + reflexivity.
    + discriminate.
Defined.

(** C2 as stated fails where the messages of the session do not form a
    tree: with two messages without a parent no chain is built and
    [getMemory] rejects, although the store holds an entry of this
    session and this memory node. *)
Lemma getMemory_rejects_without_chain :
  buildMessageHistory (session_messages "s1" two_roots_world)
  = Threw (JsError "Message tree has multiple roots")
  /\ In e_t1 (memory two_roots_world)
  /\ fst (getMemory (makeChatHubOperations "s1" "n1" (Some "T3") "u1" None "Helper")
            two_roots_world)
     = Threw (JsError "Message tree has multiple roots")
  /\ forall r w',
      getMemory (makeChatHubOperations "s1" "n1" (Some "T3") "u1" None "Helper")
        two_roots_world
      <> (Ok r, w').
Proof.
  split; [reflexivity |]. split; [now left |]. split; [reflexivity |].
  intros r w' H. vm_compute in H. discriminate.
Qed.

Lemma getMemory_returns_entries_of_chain_turns_witness :
  buildMessageHistory (session_messages "s1" chat_world) = Ok [m_root; m_b]
  /\ exists w',
      getMemory (makeChatHubOperations "s1" "n1" (Some "T3") "u1" None "Helper") chat_world
      = (Ok [ChatHubMemoryEntry.mk "e2" "ai" (jtext "{'content':'hey','toolCalls':[]}")
               (Some "AI") 20], w')
      /\ memory w' = memory chat_world.
Proof.
  split; [reflexivity |].
  destruct (proj1 (getMemory_returns_entries_of_chain_turns "s1" "n1" (Some "T3") "u1" None
                     "Helper" chat_world) [m_root; m_b] eq_refl)
    as [es [r [w' [H1 [H2 [H3 [_ [_ [_ [_ [_ [H9 _]]]]]]]]]]]].
  exists w'. split; [| exact H9].
  rewrite H1. f_equal. f_equal.
  vm_compute in H2. subst es.
  inversion H3 as [| e x l l' [Ha [Hb [Hc [Hd He]]]] Hrest]; subst.
  inversion Hrest; subst.
  destruct x; simpl in *; subst. reflexivity.
Defined.

Lemma getMemory_empty_without_assistant_messages_witness :
  buildMessageHistory (session_messages "s1" fresh_world) = Ok [m_root]
  /\ (forall m, In m [m_root] -> ChatHubMessage.role m <> "ai")
  /\ getMemory (makeChatHubOperations "s1" "n1" (Some "T1") "u1" None "Helper") fresh_world
     = (Ok [], log_calls [GetManyBySessionId "s1"] fresh_world).
Proof.
  assert (Hno : forall m, In m [m_root] -> ChatHubMessage.role m <> "ai").
  { intros m [<- | []]. discriminate. }
  split; [reflexivity |]. split; [exact Hno |].
  apply (getMemory_empty_without_assistant_messages "s1" "n1" (Some "T1") "u1" None
           "Helper" fresh_world [m_root] eq_refl Hno).
Defined.


Lemma addMessage_drops_unsaved_types_witness :
  _getType (SystemMessage (Text "Be brief.")) <> "human"
  /\ _getType (SystemMessage (Text "Be brief.")) <> "ai"
  /\ _getType (SystemMessage (Text "Be brief.")) <> "tool"
  /\ ChatHubMessageHistory.addMessage
       (makeChatHubOperations "s1" "n1" (Some "T2") "u1" None "Helper")
       (SystemMessage (Text "Be brief.")) chat_world
     = (Ok tt, chat_world).
Proof.
  assert (H1 : _getType (SystemMessage (Text "Be brief.")) <> "human") by discriminate.
  assert (H2 : _getType (SystemMessage (Text "Be brief.")) <> "ai") by discriminate.
  assert (H3 : _getType (SystemMessage (Text "Be brief.")) <> "tool") by discriminate.
  split; [exact H1 |]. split; [exact H2 |]. split; [exact H3 |].
  apply (proj1 (addMessage_drops_unsaved_types
                  (makeChatHubOperations "s1" "n1" (Some "T2") "u1" None "Helper")
                  {| ChatHubMessageHistoryB.addHumanMessage := fun _ => ret tt;
                     ChatHubMessageHistoryB.addAIMessage := fun _ _ => ret tt;
                     ChatHubMessageHistoryB.addToolMessage := fun _ _ _ _ => ret tt |}
                  (SystemMessage (Text "Be brief.")) chat_world H1 H2 H3)).
Defined.



(** C9 as stated fails on the code: two executions bootstrap the fresh
    session s1; the one whose check ran first creates last and gets the
    uniqueness violation of the repository as its result. *)
Lemma ensureSession_race_surfaces_error :
  let r := ensureSession_race ("s1", "u1", Some "wf1", "Helper")
             ("s1", "u1", Some "wf1", "Helper") None None empty_world in
  fst r = Threw (QueryFailedError "duplicate key value violates unique constraint")
  /\ fst r <> Ok tt
  /\ List.length (sessions (snd r)) = 1.
Proof.
  split; [reflexivity |]. split; [discriminate | reflexivity].
Qed.

Lemma ensureSession_duplicate_create_is_surfaced_witness :
  (forall s, In s (sessions empty_world) -> ChatHubSession.id s <> "s1")
  /\ fst (ensureSession_race ("s1", "u1", Some "wf1", "Helper")
            ("s1", "u2", None, "Other") None (Some "Mine") empty_world)
     = Threw (QueryFailedError "duplicate key value violates unique constraint").
Proof.
  assert (Hfresh : forall s, In s (sessions empty_world) -> ChatHubSession.id s <> "s1")
    by (intros s []).
  split; [exact Hfresh |].
  apply (proj2 (proj2 (ensureSession_duplicate_create_is_surfaced "s1" "u1" (Some "wf1")
                         "Helper" None empty_world)) Hfresh "u2" None "Other" (Some "Mine")).
Defined.

(* ================================================================= *)
(** * Further properties of the code *)

(** ** Round trips through the adapter and the service *)

Lemma stored_human_object_wf (content : string) :
  json_wf (JObj [("content", JStr content)]).
Proof.
  apply json_wf_obj. split; [reflexivity |]. repeat constructor.
Qed.

Lemma parseHumanMessageContent_stringify (content : string) :
  ChatHubMessageHistory.parseHumanMessageContent
    (JSON.stringify (JObj [("content", JStr content)]))
  = Some content.
Proof.
  unfold ChatHubMessageHistory.parseHumanMessageContent.
  rewrite (parse_stringify _ (stored_human_object_wf content)). reflexivity.
Qed.

Lemma content_string_parses_back (m : BaseMessage) (blocks : list json) :
  message_content m = Complex blocks ->
  Forall json_wf blocks ->
  JSON.parse (content_string m) = Some (JArr blocks).
Proof.
  intros Hc Hwf. unfold content_string. rewrite Hc.
  apply parse_stringify. now apply json_wf_arr.
Qed.

(** X1.  A human message written through [addMessage] to a facade of the
    service is stored as one entry of role human, named User, under the
    session, memory node and turn of the facade.  Read back through
    [convertToLangChainMessage], the entry gives a human message with
    the text that was written, whatever that text is, and with the name
    User, whatever name the message had.  The text is the content
    itself where that is a string, and else the JSON text of the
    content blocks, from which [JSON.parse] gives the blocks back. *)
Theorem human_message_round_trip
        (sessionId memoryNodeId : string) (turnId : option string) (ownerId : string)
        (workflowId : option string) (agentName : string)
        (content : MessageContent) (name : option string) (w : World) :
  let text := content_string (HumanMessage content name) in
  exists id w',
    let stored :=
      ChatHubMemory.mk id sessionId memoryNodeId turnId "human"
        (JSON.stringify (JObj [("content", JStr text)])) (Some "User") (now w) in
    ChatHubMessageHistory.addMessage
      (makeChatHubOperations sessionId memoryNodeId turnId ownerId workflowId agentName)
      (HumanMessage content name) w
    = (Ok tt, w')
    /\ memory w' = memory w ++ [stored]
    /\ ChatHubMessageHistory.convertToLangChainMessage (toEntry stored)
       = Ok (new_HumanMessage (Some text) (Some "User"))
    /\ (forall s, content = Text s -> text = s)
    /\ (forall blocks, content = Complex blocks -> Forall json_wf blocks ->
                       JSON.parse text = Some (JArr blocks)).
Proof.
  intros text.
  destruct (ops_addHumanMessage_eq sessionId memoryNodeId turnId
              (JSON.stringify (JObj [("content", JStr text)])) w)
    as [id [w' [Hadd [Hmem _]]]].
  exists id, w'. split; [exact Hadd |]. split; [exact Hmem |].
  split; [| split].
  - unfold ChatHubMessageHistory.convertToLangChainMessage, toEntry. simpl.
    now rewrite parseHumanMessageContent_stringify.
  - intros s ->. reflexivity.
  - intros blocks -> Hwf. subst text.
    now apply (content_string_parses_back _ blocks).
Qed.

Lemma stored_tool_object_wf (toolCallId toolName : string) (toolInput toolOutput : jsval) :
  jsval_wf toolInput -> jsval_wf toolOutput ->
  json_wf (js_object [("toolCallId", Some (JStr toolCallId));
                      ("toolName", Some (JStr toolName));
                      ("toolInput", toolInput);
                      ("toolOutput", toolOutput)]).
Proof.
  intros Hi Ho. unfold js_object.
  destruct toolInput as [i |], toolOutput as [o |]; simpl in Hi, Ho;
    apply json_wf_obj; (split; [reflexivity |]); repeat constructor; assumption.
Qed.

(** What a tool entry with the content of [addToolMessage] reads back as. *)
Lemma tool_entry_reads_back (id toolCallId toolName : string)
      (toolInput toolOutput : jsval) (name : option string) (createdAt : Z) :
  jsval_wf toolInput -> jsval_wf toolOutput ->
  ChatHubMessageHistory.convertToLangChainMessage
    (ChatHubMemoryEntry.mk id "tool"
       (stored_tool_content toolCallId toolName toolInput toolOutput) name createdAt)
  = Ok (new_ToolMessage (JSON.stringify_js toolOutput)
          (Some (JStr toolCallId)) (Some (JStr toolName))).
Proof.
  intros Hi Ho.
  unfold ChatHubMessageHistory.convertToLangChainMessage,
    ChatHubMessageHistory.parseToolMessageContent, stored_tool_content. simpl.
  rewrite (parse_stringify _ (stored_tool_object_wf toolCallId toolName _ _ Hi Ho)).
  destruct toolInput as [i |], toolOutput as [o |]; reflexivity.
Qed.

Lemma escape_char_length (c : ascii) : 1 <= String.length (JSON.escape_char c).
Proof.
  unfold JSON.escape_char.
  repeat match goal with
         | |- context [if ?b then _ else _] => destruct b
         end; simpl; lia.
Qed.

Lemma escape_string_length (s : string) :
  String.length s <= String.length (JSON.escape_string s).
Proof.
  induction s as [|c r IH]; simpl; [lia |].
  rewrite string_length_app. pose proof (escape_char_length c). lia.
Qed.

Lemma quote_differs (s : string) : JSON.quote s <> s.
Proof.
  intros H. apply (f_equal String.length) in H.
  unfold JSON.quote in H. simpl in H. rewrite string_length_app in H. simpl in H.
  pose proof (escape_string_length s). lia.
Qed.

(** X3.  [addToolMessage] of a facade stores one tool entry, named after
    the tool, whose content is the JSON text of the call id, the tool
    name, the input and the output; an input or output that is
    [undefined] is left out of that text.  Read back through
    [convertToLangChainMessage], the entry gives a tool message with the
    same call id and tool name whose content is the JSON text of the
    output, and [undefined] where no output was given.  The input is
    not part of what is read back. *)
Theorem addToolMessage_read_back
        (sessionId memoryNodeId : string) (turnId : option string) (ownerId : string)
        (workflowId : option string) (agentName : string)
        (toolCallId toolName : string) (toolInput toolOutput : jsval) (w : World) :
  jsval_wf toolInput -> jsval_wf toolOutput ->
  exists id w',
    let stored :=
      ChatHubMemory.mk id sessionId memoryNodeId turnId "tool"
        (stored_tool_content toolCallId toolName toolInput toolOutput)
        (Some toolName) (now w) in
    addToolMessage
      (makeChatHubOperations sessionId memoryNodeId turnId ownerId workflowId agentName)
      toolCallId toolName toolInput toolOutput w
    = (Ok tt, w')
    /\ memory w' = memory w ++ [stored]
    /\ ChatHubMessageHistory.convertToLangChainMessage (toEntry stored)
       = Ok (new_ToolMessage (JSON.stringify_js toolOutput)
               (Some (JStr toolCallId)) (Some (JStr toolName))).
Proof.
  intros Hi Ho.
  destruct (ops_addToolMessage_eq sessionId memoryNodeId turnId toolCallId toolName
              toolInput toolOutput w) as [id [w' [Hadd [Hmem _]]]].
  exists id, w'. split; [exact Hadd |]. split; [exact Hmem |].
  unfold toEntry. simpl. now apply tool_entry_reads_back.
Qed.

(** X2.  A tool message written through [addMessage] is stored with its
    call id, its name ('unknown' where it has none) and an empty object
    as the input.  Read back, the call id and the name are the same,
    but the content is the JSON text of the content that was written: a
    string content comes back enclosed in double quotes and escaped, so
    it is never the string that was written, and [JSON.parse] of what
    comes back gives that string. *)
Theorem tool_message_read_back_encoded
        (sessionId memoryNodeId : string) (turnId : option string) (ownerId : string)
        (workflowId : option string) (agentName : string)
        (content : MessageContent) (tool_call_id : string) (name : option string)
        (w : World) :
  json_wf (content_value content) ->
  exists id w',
    let stored :=
      ChatHubMemory.mk id sessionId memoryNodeId turnId "tool"
        (stored_tool_content tool_call_id (stored_tool_name name)
           (Some (JObj [])) (Some (content_value content)))
        (Some (stored_tool_name name)) (now w) in
    ChatHubMessageHistory.addMessage
      (makeChatHubOperations sessionId memoryNodeId turnId ownerId workflowId agentName)
      (ToolMessage content tool_call_id name) w
    = (Ok tt, w')
    /\ memory w' = memory w ++ [stored]
    /\ ChatHubMessageHistory.convertToLangChainMessage (toEntry stored)
       = Ok (new_ToolMessage (Some (JSON.stringify (content_value content)))
               (Some (JStr tool_call_id)) (Some (JStr (stored_tool_name name))))
    /\ (forall s, content = Text s ->
          JSON.stringify (content_value content) = JSON.quote s
          /\ JSON.quote s <> s
          /\ JSON.parse (JSON.quote s) = Some (JStr s)).
Proof.
  intros Hwf.
  destruct (ops_addToolMessage_eq sessionId memoryNodeId turnId tool_call_id
              (stored_tool_name name) (Some (JObj [])) (Some (content_value content)) w)
    as [id [w' [Hadd [Hmem _]]]].
  exists id, w'. split; [exact Hadd |]. split; [exact Hmem |]. split.
  - unfold toEntry. simpl.
    apply (tool_entry_reads_back id tool_call_id (stored_tool_name name)
             (Some (JObj [])) (Some (content_value content))).
    + simpl. split; [reflexivity | exact I].
    + exact Hwf.
  - intros s ->. split; [reflexivity |]. split; [apply quote_differs |].
    apply (parse_stringify (JStr s)). exact I.
Qed.

(** X7.  The convenience writers: [addUserMessage] stores one human
    entry and [addAIMessage] one AI entry under the turn of the facade;
    read back, they give a human message, and an AI message without
    tool calls, with the text that was handed in. *)
Theorem convenience_writers_round_trip
        (sessionId memoryNodeId : string) (turnId : option string) (ownerId : string)
        (workflowId : option string) (agentName : string) (message : string) (w : World) :
  let f := makeChatHubOperations sessionId memoryNodeId turnId ownerId
             workflowId agentName in
  (exists stored w',
      ChatHubMessageHistory.addUserMessage f message w = (Ok tt, w')
      /\ memory w' = memory w ++ [stored]
      /\ ChatHubMemory.turnId stored = turnId
      /\ ChatHubMessageHistory.convertToLangChainMessage (toEntry stored)
         = Ok (new_HumanMessage (Some message) (Some "User")))
  /\ (exists stored w',
         ChatHubMessageHistory.addAIMessage f message w = (Ok tt, w')
         /\ memory w' = memory w ++ [stored]
         /\ ChatHubMemory.turnId stored = turnId
         /\ ChatHubMessageHistory.convertToLangChainMessage (toEntry stored)
            = Ok (new_AIMessage (Some message) (Some "AI") (JArr []))).
Proof.
  intros f. subst f. split.
  - destruct (ops_addHumanMessage_eq sessionId memoryNodeId turnId
                (JSON.stringify (JObj [("content", JStr message)])) w)
      as [id [w' [Hadd [Hmem _]]]].
    eexists. exists w'. split; [exact Hadd |]. split; [exact Hmem |].
    split; [reflexivity |].
    unfold ChatHubMessageHistory.convertToLangChainMessage, toEntry. simpl.
    now rewrite parseHumanMessageContent_stringify.
  - destruct (ops_addAIMessage_eq sessionId memoryNodeId turnId
                (JSON.stringify (JObj [("content", JStr message); ("toolCalls", JArr [])])) w)
      as [id [w' [Hadd [Hmem _]]]].
    eexists. exists w'. split; [exact Hadd |]. split; [exact Hmem |].
    split; [reflexivity |].
    unfold ChatHubMessageHistory.convertToLangChainMessage, toEntry. simpl.
    now rewrite (parseAIMessageContent_stringify message [] (Forall_nil _)).
Qed.

(** ** Loading the history *)

Lemma traverse_ok {A B : Type} (f : A -> Result B) (l : list A) (ys : list B) :
  traverse f l = Ok ys <-> Forall2 (fun x y => f x = Ok y) l ys.
Proof.
  revert ys. induction l as [|x r IH]; intros ys; simpl.
  - split.
    + intros H. injection H as <-. constructor.
    + intros H. inversion H. reflexivity.
  - destruct (f x) as [y | e] eqn:Hx.
    + destruct (traverse f r) as [zs | e] eqn:Hr.
      * split.
        -- intros H. injection H as <-. constructor; [exact Hx | now apply IH].
        -- intros H. inversion H as [| ? y' ? zs' Hy Hrest]; subst.
           rewrite Hx in Hy. injection Hy as <-.
           apply IH in Hrest. now injection Hrest as <-.
      * split; [discriminate |].
        intros H. inversion H as [| ? y' ? zs' Hy Hrest]; subst.
        apply IH in Hrest. discriminate.
    + split; [discriminate |].
      intros H. inversion H as [| ? y' ? zs' Hy Hrest]; subst.
      rewrite Hx in Hy. discriminate.
Qed.

Lemma traverse_threw {A B : Type} (f : A -> Result B) (l : list A) (e : Error) :
  traverse f l = Threw e -> exists x, In x l /\ f x = Threw e.
Proof.
  induction l as [|x r IH]; simpl; [discriminate |].
  destruct (f x) as [y | e'] eqn:Hx.
  - destruct (traverse f r) as [zs | e'] eqn:Hr; [discriminate |].
    intros H. injection H as ->.
    destruct (IH eq_refl) as [x' [Hin Hx']]. exists x'. split; [now right | exact Hx'].
  - intros H. injection H as ->. exists x. split; [now left | exact Hx].
Qed.

Lemma traverse_total {A B : Type} (f : A -> Result B) (l : list A) :
  (forall x, In x l -> exists y, f x = Ok y) -> exists ys, traverse f l = Ok ys.
Proof.
  intros H. destruct (traverse f l) as [ys | e] eqn:Ht; [now exists ys |].
  apply traverse_threw in Ht. destruct Ht as [x [Hin Hx]].
  destruct (H x Hin) as [y Hy]. congruence.
Qed.

Lemma null_tool_entry_spec (entry : ChatHubMemoryEntry.t) :
  null_tool_entry entry = true <->
  ChatHubMemoryEntry.role entry = "tool"
  /\ JSON.parse (ChatHubMemoryEntry.content entry) = Some JNull.
Proof.
  unfold null_tool_entry. rewrite andb_true_iff, String.eqb_eq.
  apply and_iff_compat_l.
  destruct (JSON.parse (ChatHubMemoryEntry.content entry)) as [[] |];
    split; intros H; try reflexivity; discriminate.
Qed.

Lemma convertToLangChainMessage_ok (entry : ChatHubMemoryEntry.t) :
  null_tool_entry entry = false ->
  exists m, ChatHubMessageHistory.convertToLangChainMessage entry = Ok m.
Proof.
  intros Hn.
  destruct (ChatHubMessageHistory.convertToLangChainMessage entry) as [m | e] eqn:Hc;
    [now exists m |].
  apply convertToLangChainMessage_threw_iff in Hc. destruct Hc as [Hr [Hp _]].
  assert (null_tool_entry entry = true) by (apply null_tool_entry_spec; now split).
  congruence.
Qed.

(** X4.  [getMessages], whatever the memory service: where [getMemory]
    rejects, [getMessages] rejects with the same error; where it
    resolves to entries none of which is a tool entry with the content
    [null], [getMessages] resolves to one message per entry, in the
    order of the entries, each the conversion of its entry; and where
    some entry is such a tool entry the whole load is rejected with a
    TypeError.  In every case the world is left as [getMemory] left
    it. *)
Theorem getMessages_one_message_per_entry
        (memoryService : IChatHubMemoryService) (w : World) :
  match getMemory memoryService w with
  | (Threw e, w') =>
      ChatHubMessageHistory.getMessages memoryService w = (Threw e, w')
  | (Ok entries, w') =>
      if existsb null_tool_entry entries
      then ChatHubMessageHistory.getMessages memoryService w
           = (Threw (TypeError "Cannot read properties of null"), w')
      else exists msgs,
          ChatHubMessageHistory.getMessages memoryService w = (Ok msgs, w')
          /\ List.length msgs = List.length entries
          /\ Forall2 (fun entry m =>
                        ChatHubMessageHistory.convertToLangChainMessage entry = Ok m)
                     entries msgs
  end.
Proof.
  unfold ChatHubMessageHistory.getMessages, bind, lift.
  destruct (getMemory memoryService w) as [[entries | e] w']; [| reflexivity].
  destruct (existsb null_tool_entry entries) eqn:Hex.
  - destruct (traverse ChatHubMessageHistory.convertToLangChainMessage entries)
      as [ms | e] eqn:Ht.
    + exfalso. apply existsb_exists in Hex. destruct Hex as [x [Hin Hx]].
      apply traverse_ok in Ht.
      clear -Hin Hx Ht. induction Ht as [| a b l l' Hab _ IH]; [destruct Hin |].
      destruct Hin as [-> | Hin]; [| now apply IH].
      apply null_tool_entry_spec in Hx. destruct Hx as [Hr Hp].
      assert (Hth : ChatHubMessageHistory.convertToLangChainMessage x
                    = Threw (TypeError "Cannot read properties of null"))
        by (apply convertToLangChainMessage_threw_iff; now repeat split).
      congruence.
    + apply traverse_threw in Ht. destruct Ht as [x [_ Hx]].
      apply convertToLangChainMessage_threw_iff in Hx.
      destruct Hx as [_ [_ ->]]. reflexivity.
  - destruct (traverse_total ChatHubMessageHistory.convertToLangChainMessage entries)
      as [ms Hms].
    { intros x Hin. apply convertToLangChainMessage_ok.
      apply (proj1 (existsb_false_iff null_tool_entry entries) Hex x Hin). }
    rewrite Hms. exists ms. split; [reflexivity |].
    apply traverse_ok in Hms. split; [| exact Hms].
    symmetry. exact (Forall2_length Hms).
Qed.

(** X5.  A human or AI entry whose content is JSON of another shape: if
    [JSON.parse] accepts the content and the value is not [null] and
    has no [content] member (a number, a boolean, a string, an array,
    an object without that member), the message is built with
    [undefined] as its content; the stored text is not used. *)
Theorem content_without_member_reads_undefined
        (entry : ChatHubMemoryEntry.t) (v : json) :
  JSON.parse (ChatHubMemoryEntry.content entry) = Some v ->
  v <> JNull ->
  (forall members, v = JObj members -> assoc "content" members = None) ->
  (ChatHubMemoryEntry.role entry = "human" ->
   ChatHubMessageHistory.convertToLangChainMessage entry
   = Ok (new_HumanMessage None (ChatHubMemoryEntry.name entry)))
  /\ (ChatHubMemoryEntry.role entry = "ai" ->
      exists tool_calls,
        ChatHubMessageHistory.convertToLangChainMessage entry
        = Ok (new_AIMessage None (ChatHubMemoryEntry.name entry) tool_calls)).
Proof.
  intros Hp Hnull Hobj.
  assert (Hget : js_get v "content" = Ok None).
  { destruct v; try reflexivity; [contradiction |].
    simpl. now rewrite (Hobj members eq_refl). }
  unfold ChatHubMessageHistory.convertToLangChainMessage,
    ChatHubMessageHistory.parseHumanMessageContent,
    ChatHubMessageHistory.parseAIMessageContent.
  rewrite Hp, Hget. split; intros ->; simpl; [reflexivity |].
  destruct (js_get v "toolCalls") as [t | e] eqn:Ht.
  - eexists. reflexivity.
  - apply js_get_threw_iff in Ht. destruct Ht as [Ht _]. contradiction.
Qed.

(** ** Batches of messages *)

(** What [addMessage] leaves behind on a facade of the service. *)
Lemma addMessage_stores (sid nid : string) (turn : option string) (owner : string)
      (wfid : option string) (agent : string) (m : BaseMessage) (w : World) :
  exists new w',
    ChatHubMessageHistory.addMessage (makeChatHubOperations sid nid turn owner wfid agent) m w
    = (Ok tt, w')
    /\ memory w' = memory w ++ new
    /\ messages w' = messages w /\ sessions w' = sessions w /\ now w' = now w
    /\ (storable m = false -> new = [])
    /\ (storable m = true ->
        exists e, new = [e]
                  /\ ChatHubMemory.role e = _getType m
                  /\ ChatHubMemory.sessionId e = sid
                  /\ ChatHubMemory.memoryNodeId e = nid
                  /\ ChatHubMemory.turnId e = turn
                  /\ ChatHubMemory.createdAt e = now w).
Proof.
  assert (Hskip : storable m = false ->
                  ChatHubMessageHistory.addMessage
                    (makeChatHubOperations sid nid turn owner wfid agent) m w
                  = (Ok tt, w)).
  { destruct m; simpl; intros H; try discriminate; reflexivity. }
  destruct (storable m) eqn:Hs.
  - destruct m as [c n | c n tc | c | c i n | c r | c n | i]; try discriminate.
    + destruct (ops_addHumanMessage_eq sid nid turn
                  (JSON.stringify
                     (js_object
                        [("content", Some (JStr (content_string (HumanMessage c n))))])) w)
        as [id [w' [Hadd [Hmem [Hmsg Hses]]]]].
      eexists. exists w'. split; [exact Hadd |]. split; [exact Hmem |].
      split; [exact Hmsg |]. split; [exact Hses |].
      split; [injection Hadd as <-; reflexivity |].
      split; [discriminate |]. intros _. eexists. now repeat split.
    + destruct (ops_addAIMessage_eq sid nid turn
                  (JSON.stringify
                     (js_object
                        [("content", Some (JStr (content_string (AIMessage c n tc))));
                         ("toolCalls",
                          Some (JArr match tc with Some l => l | None => [] end))])) w)
        as [id [w' [Hadd [Hmem [Hmsg Hses]]]]].
      eexists. exists w'.
      split; [destruct tc; exact Hadd |]. split; [exact Hmem |].
      split; [exact Hmsg |]. split; [exact Hses |].
      split; [injection Hadd as <-; reflexivity |].
      split; [discriminate |]. intros _. eexists. now repeat split.
    + destruct (ops_addToolMessage_eq sid nid turn i (stored_tool_name n)
                  (Some (JObj [])) (Some (content_value c)) w)
        as [id [w' [Hadd [Hmem [Hmsg Hses]]]]].
      eexists. exists w'. split; [exact Hadd |]. split; [exact Hmem |].
      split; [exact Hmsg |]. split; [exact Hses |].
      split; [injection Hadd as <-; reflexivity |].
      split; [discriminate |]. intros _. eexists. now repeat split.
  - exists [], w. split; [now apply Hskip |]. rewrite List.app_nil_r.
    repeat split; discriminate.
Qed.

Lemma addMessages_stores (sid nid : string) (turn : option string) (owner : string)
      (wfid : option string) (agent : string) (msgs : list BaseMessage) (w : World) :
  exists new w',
    ChatHubMessageHistory.addMessages (makeChatHubOperations sid nid turn owner wfid agent)
      msgs w
    = (Ok tt, w')
    /\ memory w' = memory w ++ new
    /\ map ChatHubMemory.role new = map _getType (filter storable msgs)
    /\ Forall (fun e => ChatHubMemory.sessionId e = sid
                        /\ ChatHubMemory.memoryNodeId e = nid
                        /\ ChatHubMemory.turnId e = turn) new
    /\ messages w' = messages w /\ sessions w' = sessions w.
Proof.
  revert w. induction msgs as [|m rest IH]; intros w.
  - exists [], w. split; [reflexivity |]. rewrite List.app_nil_r. now repeat split.
  - destruct (addMessage_stores sid nid turn owner wfid agent m w)
      as [new1 [w1 [Hadd [Hmem [Hmsg [Hses [_ [Hskip Hkeep]]]]]]]].
    destruct (IH w1) as [new2 [w2 [Hadd2 [Hmem2 [Hroles [Hall [Hmsg2 Hses2]]]]]]].
    exists (new1 ++ new2), w2.
    split.
    { simpl. unfold bind. now rewrite Hadd. }
    split; [now rewrite Hmem2, Hmem, app_assoc |].
    split; [| split; [| split; congruence]].
    + simpl. destruct (storable m) eqn:Hs.
      * destruct (Hkeep eq_refl) as [e [-> [Hr _]]]. simpl. now rewrite Hr, Hroles.
      * rewrite (Hskip eq_refl). exact Hroles.
    + apply Forall_app. split; [| exact Hall].
      destruct (storable m) eqn:Hs.
      * destruct (Hkeep eq_refl) as [e [-> [_ [H1 [H2 [H3 _]]]]]].
        constructor; [now repeat split | constructor].
      * rewrite (Hskip eq_refl). constructor.
Qed.

Lemma addMessage_row (sid nid : string) (turn : option string) (owner : string)
      (wfid : option string) (agent : string) (m : BaseMessage) (w : World) :
  match stored_fields m with
  | None =>
      storable m = false
      /\ ChatHubMessageHistory.addMessage
           (makeChatHubOperations sid nid turn owner wfid agent) m w = (Ok tt, w)
  | Some (role, content, name) =>
      storable m = true
      /\ exists id w',
          ChatHubMessageHistory.addMessage
            (makeChatHubOperations sid nid turn owner wfid agent) m w = (Ok tt, w')
          /\ memory w' = memory w ++
               [ChatHubMemory.mk id sid nid turn role content name (now w)]
  end.
Proof.
  destruct m as [c n | c n tc | c | c i n | c r | c n | i]; simpl;
    try (split; reflexivity).
  - split; [reflexivity |].
    destruct (ops_addHumanMessage_eq sid nid turn
                (JSON.stringify (JObj [("content", JStr (content_string (HumanMessage c n)))]))
                w)
      as [id [w' [Hadd [Hmem _]]]].
    now exists id, w'.
  - split; [reflexivity |].
    destruct (ops_addAIMessage_eq sid nid turn
                (JSON.stringify
                   (JObj [("content", JStr (content_string (AIMessage c n tc)));
                          ("toolCalls", JArr match tc with Some l => l | None => [] end)]))
                w)
      as [id [w' [Hadd [Hmem _]]]].
    exists id, w'. split; [destruct tc; exact Hadd | exact Hmem].
  - split; [reflexivity |].
    destruct (ops_addToolMessage_eq sid nid turn i (stored_tool_name n)
                (Some (JObj [])) (Some (content_value c)) w)
      as [id [w' [Hadd [Hmem _]]]].
    now exists id, w'.
Qed.

(** X8.  [addMessages], over any memory repository: the batch is, in
    its order, one repository write for each human, AI and tool
    message, with a fresh id, the session, the memory node and the turn
    of the facade, and the role, content and name [addMessage] and the
    writer of the service give the message, and nothing for a message
    of another type; the outcome of the batch is the outcome of these
    writes in sequence, so a write the repository rejects rejects the
    batch.  With the append-only store, which accepts every write, the
    rows appended are these, in the order of the batch. *)
Theorem addMessages_stores_in_order
        (sessionId memoryNodeId : string) (turnId : option string) (ownerId : string)
        (workflowId : option string) (agentName : string)
        (msgs : list BaseMessage) (w : World) :
  (forall create : NewMemoryEntry -> M unit,
      ChatHubMessageHistory.addMessages
        (Injected.makeChatHubOperations create sessionId memoryNodeId turnId ownerId
           workflowId agentName) msgs w
      = write_each create sessionId memoryNodeId turnId msgs w)
  /\ exists rows w',
      ChatHubMessageHistory.addMessages
        (makeChatHubOperations sessionId memoryNodeId turnId ownerId workflowId agentName)
        msgs w
      = (Ok tt, w')
      /\ memory w' = memory w ++ rows
      /\ Forall2 (fun m row =>
                    stored_fields m
                    = Some (ChatHubMemory.role row, ChatHubMemory.content row,
                            ChatHubMemory.name row)
                    /\ ChatHubMemory.role row = _getType m
                    /\ ChatHubMemory.sessionId row = sessionId
                    /\ ChatHubMemory.memoryNodeId row = memoryNodeId
                    /\ ChatHubMemory.turnId row = turnId)
                 (filter storable msgs) rows.
Proof.
  split.
  - intros create. revert w. induction msgs as [|m rest IH]; intros w; [reflexivity |].
    assert (Hstep : forall (k k' : M unit) (a : M unit),
               (forall w1, k w1 = k' w1) ->
               bind a (fun _ => k) w = bind a (fun _ => k') w).
    { intros k k' a Hk. unfold bind. destruct (a w) as [[[] | e] w1]; [apply Hk | reflexivity]. }
    destruct m as [c n | c n tc | c | c i n | c r | c n | i];
      try (simpl; unfold bind, ret; apply IH).
    + apply (Hstep _ _ _ IH).
    + destruct tc; apply (Hstep _ _ _ IH).
    + apply (Hstep _ _ _ IH).
  - revert w. induction msgs as [|m rest IH]; intros w.
    + exists [], w. split; [reflexivity |]. rewrite List.app_nil_r.
      split; [reflexivity | constructor].
    + pose proof (addMessage_row sessionId memoryNodeId turnId ownerId workflowId
                    agentName m w) as Hm.
      destruct (stored_fields m) as [[[role content] name] |] eqn:Hf.
      * destruct Hm as [Hs [id [w1 [Hadd Hmem]]]].
        destruct (IH w1) as [rows [w2 [Hadd2 [Hmem2 Hall]]]].
        exists (ChatHubMemory.mk id sessionId memoryNodeId turnId role content name (now w)
                  :: rows), w2.
        split; [simpl; unfold bind; now rewrite Hadd |].
        split; [rewrite Hmem2, Hmem, <- app_assoc; reflexivity |].
        simpl. rewrite Hs. constructor; [| exact Hall].
        simpl. split; [exact Hf |].
        split; [| now repeat split].
        destruct m; simpl in Hf; try discriminate; now injection Hf as <- _ _.
      * destruct Hm as [Hs Hadd].
        destruct (IH w) as [rows [w2 [Hadd2 [Hmem2 Hall]]]].
        exists rows, w2.
        split; [simpl; unfold bind; now rewrite Hadd |].
        split; [exact Hmem2 |]. simpl. now rewrite Hs.
Qed.

(** X9.  [addMessages] writes one message after the other and stops at
    the first write that is rejected, whatever the memory service: the
    batch is rejected with the error of that write, the world is the
    one that write left, so what the earlier messages wrote stays
    written, and the messages after it are not written. *)
Theorem addMessages_stops_at_first_failure
        (memoryService : IChatHubMemoryService)
        (done : list BaseMessage) (failing : BaseMessage) (rest : list BaseMessage)
        (w w1 w2 : World) (e : Error) :
  ChatHubMessageHistory.addMessages memoryService done w = (Ok tt, w1) ->
  ChatHubMessageHistory.addMessage memoryService failing w1 = (Threw e, w2) ->
  ChatHubMessageHistory.addMessages memoryService (done ++ failing :: rest) w
  = (Threw e, w2).
Proof.
  revert w. induction done as [|m l IH]; intros w Hdone Hfail.
  - simpl in Hdone. injection Hdone as <-. simpl. unfold bind. now rewrite Hfail.
  - simpl in *. unfold bind in *.
    destruct (ChatHubMessageHistory.addMessage memoryService m w) as [[[] | e'] w'];
      [| discriminate].
    now apply IH.
Qed.

(** ** The agent name *)

(** X10.  The agent name [extractAgentName] derives is never empty and
    never white space only, whatever the workflow: a blank [agentName]
    of the chat trigger and a blank workflow name are both passed
    over, and the default is not blank. *)
Theorem extractAgentName_never_blank (workflow : Workflow.t) :
  is_blank (extractAgentName workflow) = false
  /\ extractAgentName workflow <> EmptyString.
Proof.
  assert (H : is_blank (extractAgentName workflow) = false).
  { rewrite extractAgentName_eq. cbv zeta.
    assert (Hf : is_blank
                   match Workflow.name workflow with
                   | Some n => if negb (String.eqb n EmptyString) && negb (is_blank n)
                               then n else NAME_FALLBACK
                   | None => NAME_FALLBACK
                   end = false).
    { destruct (Workflow.name workflow) as [n |]; [| reflexivity].
      destruct (is_blank n) eqn:Hb; [now rewrite andb_false_r |].
      destruct (negb (String.eqb n EmptyString)); [exact Hb | reflexivity]. }
    destruct (chatTrigger_agentName workflow) as [[| | | | a | |] |]; try exact Hf.
    destruct (is_blank a) eqn:Ha; [exact Hf | exact Ha]. }
  split; [exact H |]. intros Heq. rewrite Heq in H. discriminate.
Qed.

Lemma find_skips {A : Type} (p : A -> bool) (pre : list A) (l : list A) :
  Forall (fun x => p x = false) pre -> find p (pre ++ l) = find p l.
Proof.
  induction 1 as [| x r Hx _ IH]; simpl; [reflexivity |]. now rewrite Hx.
Qed.

(** X11.  [extractAgentName] looks at the first chat trigger node of the
    workflow only: the nodes before it that are no chat triggers and
    all the nodes after it, further chat triggers among them, have no
    part in the result, also where the first chat trigger names no
    agent. *)
Theorem extractAgentName_first_chat_trigger
        (id name : option string) (before : list (string * INode.t))
        (key : string) (trigger : INode.t) (after : list (string * INode.t)) :
  Forall (fun kn => INode.type (snd kn) <> "@n8n/n8n-nodes-langchain.chatTrigger") before ->
  INode.type trigger = "@n8n/n8n-nodes-langchain.chatTrigger" ->
  extractAgentName (Workflow.mk id name (before ++ (key, trigger) :: after))
  = extractAgentName (Workflow.mk id name [(key, trigger)]).
Proof.
  intros Hb Ht. unfold extractAgentName. simpl.
  rewrite map_app. simpl.
  rewrite find_skips.
  - simpl. now rewrite Ht.
  - apply Forall_map. eapply Forall_impl; [| exact Hb].
    intros kn Hne. now apply String.eqb_neq.
Qed.

(** ** What a facade reads *)

Lemma ops_getMemory_fst (sid nid : string) (w : World) :
  fst (ops_getMemory sid nid w) =
  match buildMessageHistory (session_messages sid w) with
  | Ok chain =>
      Ok (map toEntry
            (order_by_createdAt
               (filter (entry_matches sid nid (extractTurnIds chain)) (memory w))))
  | Threw e => Threw e
  end.
Proof.
  destruct (buildMessageHistory (session_messages sid w)) as [chain | e] eqn:Hb.
  - destruct (ops_getMemory_selected sid nid w chain Hb) as [w' [Heq _]].
    now rewrite Heq.
  - now rewrite (ops_getMemory_threw _ _ _ _ Hb).
Qed.

(** X15.  [getMemory] only reads, whether it resolves or rejects: it
    calls the message repository once, then the memory repository at
    most once and only with a turn id set that is not empty; it makes no
    other repository call, takes no fresh identifier, and leaves the
    stored messages, memory entries and sessions as they were. *)
Theorem getMemory_read_only
        (sessionId memoryNodeId : string) (turnId : option string) (ownerId : string)
        (workflowId : option string) (agentName : string) (w : World) :
  let w' := snd (getMemory (makeChatHubOperations sessionId memoryNodeId turnId ownerId
                              workflowId agentName) w) in
  messages w' = messages w /\ memory w' = memory w /\ sessions w' = sessions w
  /\ uuids w' = uuids w
  /\ (calls w' = calls w ++ [GetManyBySessionId sessionId]
      \/ exists turnIds,
          turnIds <> []
          /\ calls w' = calls w ++ [GetManyBySessionId sessionId;
                                    GetMemoryByTurnIds sessionId memoryNodeId turnIds]).
Proof.
  simpl.
  destruct (buildMessageHistory (session_messages sessionId w)) as [chain | e] eqn:Hb.
  - rewrite (ops_getMemory_chain _ _ _ _ Hb).
    destruct (extractTurnIds chain) as [| t ts] eqn:Ht; simpl.
    + repeat split. now left.
    + repeat split. right. exists (t :: ts). split; [discriminate | reflexivity].
  - rewrite (ops_getMemory_threw _ _ _ _ Hb). simpl. repeat split. now left.
Qed.

Lemma entry_matches_of_node (sid nid : string) (tids : list string) (e : ChatHubMemory.t) :
  entry_matches sid nid tids e = true -> of_node sid nid e = true.
Proof.
  unfold entry_matches, of_node. intros H.
  apply andb_true_iff in H. tauto.
Qed.

Lemma of_node_spec (sid nid : string) (e : ChatHubMemory.t) :
  of_node sid nid e = true <->
  ChatHubMemory.sessionId e = sid /\ ChatHubMemory.memoryNodeId e = nid.
Proof.
  unfold of_node. now rewrite andb_true_iff, !String.eqb_eq.
Qed.

Lemma filter_none {A : Type} (p : A -> bool) (l : list A) :
  (forall x, In x l -> p x = false) -> filter p l = [].
Proof.
  induction l as [| x r IH]; intros H; simpl; [reflexivity |].
  rewrite (H x (or_introl eq_refl)). apply IH. intros y Hy. apply H. now right.
Qed.

Lemma filter_filter_implied {A : Type} (p q : A -> bool) (l : list A) :
  (forall x, p x = true -> q x = true) -> filter p (filter q l) = filter p l.
Proof.
  intros H. induction l as [| x r IH]; simpl; [reflexivity |].
  destruct (q x) eqn:Hq; simpl.
  - now rewrite IH.
  - destruct (p x) eqn:Hp; [| exact IH].
    apply H in Hp. congruence.
Qed.

Lemma ops_clearMemory_eq (sid nid : string) (w : World) :
  exists w',
    ops_clearMemory sid nid w = (Ok tt, w')
    /\ memory w' = filter (fun e => negb (of_node sid nid e)) (memory w)
    /\ messages w' = messages w /\ sessions w' = sessions w.
Proof.
  unfold ops_clearMemory, deleteBySessionAndNode. run.
  eexists. split; [reflexivity |]. simpl. repeat split.
Qed.

Lemma session_messages_same (sid : string) (w w' : World) :
  messages w' = messages w -> session_messages sid w' = session_messages sid w.
Proof. unfold session_messages. now intros ->. Qed.

(** X12.  Clearing and then loading: with the chain of the session
    built, [clear] on a facade of the service resolves and removes
    exactly the memory entries of the session and memory node of the
    facade, and the [getMessages] that follows resolves to no message.
    The entries of other memory nodes and of other sessions, the
    messages and the sessions stay as they were.  The repository
    follows the store interface of the specification. *)
Theorem clear_then_getMessages_empty
        (sessionId memoryNodeId : string) (turnId : option string) (ownerId : string)
        (workflowId : option string) (agentName : string)
        (w : World) (chain : list ChatHubMessage.t) :
  buildMessageHistory (session_messages sessionId w) = Ok chain ->
  exists w1,
    ChatHubMessageHistory.clear
      (makeChatHubOperations sessionId memoryNodeId turnId ownerId workflowId agentName) w
    = (Ok tt, w1)
    /\ fst (ChatHubMessageHistory.getMessages
              (makeChatHubOperations sessionId memoryNodeId turnId ownerId
                 workflowId agentName) w1)
       = Ok []
    /\ (forall e, In e (memory w1) <->
                  In e (memory w)
                  /\ ~ (ChatHubMemory.sessionId e = sessionId
                        /\ ChatHubMemory.memoryNodeId e = memoryNodeId))
    /\ messages w1 = messages w /\ sessions w1 = sessions w.
Proof.
  intros Hb.
  destruct (ops_clearMemory_eq sessionId memoryNodeId w) as [w1 [Hc [Hmem [Hmsg Hses]]]].
  exists w1. split; [exact Hc |].
  split; [| split; [| split; assumption]].
  - unfold ChatHubMessageHistory.getMessages, bind, lift. simpl.
    pose proof (ops_getMemory_fst sessionId memoryNodeId w1) as Hf.
    rewrite (session_messages_same sessionId w w1 Hmsg), Hb in Hf.
    rewrite Hmem in Hf.
    rewrite filter_none in Hf.
    + destruct (ops_getMemory sessionId memoryNodeId w1) as [[es | e] w2];
        simpl in Hf; [| discriminate].
      injection Hf as ->. reflexivity.
    + intros x Hx. apply filter_In in Hx. destruct Hx as [_ Hx].
      destruct (entry_matches sessionId memoryNodeId (extractTurnIds chain) x) eqn:Hm;
        [| reflexivity].
      apply entry_matches_of_node in Hm. rewrite Hm in Hx. discriminate.
  - intros e. rewrite Hmem, filter_In, negb_true_iff.
    apply and_iff_compat_l. rewrite <- of_node_spec.
    destruct (of_node sessionId memoryNodeId e); intuition discriminate.
Qed.

(** X13.  Memory is kept apart per session and memory node: what
    [getMemory] of a facade resolves to, or the error it rejects with,
    is the same before and after another facade, of another memory node
    or of another session, has written a batch of messages through
    [addMessages], and the same before and after that other facade has
    cleared its memory.  The repository follows the store interface of
    the specification. *)
Theorem memory_isolated_between_nodes
        (sessionId memoryNodeId : string) (turnId : option string) (ownerId : string)
        (workflowId : option string) (agentName : string)
        (sessionId' memoryNodeId' : string) (turnId' : option string) (ownerId' : string)
        (workflowId' : option string) (agentName' : string)
        (msgs : list BaseMessage) (w : World) :
  sessionId' <> sessionId \/ memoryNodeId' <> memoryNodeId ->
  let reader := makeChatHubOperations sessionId memoryNodeId turnId ownerId
                  workflowId agentName in
  let other := makeChatHubOperations sessionId' memoryNodeId' turnId' ownerId'
                 workflowId' agentName' in
  fst (getMemory reader (snd (ChatHubMessageHistory.addMessages other msgs w)))
  = fst (getMemory reader w)
  /\ fst (getMemory reader (snd (ChatHubMessageHistory.clear other w)))
     = fst (getMemory reader w).
Proof.
  intros Hne reader other. subst reader other.
  change (getMemory (makeChatHubOperations sessionId memoryNodeId turnId ownerId
                       workflowId agentName))
    with (ops_getMemory sessionId memoryNodeId).
  assert (Hoff : forall e, of_node sessionId memoryNodeId e = true ->
                           of_node sessionId' memoryNodeId' e = false).
  { intros e He. apply of_node_spec in He. destruct He as [H1 H2].
    destruct (of_node sessionId' memoryNodeId' e) eqn:Ho; [| reflexivity].
    apply of_node_spec in Ho. destruct Ho as [H3 H4].
    destruct Hne as [Hne | Hne]; exfalso; apply Hne; congruence. }
  split.
  - destruct (addMessages_stores sessionId' memoryNodeId' turnId' ownerId' workflowId'
                agentName' msgs w)
      as [new [w' [Hadd [Hmem [_ [Hall [Hmsg _]]]]]]].
    rewrite Hadd. simpl.
    rewrite !ops_getMemory_fst, (session_messages_same sessionId w w' Hmsg), Hmem.
    destruct (buildMessageHistory (session_messages sessionId w)) as [chain | e];
      [| reflexivity].
    rewrite filter_app.
    rewrite (filter_none _ new); [now rewrite List.app_nil_r |].
    intros x Hx. rewrite Forall_forall in Hall. destruct (Hall x Hx) as [H1 [H2 _]].
    destruct (entry_matches sessionId memoryNodeId (extractTurnIds chain) x) eqn:Hm;
      [| reflexivity].
    apply entry_matches_of_node in Hm. apply Hoff in Hm.
    assert (of_node sessionId' memoryNodeId' x = true) by (apply of_node_spec; now split).
    congruence.
  - destruct (ops_clearMemory_eq sessionId' memoryNodeId' w) as [w' [Hc [Hmem [Hmsg _]]]].
    change (ChatHubMessageHistory.clear _ w)
      with (ops_clearMemory sessionId' memoryNodeId' w).
    rewrite Hc. simpl.
    rewrite !ops_getMemory_fst, (session_messages_same sessionId w w' Hmsg), Hmem.
    destruct (buildMessageHistory (session_messages sessionId w)) as [chain | e];
      [| reflexivity].
    rewrite filter_filter_implied; [reflexivity |].
    intros x Hx. apply entry_matches_of_node in Hx. apply Hoff in Hx. now rewrite Hx.
Qed.

Lemma order_by_createdAt_snoc (l : list ChatHubMemory.t) (e : ChatHubMemory.t) :
  Permutation (order_by_createdAt (l ++ [e])) (e :: order_by_createdAt l).
Proof.
  eapply perm_trans; [apply Permutation_sym, order_by_createdAt_perm |].
  eapply perm_trans; [apply Permutation_app_comm |]. simpl.
  apply perm_skip, order_by_createdAt_perm.
Qed.

(** X14.  When a written entry becomes readable: with the chain of the
    session built, a human, AI or tool message written through
    [addMessage] to a facade of the service is stored as one entry, and
    the [getMemory] of the same facade that follows resolves to what it
    resolved to before together with that entry if the turn of the
    facade is among the turn ids of the chain, and to exactly what it
    resolved to before if it is not (the facade has no turn, or the AI
    message of its turn is not on the chain).  The repository follows
    the store interface of the specification. *)
Theorem written_entry_read_once_turn_on_chain
        (sessionId memoryNodeId : string) (turnId : option string) (ownerId : string)
        (workflowId : option string) (agentName : string)
        (message : BaseMessage) (w : World) (chain : list ChatHubMessage.t) :
  buildMessageHistory (session_messages sessionId w) = Ok chain ->
  storable message = true ->
  let f := makeChatHubOperations sessionId memoryNodeId turnId ownerId
             workflowId agentName in
  exists e w' before after,
    ChatHubMessageHistory.addMessage f message w = (Ok tt, w')
    /\ memory w' = memory w ++ [e]
    /\ ChatHubMemory.role e = _getType message
    /\ fst (getMemory f w) = Ok before
    /\ fst (getMemory f w') = Ok after
    /\ ((exists t, turnId = Some t /\ In t (extractTurnIds chain)) ->
        Permutation after (toEntry e :: before))
    /\ ((forall t, turnId = Some t -> ~ In t (extractTurnIds chain)) ->
        after = before).
Proof.
  intros Hb Hs f. subst f.
  destruct (addMessage_stores sessionId memoryNodeId turnId ownerId workflowId
              agentName message w)
    as [new [w' [Hadd [Hmem [Hmsg [_ [_ [_ Hkeep]]]]]]]].
  destruct (Hkeep Hs) as [e [-> [Hr [H1 [H2 [H3 _]]]]]].
  exists e, w'. eexists. eexists.
  split; [exact Hadd |]. split; [exact Hmem |]. split; [exact Hr |].
  simpl. rewrite !ops_getMemory_fst, (session_messages_same sessionId w w' Hmsg), Hb, Hmem.
  split; [reflexivity |]. split; [reflexivity |].
  rewrite filter_app. simpl.
  split.
  - intros [t [Ht Hin]].
    replace (entry_matches sessionId memoryNodeId (extractTurnIds chain) e) with true.
    2:{ symmetry. apply entry_matches_spec. repeat split; try assumption.
        exists t. split; [congruence | exact Hin]. }
    change (toEntry e :: map toEntry ?l) with (map toEntry (e :: l)).
    apply Permutation_map, order_by_createdAt_snoc.
  - intros Hout.
    replace (entry_matches sessionId memoryNodeId (extractTurnIds chain) e) with false.
    2:{ symmetry.
        destruct (entry_matches sessionId memoryNodeId (extractTurnIds chain) e) eqn:Hm;
          [| reflexivity].
        apply entry_matches_spec in Hm. destruct Hm as [_ [_ [t [Ht Hin]]]].
        exfalso. apply (Hout t); [congruence | exact Hin]. }
    now rewrite List.app_nil_r.
Qed.

(** ** The further properties on the example worlds *)

Lemma tool_message_read_back_encoded_witness :
  json_wf (content_value (Text "22 degrees"))
  /\ exists id w',
      ChatHubMessageHistory.addMessage
        (makeChatHubOperations "s1" "n1" (Some "T2") "u1" None "Helper")
        (ToolMessage (Text "22 degrees") "call_1" (Some "get_weather")) chat_world
      = (Ok tt, w')
      /\ exists stored,
          memory w' = memory chat_world ++ [stored]
          /\ ChatHubMemory.id stored = id
          /\ ChatHubMessageHistory.convertToLangChainMessage (toEntry stored)
             = Ok (new_ToolMessage (Some (jtext "'22 degrees'"))
                     (Some (JStr "call_1")) (Some (JStr "get_weather"))).
Proof.
  split; [exact I |].
  destruct (tool_message_read_back_encoded "s1" "n1" (Some "T2") "u1" None "Helper"
              (Text "22 degrees") "call_1" (Some "get_weather") chat_world I)
    as [id [w' [H1 [H2 [H3 _]]]]].
  exists id, w'. split; [exact H1 |].
  eexists. split; [exact H2 |]. split; [reflexivity | exact H3].
Defined.

Lemma addToolMessage_read_back_witness :
  jsval_wf (Some (JObj [("city", JStr "Paris")]))
  /\ jsval_wf None
  /\ exists id w',
      addToolMessage (makeChatHubOperations "s1" "n1" (Some "T2") "u1" None "Helper")
        "call_1" "get_weather" (Some (JObj [("city", JStr "Paris")])) None chat_world
      = (Ok tt, w')
      /\ exists stored,
          memory w' = memory chat_world ++ [stored]
          /\ ChatHubMemory.id stored = id
          /\ ChatHubMemory.content stored
             = jtext "{'toolCallId':'call_1','toolName':'get_weather','toolInput':{'city':'Paris'}}"
          /\ ChatHubMessageHistory.convertToLangChainMessage (toEntry stored)
             = Ok (new_ToolMessage None (Some (JStr "call_1")) (Some (JStr "get_weather"))).
Proof.
  assert (Hi : jsval_wf (Some (JObj [("city", JStr "Paris")])))
    by (simpl; repeat split).
  split; [exact Hi |]. split; [exact I |].
  destruct (addToolMessage_read_back "s1" "n1" (Some "T2") "u1" None "Helper"
              "call_1" "get_weather" (Some (JObj [("city", JStr "Paris")])) None
              chat_world Hi I)
    as [id [w' [H1 [H2 H3]]]].
  exists id, w'. split; [exact H1 |].
  eexists. split; [exact H2 |]. split; [reflexivity |]. split; [reflexivity | exact H3].
Defined.

Lemma content_without_member_reads_undefined_witness :
  JSON.parse (ChatHubMemoryEntry.content e_number) = Some (JNum 42)
  /\ ChatHubMessageHistory.convertToLangChainMessage e_number
     = Ok (new_HumanMessage None (Some "User")).
Proof.
  split; [reflexivity |].
  apply (proj1 (content_without_member_reads_undefined e_number (JNum 42) eq_refl
                  ltac:(discriminate) ltac:(intros members H; discriminate))).
  reflexivity.
Defined.

Lemma malformed_content_falls_back_witness :
  JSON.parse (ChatHubMemoryEntry.content e_plain) = None
  /\ ChatHubMessageHistory.convertToLangChainMessage e_plain
     = Ok (new_HumanMessage (Some "hello there") (Some "User")).
Proof.
  split; [reflexivity |].
  apply (proj1 (malformed_content_falls_back e_plain eq_refl)). reflexivity.
Defined.

Lemma addMessages_stops_at_first_failure_witness :
  exists w1 w2,
    ChatHubMessageHistory.addMessages rejecting_service
      [HumanMessage (Text "What is the weather?") None] chat_world = (Ok tt, w1)
    /\ ChatHubMessageHistory.addMessage rejecting_service
         (AIMessage (Text "Sunny.") None None) w1
       = (Threw (QueryFailedError "connection terminated"), w2)
    /\ ChatHubMessageHistory.addMessages rejecting_service
         [HumanMessage (Text "What is the weather?") None;
          AIMessage (Text "Sunny.") None None;
          HumanMessage (Text "Thanks.") None] chat_world
       = (Threw (QueryFailedError "connection terminated"), w2)
    /\ List.length (memory w2) = S (List.length (memory chat_world)).
Proof.
  eexists. eexists.
  split; [reflexivity |]. split; [reflexivity |].
  split.
  - apply (addMessages_stops_at_first_failure rejecting_service
             [HumanMessage (Text "What is the weather?") None]
             (AIMessage (Text "Sunny.") None None)
             [HumanMessage (Text "Thanks.") None]
             chat_world _ _ _ eq_refl eq_refl).
  - reflexivity.
Defined.

Lemma extractAgentName_first_chat_trigger_witness :
  Forall (fun kn => INode.type (snd kn) <> "@n8n/n8n-nodes-langchain.chatTrigger")
         [("Memory", allowed_node)]
  /\ extractAgentName two_trigger_workflow
     = extractAgentName
         (Workflow.mk (Some "wf2") (Some "Front desk")
            [("Chat A", INode.mk "@n8n/n8n-nodes-langchain.chatTrigger"
                          [("public", JBool true)])])
  /\ extractAgentName two_trigger_workflow = "Front desk".
Proof.
  assert (Hb : Forall (fun kn => INode.type (snd kn)
                                 <> "@n8n/n8n-nodes-langchain.chatTrigger")
                      [("Memory", allowed_node)])
    by (constructor; [discriminate | constructor]).
  split; [exact Hb |]. split; [| reflexivity].
  apply (extractAgentName_first_chat_trigger (Some "wf2") (Some "Front desk")
           [("Memory", allowed_node)] "Chat A"
           (INode.mk "@n8n/n8n-nodes-langchain.chatTrigger" [("public", JBool true)])
           [("Chat B", INode.mk "@n8n/n8n-nodes-langchain.chatTrigger"
                         [("agentName", JStr "Second")])]
           Hb eq_refl).
Defined.

Lemma clear_then_getMessages_empty_witness :
  buildMessageHistory (session_messages "s1" chat_world) = Ok [m_root; m_b]
  /\ exists w1,
      ChatHubMessageHistory.clear
        (makeChatHubOperations "s1" "n1" (Some "T3") "u1" None "Helper") chat_world
      = (Ok tt, w1)
      /\ memory w1 = [e_other_node]
      /\ fst (ChatHubMessageHistory.getMessages
                (makeChatHubOperations "s1" "n1" (Some "T3") "u1" None "Helper") w1)
         = Ok [].
Proof.
  split; [reflexivity |].
  destruct (clear_then_getMessages_empty "s1" "n1" (Some "T3") "u1" None "Helper"
              chat_world [m_root; m_b] eq_refl)
    as [w1 [H1 [H2 _]]].
  exists w1. split; [exact H1 |]. split; [| exact H2].
  injection H1 as <-. reflexivity.
Defined.

Lemma memory_isolated_between_nodes_witness :
  ("s1" <> "s1" \/ "n2" <> "n1")
  /\ fst (getMemory (makeChatHubOperations "s1" "n1" (Some "T3") "u1" None "Helper")
            (snd (ChatHubMessageHistory.addMessages
                    (makeChatHubOperations "s1" "n2" (Some "T2") "u1" None "Helper")
                    [HumanMessage (Text "for the other node") None] chat_world)))
     = Ok [toEntry e_t2].
Proof.
  assert (Hne : "s1" <> "s1" \/ "n2" <> "n1") by (right; discriminate).
  split; [exact Hne |].
  rewrite (proj1 (memory_isolated_between_nodes "s1" "n1" (Some "T3") "u1" None "Helper"
                    "s1" "n2" (Some "T2") "u1" None "Helper"
                    [HumanMessage (Text "for the other node") None] chat_world Hne)).
  reflexivity.
Defined.

Lemma written_entry_read_once_turn_on_chain_witness :
  buildMessageHistory (session_messages "s1" chat_world) = Ok [m_root; m_b]
  /\ storable (HumanMessage (Text "And tomorrow?") None) = true
  /\ exists e w' after,
      ChatHubMessageHistory.addMessage
        (makeChatHubOperations "s1" "n1" (Some "T2") "u1" None "Helper")
        (HumanMessage (Text "And tomorrow?") None) chat_world
      = (Ok tt, w')
      /\ memory w' = memory chat_world ++ [e]
      /\ fst (getMemory (makeChatHubOperations "s1" "n1" (Some "T2") "u1" None "Helper") w')
         = Ok after
      /\ Permutation after [toEntry e; toEntry e_t2].
Proof.
  split; [reflexivity |]. split; [reflexivity |].
  destruct (written_entry_read_once_turn_on_chain "s1" "n1" (Some "T2") "u1" None "Helper"
              (HumanMessage (Text "And tomorrow?") None) chat_world [m_root; m_b]
              eq_refl eq_refl)
    as [e [w' [before [after [H1 [H2 [_ [H4 [H5 [H6 _]]]]]]]]]].
  exists e, w', after.
  split; [exact H1 |]. split; [exact H2 |]. split; [exact H5 |].
  assert (Hb : before = [toEntry e_t2]).
  { vm_compute in H4. now injection H4 as <-. }
  rewrite <- Hb. apply H6. exists "T2". split; [reflexivity |].
  vm_compute. now left.
Defined.
